(** * kiwibnc: the connection state and the client command dispatcher

    A shallow embedding of two source files of the bouncer:

    - the connection state ([IrcBuffer] and [ConnectionState]: the buffer
      map, the temporary key/value data, [save] and [load]);
    - [src/worker/clientcommands.js] ([run], [maybeProcessRegistration],
      the verb handlers and [processConQueue]).

    JavaScript strings are modelled by [string] (sequences of 8-bit
    characters; verbs and capability names are ASCII).  Code that awaits is
    modelled sequentially: one message is handled at a time, as the
    connection's own loop does. *)

From stdpp Require Import base strings list gmap fin_maps pretty.
From Stdlib Require Import ZArith Ascii String.

Open Scope Z_scope.
Open Scope string_scope.

(** ** JavaScript primitives used by the sources *)

Definition upper_ascii (c : ascii) : ascii :=
  let n := nat_of_ascii c in
  if ((97 <=? n) && (n <=? 122))%nat then ascii_of_nat (n - 32) else c.

Definition lower_ascii (c : ascii) : ascii :=
  let n := nat_of_ascii c in
  if ((65 <=? n) && (n <=? 90))%nat then ascii_of_nat (n + 32) else c.

Fixpoint string_map (f : ascii → ascii) (s : string) : string :=
  match s with
  | EmptyString => EmptyString
  | String c s' => String (f c) (string_map f s')
  end.

(** [String.prototype.toUpperCase] and [toLowerCase]. *)
Definition toUpperCase (s : string) : string := string_map upper_ascii s.
Definition toLowerCase (s : string) : string := string_map lower_ascii s.

(** Truthiness of a string and of a number. *)
Definition truthy_str (s : string) : bool :=
  match s with EmptyString => false | _ => true end.

Definition truthy_num (z : Z) : bool := negb (Z.eqb z 0).

(** [a || b] on strings. *)
Definition or_str (a b : string) : string := if truthy_str a then a else b.

(** [s.split(sep)] for a one-character separator. *)
Fixpoint split (sep : ascii) (s : string) : list string :=
  match s with
  | EmptyString => [EmptyString]
  | String c s' =>
      if Ascii.eqb c sep then EmptyString :: split sep s'
      else match split sep s' with
           | [] => [String c EmptyString]
           | w :: ws => String c w :: ws
           end
  end.

(** [arr.join(sep)]. *)
Definition join (sep : string) (l : list string) : string := String.concat sep l.

(** [arr.includes(x)]. *)
Definition includes (l : list string) (x : string) : bool :=
  existsb (String.eqb x) l.

(** A JavaScript [Set] of strings keeps its members in insertion order. *)
Definition set_add (x : string) (s : list string) : list string :=
  if includes s x then s else s ++ [x].

Definition set_delete (x : string) (s : list string) : list string :=
  filter (λ y, y ≠ x) s.

(** [new Set(arr)]. *)
Definition set_from_array (l : list string) : list string :=
  fold_left (λ s x, set_add x s) l [].

(** Longest prefix of [s] whose characters satisfy [p], and the rest. *)
Fixpoint span (p : ascii → bool) (s : string) : string * string :=
  match s with
  | EmptyString => (EmptyString, EmptyString)
  | String c s' =>
      if p c then let '(a, b) := span p s' in (String c a, b)
      else (EmptyString, s)
  end.

(** The JavaScript values that reach the connection's writers and the
    [nick] field: a string, a number, a boolean or [undefined]. *)
Inductive Val : Type :=
| VStr (s : string)
| VNum (z : Z)
| VBool (b : bool)
| VUndef.

(** ** IrcBuffer *)

Module IrcBuffer.
Record t : Type := mk {
  name : string;
  key : string;
  joined : bool;
  topic : string;
  isChannel : bool;
  lastSeen : Z;
}.

(** [new IrcBuffer(name, upstreamCon)]; [upstreamCon] is represented by
    its [isChannelName] method when it is given. *)
Definition new (name : string) (upstreamCon : option (string → bool)) : t :=
  {| name := name;
     key := "";
     joined := false;
     topic := "";
     isChannel := match upstreamCon with
                  | Some isChannelName => isChannelName name
                  | None => true
                  end;
     lastSeen := 0 |}.

Definition set_name (n : string) (b : t) : t :=
  {| name := n; key := key b; joined := joined b; topic := topic b;
     isChannel := isChannel b; lastSeen := lastSeen b |}.

(** [IrcBuffer.fromObj(obj)]: [obj] is a plain object with the fields of
    a buffer (as read back from the stored JSON). *)
Definition fromObj (obj : t) : t :=
  let c := new (name obj) None in
  {| name := name c;
     key := or_str (key obj) "";
     joined := joined obj || false;
     topic := or_str (topic obj) "";
     isChannel := negb (negb (isChannel obj));
     lastSeen := lastSeen c |}.
End IrcBuffer.

(** ** Temporary data

    [tempData] is a plain object used as a scratch map.  The worker stores
    three keys in it, each with one shape; the record has one optional
    field per key ([None]: the key is absent).  [tempGet(key)] is the
    reading of the field. *)

Module RegState.
Record t : Type := mk { nick : string; user : string; pass : string }.
Definition set_nick (v : string) (r : t) : t := mk v (user r) (pass r).
Definition set_user (v : string) (r : t) : t := mk (nick r) v (pass r).
Definition set_pass (v : string) (r : t) : t := mk (nick r) (user r) v.
End RegState.

Record TempData : Type := mkTemp {
  capping : option string;            (* tempData['capping'] *)
  reg_state : option RegState.t;      (* tempData['reg.state'] *)
  reg_queue : option (list string);   (* tempData['reg.queue'] *)
}.

Definition temp_empty : TempData := mkTemp None None None.

(** ** The caps field

    The constructor and [load] make [caps] a [Set]; the CAP handler treats
    it as an array.  Both shapes are values the field can hold. *)
Inductive Caps : Type :=
| CapsSet (members : list string)
| CapsArray (items : list string).

(** [Array.from(caps)] *)
Definition Array_from (c : Caps) : list string :=
  match c with CapsSet l => l | CapsArray l => l end.

(** ** ConnectionState *)

Record Sasl : Type := mkSasl { sasl_account : string; sasl_password : string }.

Record ConnectionState : Type := mkState {
  conId : string;
  loaded : bool;
  serverPrefix : string;
  registrationLines : list string;
  isupports : list string;
  caps : Caps;
  buffers : gmap string IrcBuffer.t;
  nick : Val;
  account : string;
  username : string;
  realname : string;
  password : string;
  host : string;
  port : Z;
  tls : bool;
  tlsverify : bool;
  bindHost : string;
  type : Z;
  connected : bool;
  sasl : Sasl;
  netRegistered : bool;
  receivedMotd : bool;
  authUserId : Z;
  authNetworkId : Z;
  authNetworkName : string;
  authAdmin : bool;
  linkedIncomingConIds : list string;
  logging : bool;
  tempData : TempData;
}.

(** [new ConnectionState(id, db)] *)
Definition ConnectionState_new (id : string) : ConnectionState :=
  {| conId := id; loaded := false; serverPrefix := "bnc";
     registrationLines := []; isupports := []; caps := CapsSet [];
     buffers := ∅; nick := VStr "unknown-user"; account := "";
     username := "user"; realname := "BNC user"; password := "";
     host := ""; port := 6667; tls := false; tlsverify := true;
     bindHost := ""; type := 0; connected := false;
     sasl := mkSasl "" ""; netRegistered := false; receivedMotd := false;
     authUserId := 0; authNetworkId := 0; authNetworkName := "";
     authAdmin := false; linkedIncomingConIds := set_from_array [];
     logging := true; tempData := temp_empty |}.

(** Field updates ([this.f = v]). *)
Definition set_caps (v : Caps) (s : ConnectionState) : ConnectionState :=
  mkState (conId s) (loaded s) (serverPrefix s) (registrationLines s)
    (isupports s) v (buffers s) (nick s) (account s) (username s)
    (realname s) (password s) (host s) (port s) (tls s) (tlsverify s)
    (bindHost s) (type s) (connected s) (sasl s) (netRegistered s)
    (receivedMotd s) (authUserId s) (authNetworkId s) (authNetworkName s)
    (authAdmin s) (linkedIncomingConIds s) (logging s) (tempData s).

Definition set_buffers (v : gmap string IrcBuffer.t) (s : ConnectionState)
  : ConnectionState :=
  mkState (conId s) (loaded s) (serverPrefix s) (registrationLines s)
    (isupports s) (caps s) v (nick s) (account s) (username s)
    (realname s) (password s) (host s) (port s) (tls s) (tlsverify s)
    (bindHost s) (type s) (connected s) (sasl s) (netRegistered s)
    (receivedMotd s) (authUserId s) (authNetworkId s) (authNetworkName s)
    (authAdmin s) (linkedIncomingConIds s) (logging s) (tempData s).

Definition set_nick (v : Val) (s : ConnectionState) : ConnectionState :=
  mkState (conId s) (loaded s) (serverPrefix s) (registrationLines s)
    (isupports s) (caps s) (buffers s) v (account s) (username s)
    (realname s) (password s) (host s) (port s) (tls s) (tlsverify s)
    (bindHost s) (type s) (connected s) (sasl s) (netRegistered s)
    (receivedMotd s) (authUserId s) (authNetworkId s) (authNetworkName s)
    (authAdmin s) (linkedIncomingConIds s) (logging s) (tempData s).

Definition set_authUserId (v : Z) (s : ConnectionState) : ConnectionState :=
  mkState (conId s) (loaded s) (serverPrefix s) (registrationLines s)
    (isupports s) (caps s) (buffers s) (nick s) (account s) (username s)
    (realname s) (password s) (host s) (port s) (tls s) (tlsverify s)
    (bindHost s) (type s) (connected s) (sasl s) (netRegistered s)
    (receivedMotd s) v (authNetworkId s) (authNetworkName s)
    (authAdmin s) (linkedIncomingConIds s) (logging s) (tempData s).

Definition set_authNetworkId (v : Z) (s : ConnectionState) : ConnectionState :=
  mkState (conId s) (loaded s) (serverPrefix s) (registrationLines s)
    (isupports s) (caps s) (buffers s) (nick s) (account s) (username s)
    (realname s) (password s) (host s) (port s) (tls s) (tlsverify s)
    (bindHost s) (type s) (connected s) (sasl s) (netRegistered s)
    (receivedMotd s) (authUserId s) v (authNetworkName s)
    (authAdmin s) (linkedIncomingConIds s) (logging s) (tempData s).

Definition set_linkedIncomingConIds (v : list string) (s : ConnectionState)
  : ConnectionState :=
  mkState (conId s) (loaded s) (serverPrefix s) (registrationLines s)
    (isupports s) (caps s) (buffers s) (nick s) (account s) (username s)
    (realname s) (password s) (host s) (port s) (tls s) (tlsverify s)
    (bindHost s) (type s) (connected s) (sasl s) (netRegistered s)
    (receivedMotd s) (authUserId s) (authNetworkId s) (authNetworkName s)
    (authAdmin s) v (logging s) (tempData s).

Definition set_netRegistered (v : bool) (s : ConnectionState) : ConnectionState :=
  mkState (conId s) (loaded s) (serverPrefix s) (registrationLines s)
    (isupports s) (caps s) (buffers s) (nick s) (account s) (username s)
    (realname s) (password s) (host s) (port s) (tls s) (tlsverify s)
    (bindHost s) (type s) (connected s) (sasl s) v
    (receivedMotd s) (authUserId s) (authNetworkId s) (authNetworkName s)
    (authAdmin s) (linkedIncomingConIds s) (logging s) (tempData s).

Definition set_authNetworkName (v : string) (s : ConnectionState)
  : ConnectionState :=
  mkState (conId s) (loaded s) (serverPrefix s) (registrationLines s)
    (isupports s) (caps s) (buffers s) (nick s) (account s) (username s)
    (realname s) (password s) (host s) (port s) (tls s) (tlsverify s)
    (bindHost s) (type s) (connected s) (sasl s) (netRegistered s)
    (receivedMotd s) (authUserId s) (authNetworkId s) v
    (authAdmin s) (linkedIncomingConIds s) (logging s) (tempData s).

Definition set_tempData (v : TempData) (s : ConnectionState) : ConnectionState :=
  mkState (conId s) (loaded s) (serverPrefix s) (registrationLines s)
    (isupports s) (caps s) (buffers s) (nick s) (account s) (username s)
    (realname s) (password s) (host s) (port s) (tls s) (tlsverify s)
    (bindHost s) (type s) (connected s) (sasl s) (netRegistered s)
    (receivedMotd s) (authUserId s) (authNetworkId s) (authNetworkName s)
    (authAdmin s) (linkedIncomingConIds s) (logging s) v.

(** ** Rows of the user store

    The network and user records the credential store returns. *)
Module Network.
Record t : Type := mk {
  id : Z;
  user_id : Z;
  name : string;
  host : string;
  port : Z;
  tls : bool;
  tlsverify : bool;
  bind_host : string;
  sasl_account : string;
  sasl_pass : string;
  nick : string;
  username : string;
  realname : string;
  password : string;
}.
End Network.

Module User.
Record t : Type := mk { id : Z; bind_host : string }.
End User.

(** ** The connections table

    One row per [conid].  A JSON column is represented by the value it
    encodes: [JSON.parse (JSON.stringify v)] gives [v] back for the strings,
    booleans, numbers, arrays and plain objects stored here, and the table
    returns the values it was given.  The columns [sasl] and
    [linked_con_ids] may be empty, which [load] tests for. *)

Module ConnectionRow.
Record t : Type := mk {
  conid : string;
  last_statesave : Z;
  bind_host : string;
  host : string;
  port : Z;
  tls : bool;
  tlsverify : bool;
  type : Z;
  account : string;
  username : string;
  realname : string;
  password : string;
  connected : bool;
  sasl : option Sasl;
  server_prefix : string;
  registration_lines : list string;
  isupports : list string;
  caps : list string;
  buffers : gmap string IrcBuffer.t;
  nick : Val;
  received_motd : bool;
  net_registered : bool;
  auth_user_id : Z;
  auth_network_id : Z;
  auth_network_name : string;
  auth_admin : bool;
  linked_con_ids : option (list string);
  logging : bool;
  temp : TempData;
}.
End ConnectionRow.

Abbreviation Db := (gmap string ConnectionRow.t).

(** [setNetwork(network)] *)
Definition setNetwork (network : Network.t) (s : ConnectionState)
  : ConnectionState :=
  set_authNetworkName (Network.name network)
    (set_authNetworkId (Network.id network) s).

(** ** Buffer operations

    The debug lines these operations log are not recorded. *)

Inductive ChanArg : Type :=
| ChanName (name : string)
| ChanObj (obj : IrcBuffer.t).

Definition getBuffer (name : string) (s : ConnectionState) : option IrcBuffer.t :=
  buffers s !! toLowerCase name.

Definition addBuffer (chan : ChanArg) (upstreamCon : option (string → bool))
    (s : ConnectionState) : IrcBuffer.t * ConnectionState :=
  let buffer := match chan with
                | ChanName n => IrcBuffer.new n upstreamCon
                | ChanObj o => IrcBuffer.fromObj o
                end in
  (buffer, set_buffers (<[toLowerCase (IrcBuffer.name buffer) := buffer]> (buffers s)) s).

Definition delBuffer (name : string) (s : ConnectionState) : ConnectionState :=
  set_buffers (delete (toLowerCase name) (buffers s)) s.

(** [renameBuffer] returns [undefined] ([None]) when there is no buffer
    under the old name. *)
Definition renameBuffer (oldName newName : string) (s : ConnectionState)
  : option IrcBuffer.t * ConnectionState :=
  match getBuffer oldName s with
  | None => (None, s)
  | Some oldBuffer =>
      match getBuffer newName s with
      | Some newBuffer => (Some newBuffer, s)
      | None =>
          let bs := delete (toLowerCase oldName) (buffers s) in
          let oldBuffer' := IrcBuffer.set_name newName oldBuffer in
          (Some oldBuffer', set_buffers (<[toLowerCase newName := oldBuffer']> bs) s)
      end
  end.

(** ** save and load *)

Section Persistence.
(** [Helpers.now()], the time written to [last_statesave]. *)
Variable Helpers_now : Z.

Definition row_of (s : ConnectionState) : ConnectionRow.t :=
  {| ConnectionRow.conid := conId s;
     ConnectionRow.last_statesave := Helpers_now;
     ConnectionRow.bind_host := "";
     ConnectionRow.host := host s;
     ConnectionRow.port := port s;
     ConnectionRow.tls := tls s;
     ConnectionRow.tlsverify := tlsverify s;
     ConnectionRow.type := type s;
     ConnectionRow.account := account s;
     ConnectionRow.username := username s;
     ConnectionRow.realname := realname s;
     ConnectionRow.password := password s;
     ConnectionRow.connected := connected s;
     ConnectionRow.sasl := Some (sasl s);
     ConnectionRow.server_prefix := serverPrefix s;
     ConnectionRow.registration_lines := registrationLines s;
     ConnectionRow.isupports := isupports s;
     ConnectionRow.caps := Array_from (caps s);
     ConnectionRow.buffers := buffers s;
     ConnectionRow.nick := nick s;
     ConnectionRow.received_motd := receivedMotd s;
     ConnectionRow.net_registered := netRegistered s;
     ConnectionRow.auth_user_id := authUserId s;
     ConnectionRow.auth_network_id := authNetworkId s;
     ConnectionRow.auth_network_name := authNetworkName s;
     ConnectionRow.auth_admin := authAdmin s;
     ConnectionRow.linked_con_ids := Some (linkedIncomingConIds s);
     ConnectionRow.logging := logging s;
     ConnectionRow.temp := tempData s |}.

(** [loadConnectionInfo()]; [net] and [user] are what the user store
    returns for [authNetworkId] and [authUserId]. *)
Definition loadConnectionInfo (net : option Network.t) (user : option User.t)
    (s : ConnectionState) : ConnectionState :=
  let bindHost0 :=
    match net with
    | Some n =>
        if truthy_str (Network.bind_host n) then Network.bind_host n
        else match user with
             | Some u => if truthy_str (User.bind_host u) then User.bind_host u else ""
             | None => ""
             end
    | None => ""
    end in
  match net with
  | Some n =>
      mkState (conId s) (loaded s) (serverPrefix s) (registrationLines s)
        (isupports s) (caps s) (buffers s)
        (if negb (connected s) then VStr (Network.nick n) else nick s)
        (account s)
        (or_str (Network.username n) "kiwibnc")
        (or_str (Network.realname n) "kiwibnc")
        (or_str (Network.password n) "")
        (Network.host n) (Network.port n)
        (negb (negb (Network.tls n))) (negb (negb (Network.tlsverify n)))
        (or_str bindHost0 "") (type s) (connected s)
        (mkSasl (or_str (Network.sasl_account n) "") (or_str (Network.sasl_pass n) ""))
        (netRegistered s) (receivedMotd s) (authUserId s) (authNetworkId s)
        (Network.name n) (authAdmin s) (linkedIncomingConIds s) (logging s)
        (tempData s)
  | None =>
      mkState (conId s) (loaded s) (serverPrefix s) (registrationLines s)
        (isupports s) (caps s) (buffers s)
        (if negb (connected s) then VStr "" else nick s)
        (account s) "" "" "" "" 0 false (tlsverify s) "" (type s)
        (connected s) (mkSasl "" "") (netRegistered s) (receivedMotd s)
        (authUserId s) (authNetworkId s) (authNetworkName s) (authAdmin s)
        (linkedIncomingConIds s) (logging s) (tempData s)
  end.

(** [save()]: insert or replace the row of [conId]. *)
Definition save (s : ConnectionState) (db : Db) : Db :=
  <[conId s := row_of s]> db.

(** The loop of [load] over the stored buffers: [addBuffer] on each. *)
Definition load_buffers (rowChans : gmap string IrcBuffer.t)
    (s : ConnectionState) : ConnectionState :=
  map_fold (λ _ obj acc, snd (addBuffer (ChanObj obj) None acc))
           (set_buffers ∅ s) rowChans.

(** [load()].  Without a row the source assigns an empty array to
    [buffers]; it is represented by the empty map. *)
Definition load (s : ConnectionState) (db : Db) : ConnectionState :=
  match db !! conId s with
  | None =>
      mkState (conId s) true (serverPrefix s) [] [] (CapsSet [])
        ∅ (nick s) (account s) (username s) (realname s) (password s)
        (host s) (port s) (tls s) (tlsverify s) (bindHost s) (type s)
        (connected s) (sasl s) (netRegistered s) (receivedMotd s)
        (authUserId s) (authNetworkId s) (authNetworkName s)
        (authAdmin s) (linkedIncomingConIds s) true temp_empty
  | Some row =>
      let withBuffers := load_buffers (ConnectionRow.buffers row) s in
      mkState (conId s) true (ConnectionRow.server_prefix row)
        (ConnectionRow.registration_lines row) (ConnectionRow.isupports row)
        (CapsSet (set_from_array (ConnectionRow.caps row)))
        (buffers withBuffers)
        (ConnectionRow.nick row) (ConnectionRow.account row) (ConnectionRow.username row)
        (ConnectionRow.realname row) (ConnectionRow.password row)
        (ConnectionRow.host row) (ConnectionRow.port row) (ConnectionRow.tls row) (ConnectionRow.tlsverify row)
        (or_str (ConnectionRow.bind_host row) "") (ConnectionRow.type row)
        (ConnectionRow.connected row)
        (default (mkSasl "" "") (ConnectionRow.sasl row))
        (ConnectionRow.net_registered row) (ConnectionRow.received_motd row)
        (ConnectionRow.auth_user_id row) (ConnectionRow.auth_network_id row)
        (ConnectionRow.auth_network_name row)
        (negb (negb (ConnectionRow.auth_admin row)))
        (set_from_array (default [] (ConnectionRow.linked_con_ids row)))
        (negb (negb (ConnectionRow.logging row)))
        (ConnectionRow.temp row)
  end.

(** [maybeLoad()] *)
Definition maybeLoad (s : ConnectionState) (db : Db) : ConnectionState :=
  if negb (loaded s) then load s db else s.

(** [destroy()] *)
Definition destroy (s : ConnectionState) (db : Db) : Db := delete (conId s) db.

(** [getOrAddBuffer]: the new buffer is saved at once. *)
Definition getOrAddBuffer (name : string) (upstreamCon : option (string → bool))
    (s : ConnectionState) (db : Db) : IrcBuffer.t * ConnectionState * Db :=
  match getBuffer name s with
  | Some buffer => (buffer, s, db)
  | None =>
      let '(buffer, s') := addBuffer (ChanName name) upstreamCon s in
      (buffer, s', save s' db)
  end.

Definition linkIncomingConnection (id : string) (s : ConnectionState) (db : Db)
  : ConnectionState * Db :=
  let s' := set_linkedIncomingConIds (set_add id (linkedIncomingConIds s)) s in
  (s', save s' db).

Definition unlinkIncomingConnection (id : string) (s : ConnectionState) (db : Db)
  : ConnectionState * Db :=
  let s' := set_linkedIncomingConIds (set_delete id (linkedIncomingConIds s)) s in
  (s', save s' db).
End Persistence.

(** [tempSet(key, val)] for the three keys; [None] is [null], which deletes
    the key.  Every [tempSet] saves. *)
Inductive TempEntry : Type :=
| T_capping (val : option string)
| T_reg_state (val : option RegState.t)
| T_reg_queue (val : option (list string)).

Definition temp_assign (e : TempEntry) (t : TempData) : TempData :=
  match e with
  | T_capping v => mkTemp v (reg_state t) (reg_queue t)
  | T_reg_state v => mkTemp (capping t) v (reg_queue t)
  | T_reg_queue v => mkTemp (capping t) (reg_state t) v
  end.

Definition tempSet (now : Z) (e : TempEntry) (s : ConnectionState) (db : Db)
  : ConnectionState * Db :=
  let s' := set_tempData (temp_assign e (tempData s)) s in
  (s', save now s' db).

(** [tempSet(obj)], the form that takes an object: each of its keys is
    assigned or deleted, then the state is saved once. *)
Definition tempSet_object (now : Z) (entries : list TempEntry)
    (s : ConnectionState) (db : Db) : ConnectionState * Db :=
  let s' := set_tempData (fold_left (λ t e, temp_assign e t) entries (tempData s)) s in
  (s', save now s' db).


(** ** Messages, collaborators and effects *)

Record Msg : Type := mkMsg {
  command : string;
  params : list string;
  source : option string;
}.

Definition set_source (v : string) (m : Msg) : Msg :=
  mkMsg (command m) (params m) (Some v).

(** [msg.params[i]] *)
Definition param (m : Msg) (i : nat) : Val :=
  match nth_error (params m) i with Some s => VStr s | None => VUndef end.

(** Calls on objects defined outside these sources, in the order they are
    made.  They are recorded, not interpreted. *)
Inductive Event : Type :=
| ELogState (command : string) (netRegistered : bool) (capping : option string)
            (regState : option RegState.t) (source : option string)
| ELog (label : string) (v : Val)
| ELogTemp (label : string) (t : TempData)
| EWriteMsg (args : list Val)
| EWriteMsgFrom (from : Val) (args : list Val)
| EWriteFromBnc (args : list Val)
| EWriteStatus (text : string)
| EClose
| EMakeUpstream (network : Network.t)
| ERegisterClient
| ERegisterLocalClient
| EUpstreamOpen (upstreamId : string)
| EUpstreamClose (upstreamId : string)
| EUpstreamWriteLine (upstreamId : string) (args : list Val)
| EClientWriteMsgFrom (clientId : string) (from : Val) (args : list Val)
| EStoreMessage (userId networkId : Z) (msg : Msg)
| EClientControl (msg : Msg)
| EReloadClientCommands
| EKill.

(** The incoming connection [con] together with what the handlers reach
    through it: its state, its upstream (held by the id of an outgoing
    connection), the registry of outgoing connections, the connections
    table and the record of calls made. *)
Record Con : Type := mkCon {
  state : ConnectionState;
  upstream : option string;
  conDict : list ConnectionState;
  db : Db;
  trace : list Event;
}.

Definition with_state (s : ConnectionState) (c : Con) : Con :=
  mkCon s (upstream c) (conDict c) (db c) (trace c).
Definition with_conDict (d : list ConnectionState) (c : Con) : Con :=
  mkCon (state c) (upstream c) d (db c) (trace c).
Definition with_db (d : Db) (c : Con) : Con :=
  mkCon (state c) (upstream c) (conDict c) d (trace c).
Definition with_trace (t : list Event) (c : Con) : Con :=
  mkCon (state c) (upstream c) (conDict c) (db c) t.

(** [con.upstream]: the outgoing connection's state, when there is one. *)
Definition get_upstream (c : Con) : option ConnectionState :=
  match upstream c with
  | Some id => find (λ s, String.eqb (conId s) id) (conDict c)
  | None => None
  end.

(** Modelled from the spec: the registry query
    [findUsersOutgoingConnection(userId, networkId)] is not in these
    sources; it is the lookup of a user's outgoing upstream. *)
Definition findUsersOutgoingConnection (userId networkId : Z) (c : Con)
  : option ConnectionState :=
  find (λ s, Z.eqb (type s) 0 && Z.eqb (authUserId s) userId
             && Z.eqb (authNetworkId s) networkId) (conDict c).

(** A change of the state of the outgoing connection [id]. *)
Definition update_outgoing (id : string) (f : ConnectionState → ConnectionState)
    (d : list ConnectionState) : list ConnectionState :=
  map (λ s, if String.eqb (conId s) id then f s else s) d.

(** Modelled from the spec: [getChannel], which the BOUNCER handler calls
    on the upstream's state, is not in these sources; it is the
    case-insensitive buffer lookup, which the connection state names
    [getBuffer]. *)
Definition getChannel := getBuffer.

(** Modelled from the spec: [delChannel] is not in these sources; it is
    the removal of a buffer from the upstream's state, [delBuffer]. *)
Definition delChannel := delBuffer.

(** Modelled from the spec: [channels], which LISTBUFFERS reads, is not in
    these sources; it is the buffer map of the upstream's state. *)
Definition channels := buffers.

(** Results of a handler: it returns, or throws (the connection as it was
    when the exception was raised), or the evaluation ran out of fuel. *)
Inductive Res (A : Type) : Type :=
| Ok (a : A) (c : Con)
| Throw (e : string) (c : Con)
| OutOfFuel.
Arguments Ok {A} a c.
Arguments Throw {A} e c.
Arguments OutOfFuel {A}.

Definition M (A : Type) : Type := Con → Res A.

Definition ret {A} (a : A) : M A := λ c, Ok a c.
Definition throw {A} (e : string) : M A := λ c, Throw e c.
Definition bind {A B} (m : M A) (k : A → M B) : M B :=
  λ c, match m c with
       | Ok a c' => k a c'
       | Throw e c' => Throw e c'
       | OutOfFuel => OutOfFuel
       end.

Notation "'let*' x ':=' m 'in' k" := (bind m (λ x, k))
  (at level 10, x name, m at level 100, k at level 200, only parsing).
Notation "m '>>' k" := (bind m (λ _, k))
  (at level 90, right associativity, only parsing).

Definition gets {A} (f : Con → A) : M A := λ c, Ok (f c) c.
Definition emit (e : Event) : M unit :=
  λ c, Ok tt (with_trace (trace c ++ [e]) c).
Definition modify_state (f : ConnectionState → ConnectionState) : M unit :=
  λ c, Ok tt (with_state (f (state c)) c).
Definition when (b : bool) (m : M unit) : M unit := if b then m else ret tt.

(** What a handler returns: [true], [false] or nothing. *)
Inductive Ret : Type := RBool (b : bool) | RUndef.

(** Truthiness of [tempGet('capping')]: the key is present with a
    non-empty string.  This is what [run] and [maybeProcessRegistration]
    test, and what "capping is set" means below. *)
Definition truthy_opt (o : option string) : bool :=
  match o with Some s => truthy_str s | None => false end.

(** The regular expression of [maybeProcessRegistration], applied with
    [String.match].  It reads: one or more characters other than slash and
    colon (group 1); optionally a slash and one or more characters other
    than colon (group 2); optionally a colon and the rest of the line
    (group 3).  The result holds the groups of the leftmost match ([None]:
    the group did not take part). *)
Definition not_slash_colon (c : ascii) : bool :=
  negb (Ascii.eqb c "/" || Ascii.eqb c ":").
Definition not_colon (c : ascii) : bool := negb (Ascii.eqb c ":").
Definition not_line_terminator (c : ascii) : bool :=
  negb (Ascii.eqb c "010" || Ascii.eqb c "013").

Definition pass_match (pass : string)
  : option (string * option string * option string) :=
  let '(_, s) := span (λ c, negb (not_slash_colon c)) pass in
  match s with
  | EmptyString => None
  | _ =>
      let '(m1, r1) := span not_slash_colon s in
      let '(m2, r2) :=
        match r1 with
        | String "/" r =>
            let '(g, r') := span not_colon r in
            match g with
            | EmptyString => (None, r1)
            | _ => (Some g, r')
            end
        | _ => (None, r1)
        end in
      let m3 :=
        match r2 with
        | String ":" r => Some (fst (span not_line_terminator r))
        | _ => None
        end in
      Some (m1, m2, m3)
  end.

(** ** The collaborators of the worker

    Functions of modules that are not part of these sources: the IRC line
    parser and serializer, the parameter helpers, the capability hooks and
    the credential store. *)
Class Externals : Type := {
  ircLineParser : string → option Msg;
  to1459 : Msg → string;
  mParam : Msg → nat → string → string;
  mParamU : Msg → nat → string → string;
  encodeTags : list (string * string) → string;
  Helpers_now : Z;
  (* the list the 'available_caps' hooks fill in *)
  available_caps : Con → list string;
  authUser : string → string → option User.t;
  authUserNetwork : string → string → string → option Network.t;
  getNetworkByName : Z → string → option Network.t;
  getUserNetworks : Z → list Network.t;
}.

Section Worker.
Context {E : Externals}.

(** ** Calls on [con] and [con.state] *)

Definition state_save : M unit :=
  λ c, Ok tt (with_db (save Helpers_now (state c) (db c)) c).

Definition state_tempSet (e : TempEntry) : M unit :=
  λ c, let '(s', db') := tempSet Helpers_now e (state c) (db c) in
       Ok tt (with_db db' (with_state s' c)).

Definition writeMsg (args : list Val) : M unit := emit (EWriteMsg args).
Definition writeMsgFrom (from : Val) (args : list Val) : M unit :=
  emit (EWriteMsgFrom from args).
Definition writeFromBnc (args : list Val) : M unit := emit (EWriteFromBnc args).
Definition writeStatus (text : string) : M unit := emit (EWriteStatus text).
Definition close : M unit := emit EClose.

(** Modelled from the spec: [upstream.forEachClient(f, exclude)] is not in
    these sources; it iterates [linkedIncomingConIds] skipping [exclude].
    Here [f] writes a message from [from] to the client. *)
Definition forEachClient_writeMsgFrom (up : ConnectionState) (exclude : string)
    (from : Val) (args : list Val) : M unit :=
  λ c, Ok tt (with_trace
                (trace c ++ map (λ id, EClientWriteMsgFrom id from args)
                                (filter (λ id, id ≠ exclude) (linkedIncomingConIds up)))
                c).

(** ** maybeProcessRegistration *)

Definition invalid_password : M Ret :=
  writeMsg [VStr "ERROR"; VStr "Invalid password"] >>
  close >>
  ret (RBool false).

(** After a network login: make, open or attach to the upstream. *)
Definition bind_upstream (network : Network.t) : M unit :=
  let* up := gets get_upstream in
  match up with
  | None =>
      emit (EMakeUpstream network) >>
      writeStatus "Connecting to the network.."
  | Some u =>
      if negb (connected u) then
        writeStatus "Connecting to the network.." >>
        emit (EUpstreamOpen (conId u))
      else
        writeStatus "Attaching you to the network" >>
        when (netRegistered u) (emit ERegisterClient)
  end.

Definition welcome_local : M unit :=
  writeStatus "Welcome to your BNC!" >>
  emit ERegisterLocalClient.

(** The part after the credentials were accepted; [attach] is the branch
    chosen by [networkName]. *)
Definition finish_registration (attach : M unit) : M Ret :=
  state_save >>
  let* cap := gets (λ c, capping (tempData (state c))) in
  if truthy_opt cap then ret RUndef
  else
    attach >>
    state_tempSet (T_reg_state None) >>
    ret RUndef.

Definition maybeProcessRegistration : M Ret :=
  let* temp := gets (λ c, tempData (state c)) in
  match reg_state temp with
  | None => throw "TypeError: Cannot read properties of undefined (reading 'nick')"
  | Some regState =>
      if negb (truthy_str (RegState.nick regState))
         || negb (truthy_str (RegState.user regState))
         || negb (truthy_str (RegState.pass regState))
         || truthy_opt (capping temp)
      then ret RUndef
      else
        match pass_match (RegState.pass regState) with
        | None => invalid_password
        | Some (m1, m2, m3) =>
            let username := or_str m1 "" in
            let networkName := or_str (default "" m2) "" in
            let password := or_str (default "" m3) "" in
            if truthy_str networkName then
              match authUserNetwork username password networkName with
              | None => invalid_password
              | Some network =>
                  modify_state (set_authUserId (Network.user_id network)) >>
                  modify_state (set_authNetworkId (Network.id network)) >>
                  finish_registration (bind_upstream network)
              end
            else
              match authUser username password with
              | None => invalid_password
              | Some user =>
                  modify_state (set_authUserId (User.id user)) >>
                  finish_registration welcome_local
              end
        end
  end.

(** ** The verb handlers *)

Definition caps_join (sep : string) : M string :=
  let* cs := gets (λ c, caps (state c)) in
  match cs with
  | CapsArray l => ret (join sep l)
  | CapsSet _ => throw "TypeError: con.state.caps.join is not a function"
  end.

Definition caps_concat (more : list string) : M Caps :=
  let* cs := gets (λ c, caps (state c)) in
  match cs with
  | CapsArray l => ret (CapsArray (l ++ more))
  | CapsSet _ => throw "TypeError: con.state.caps.concat is not a function"
  end.

Definition commands_CAP (processConQueue : M unit) (msg : Msg) : M Ret :=
  let* availableCaps := gets available_caps in
  when (String.eqb (mParamU msg 0 "") "LIST")
    (let* joined := caps_join " " in
     writeMsg [VStr "CAP"; VStr "*"; VStr "LIST"; VStr joined]) >>
  when (String.eqb (mParamU msg 0 "") "LS")
    (state_tempSet (T_capping (Some (mParamU msg 1 "301"))) >>
     writeMsg [VStr "CAP"; VStr "*"; VStr "LS"; VStr (join " " availableCaps)]) >>
  when (String.eqb (mParamU msg 0 "") "REQ")
    (let requested := split " " (mParam msg 1 "") in
     let matched := List.filter (λ cap, includes availableCaps cap) requested in
     let* newCaps := caps_concat matched in
     modify_state (set_caps newCaps) >>
     state_save >>
     writeMsg [VStr "CAP"; VStr "*"; VStr "ACK"; VStr (join " " matched)]) >>
  when (String.eqb (mParamU msg 0 "") "END")
    (processConQueue >>
     state_tempSet (T_capping None)) >>
  ret (RBool false).

Definition commands_PASS (msg : Msg) : M Ret :=
  let* uid := gets (λ c, authUserId (state c)) in
  if truthy_num uid then ret (RBool false)
  else
    let* rs := gets (λ c, reg_state (tempData (state c))) in
    match rs with
    | None => throw "TypeError: Cannot set properties of undefined (setting 'pass')"
    | Some regState =>
        state_tempSet (T_reg_state (Some (RegState.set_pass (mParam msg 0 "") regState))) >>
        ret (RBool false)
    end.

Definition commands_USER (msg : Msg) : M Ret :=
  let* rs := gets (λ c, reg_state (tempData (state c))) in
  match rs with
  | Some regState =>
      state_tempSet (T_reg_state (Some (RegState.set_user (mParam msg 0 "") regState)))
  | None => ret tt
  end >>
  ret (RBool false).

Definition storeMessage (up : ConnectionState) (msg : Msg) : M unit :=
  emit (EStoreMessage (authUserId up) (authNetworkId up) msg).

Definition commands_NOTICE (msg : Msg) : M Ret :=
  let* me := gets (λ c, conId (state c)) in
  let* up := gets get_upstream in
  match up with
  | Some u => forEachClient_writeMsgFrom u me (nick u)
                [VStr "NOTICE"; param msg 0; param msg 1]
  | None => ret tt
  end >>
  match up with
  | Some u => storeMessage u msg
  | None => ret tt
  end >>
  ret RUndef.

Definition commands_PRIVMSG (msg : Msg) : M Ret :=
  let* me := gets (λ c, conId (state c)) in
  let* up := gets get_upstream in
  match up with
  | Some u => forEachClient_writeMsgFrom u me (nick u)
                [VStr "PRIVMSG"; param msg 0; param msg 1]
  | None => ret tt
  end >>
  let* uid := gets (λ c, authUserId (state c)) in
  if match param msg 0 with VStr t => String.eqb t "*bnc" | _ => false end
     && truthy_num uid
  then emit (EClientControl msg) >> ret (RBool false)
  else
    match up with
    | Some u => storeMessage u msg
    | None => ret tt
    end >>
    ret (RBool true).

Definition commands_NICK (msg : Msg) : M Ret :=
  let* up := gets get_upstream in
  if match up with Some u => negb (netRegistered u) | None => false end
  then ret RUndef
  else
    let* registered := gets (λ c, netRegistered (state c)) in
    if negb registered then
      modify_state (set_nick (param msg 0)) >>
      state_save >>
      let* n := gets (λ c, nick (state c)) in
      writeMsgFrom n [VStr "NICK"; n] >>
      let* rs := gets (λ c, reg_state (tempData (state c))) in
      match rs with
      | Some regState =>
          state_tempSet (T_reg_state (Some (RegState.set_nick (mParam msg 0 "") regState)))
      | None => ret tt
      end >>
      writeMsgFrom (VStr "bnc") [VNum 464; n; VStr "Password required"] >>
      writeFromBnc [VStr "NOTICE"; n;
        VStr "You must send your password first. /quote PASS <username>/<network>:<password>"] >>
      ret (RBool false)
    else ret (RBool true).

Definition commands_PING (msg : Msg) : M Ret :=
  writeMsg [VStr "PONG"; param msg 0] >>
  ret (RBool false).

Definition commands_QUIT (msg : Msg) : M Ret :=
  close >>
  ret (RBool false).

Definition bouncer_CONNECT (msg : Msg) : M unit :=
  let netName := mParam msg 1 "" in
  if negb (truthy_str netName) then
    writeMsg [VStr "BOUNCER"; VStr "connect"; VStr "*"; VStr "ERR_INVALIDARGS"]
  else
    let* uid := gets (λ c, authUserId (state c)) in
    match getNetworkByName uid netName with
    | None => writeMsg [VStr "BOUNCER"; VStr "connect"; VStr "*"; VStr "ERR_NETNOTFOUND"]
    | Some network =>
        let* up := gets (findUsersOutgoingConnection uid (Network.id network)) in
        match up with
        | Some u => when (negb (connected u)) (emit (EUpstreamOpen (conId u)))
        | None => emit (EMakeUpstream network)
        end
    end.

Definition bouncer_DISCONNECT (msg : Msg) : M unit :=
  let netName := mParam msg 1 "" in
  if negb (truthy_str netName) then
    writeMsg [VStr "BOUNCER"; VStr "disconnect"; VStr "*"; VStr "ERR_INVALIDARGS"]
  else
    let* uid := gets (λ c, authUserId (state c)) in
    match getNetworkByName uid netName with
    | None => writeMsg [VStr "BOUNCER"; VStr "disconnect"; VStr "*"; VStr "ERR_NETNOTFOUND"]
    | Some network =>
        let* up := gets (findUsersOutgoingConnection uid (Network.id network)) in
        match up with
        | Some u => when (connected u) (emit (EUpstreamClose (conId u)))
        | None => ret tt
        end
    end.

(** ['' + b] for a boolean. *)
Definition bool_to_string (b : bool) : string := if b then "true" else "false".

(** The parts of one LISTNETWORKS line, in the order they are pushed. *)
Definition listnetworks_parts (net : Network.t) (netCon : option ConnectionState)
  : list string :=
  [ "network=" +:+ Network.name net;
    "host=" +:+ Network.host net;
    "port=" +:+ pretty (Network.port net);
    (if truthy_str ("tls=" +:+ bool_to_string (Network.tls net)) then "1" else "0");
    "host=" +:+ Network.host net;
    match netCon with
    | Some nc => "state=" +:+ (if connected nc then "connected" else "disconnected")
    | None => "state=disconnect"
    end ].

Fixpoint listnetworks_each (uid : Z) (nets : list Network.t) : M unit :=
  match nets with
  | [] => ret tt
  | net :: rest =>
      let* netCon := gets (findUsersOutgoingConnection uid (Network.id net)) in
      writeMsg [VStr "BOUNCER"; VStr "listnetworks";
                VStr (join ";" (listnetworks_parts net netCon))] >>
      listnetworks_each uid rest
  end.

Definition bouncer_LISTNETWORKS (msg : Msg) : M unit :=
  let* uid := gets (λ c, authUserId (state c)) in
  listnetworks_each uid (getUserNetworks uid) >>
  writeMsg [VStr "BOUNCER"; VStr "listnetwork"; VStr "RPL_OK"].

Fixpoint listbuffers_each (netName : string) (bufs : list (string * IrcBuffer.t))
  : M unit :=
  match bufs with
  | [] => ret tt
  | (_, buffer) :: rest =>
      let chan := [ ("network", netName);
                    ("buffer", IrcBuffer.name buffer);
                    ("joined", if IrcBuffer.joined buffer then "1" else "0");
                    ("topic", IrcBuffer.topic buffer) ] in
      writeMsg [VStr "BOUNCER"; VStr "listbuffers"; VStr netName; VStr (encodeTags chan)] >>
      listbuffers_each netName rest
  end.

(** The order in which [for .. in] visits the buffers is that of
    [map_to_list]. *)
Definition bouncer_LISTBUFFERS (msg : Msg) : M unit :=
  let netName := mParam msg 1 "" in
  if negb (truthy_str netName) then
    writeMsg [VStr "BOUNCER"; VStr "listbuffers"; VStr "*"; VStr "ERR_INVALIDARGS"]
  else
    let* uid := gets (λ c, authUserId (state c)) in
    match getNetworkByName uid netName with
    | None => writeMsg [VStr "BOUNCER"; VStr "listbuffers"; VStr "*"; VStr "ERR_NETNOTFOUND"]
    | Some network =>
        let* up := gets (findUsersOutgoingConnection uid (Network.id network)) in
        match up with
        | Some u => listbuffers_each (Network.name network) (map_to_list (channels u))
        | None => ret tt
        end >>
        writeMsg [VStr "BOUNCER"; VStr "listbuffers"; VStr (Network.name network); VStr "RPL_OK"]
    end.

Definition bouncer_DELBUFFER (msg : Msg) : M unit :=
  let netName := mParam msg 1 "" in
  let bufferName := mParam msg 2 "" in
  if negb (truthy_str netName) || negb (truthy_str bufferName) then
    writeMsg [VStr "BOUNCER"; VStr "delbuffer"; VStr "*"; VStr "ERR_INVALIDARGS"]
  else
    let* uid := gets (λ c, authUserId (state c)) in
    match getNetworkByName uid netName with
    | None => writeMsg [VStr "BOUNCER"; VStr "delbuffer"; VStr "*"; VStr "ERR_NETNOTFOUND"]
    | Some network =>
        let rpl_ok := writeMsg [VStr "BOUNCER"; VStr "delbuffer";
                                VStr (Network.name network); VStr bufferName;
                                VStr "RPL_OK"] in
        let* up := gets (findUsersOutgoingConnection uid (Network.id network)) in
        match up with
        | None => rpl_ok
        | Some u =>
            let buffer := getChannel bufferName u in
            when (negb (bool_decide (is_Some buffer))) rpl_ok >>
            match buffer with
            | None => throw "TypeError: Cannot read properties of undefined (reading 'name')"
            | Some b =>
                (λ c, Ok tt (with_conDict
                               (update_outgoing (conId u) (delChannel (IrcBuffer.name b))
                                                (conDict c)) c)) >>
                when (IrcBuffer.joined b)
                  (emit (EUpstreamWriteLine (conId u) [VStr "PART"; VStr (IrcBuffer.name b)])) >>
                rpl_ok
            end
        end
    end.

(** The sub-commands are tested one after the other; a block that returns
    early returns [false], as the end of the handler does. *)
Definition commands_BOUNCER (msg : Msg) : M Ret :=
  let subCmd := mParamU msg 0 "" in
  when (String.eqb subCmd "CONNECT") (bouncer_CONNECT msg) >>
  when (String.eqb subCmd "DISCONNECT") (bouncer_DISCONNECT msg) >>
  when (String.eqb subCmd "LISTNETWORKS") (bouncer_LISTNETWORKS msg) >>
  when (String.eqb subCmd "LISTBUFFERS") (bouncer_LISTBUFFERS msg) >>
  when (String.eqb subCmd "DELBUFFER") (bouncer_DELBUFFER msg) >>
  ret (RBool false).

Definition commands_KILL (msg : Msg) : M Ret :=
  emit EKill >>
  ret (RBool false).

Definition commands_RELOAD (msg : Msg) : M Ret :=
  emit EReloadClientCommands >>
  ret (RBool false).

Definition commands_DEB (msg : Msg) : M Ret :=
  let* up := gets get_upstream in
  emit (ELog "upstream id"
          match up with Some u => VStr (conId u) | None => VStr "<no upstream>" end) >>
  emit (ELog "clients"
          match up with
          | Some u => VNum (Z.of_nat (List.length (linkedIncomingConIds u)))
          | None => VStr "<no upstream>"
          end) >>
  let* st := gets state in
  emit (ELog "this client registered?" (VBool (netRegistered st))) >>
  emit (ELogTemp "tmp vars" (tempData st)) >>
  ret (RBool false).

(** [commands[command]]: the handler table. *)
Definition commands (processConQueue : M unit) (command : string)
  : option (Msg → M Ret) :=
  if String.eqb command "CAP" then Some (commands_CAP processConQueue)
  else if String.eqb command "PASS" then Some commands_PASS
  else if String.eqb command "USER" then Some commands_USER
  else if String.eqb command "NOTICE" then Some commands_NOTICE
  else if String.eqb command "PRIVMSG" then Some commands_PRIVMSG
  else if String.eqb command "NICK" then Some commands_NICK
  else if String.eqb command "PING" then Some commands_PING
  else if String.eqb command "QUIT" then Some commands_QUIT
  else if String.eqb command "BOUNCER" then Some commands_BOUNCER
  else if String.eqb command "KILL" then Some commands_KILL
  else if String.eqb command "RELOAD" then Some commands_RELOAD
  else if String.eqb command "DEB" then Some commands_DEB
  else None.

(** [await commands[command](msg, con)] *)
Definition call_command (processConQueue : M unit) (command : string) (msg : Msg)
  : M Ret :=
  match commands processConQueue command with
  | Some handler => handler msg
  | None => throw "TypeError: commands[command] is not a function"
  end.

(** ** run *)

Definition preRegisterCommands : list string := ["USER"; "NICK"; "PASS"; "CAP"].

Definition log_state (command : string) (msg : Msg) : M unit :=
  λ c, emit (ELogState command (netRegistered (state c))
               (capping (tempData (state c)))
               (reg_state (tempData (state c))) (source msg)) c.

Definition is_queue (src : option string) : bool :=
  match src with Some s => String.eqb s "queue" | None => false end.

(** The CAP gate of [run]: the message is appended to the queue. *)
Definition run_capping (msg : Msg) (st : ConnectionState) : M Ret :=
  let messageQueue := default [] (reg_queue (tempData st)) in
  state_tempSet (T_reg_queue (Some (messageQueue ++ [to1459 msg])%list)) >>
  ret (RBool false).

(** The pre-registration gate of [run]. *)
Definition run_unregistered (processConQueue : M unit) (command : string)
    (msg : Msg) (st : ConnectionState) : M Ret :=
  if negb (includes preRegisterCommands command) then ret (RBool false)
  else
    match reg_state (tempData st) with
    | Some _ => ret tt
    | None => state_tempSet (T_reg_state (Some (RegState.mk "" "" "")))
    end >>
    call_command processConQueue command msg >>
    maybeProcessRegistration >>
    ret (RBool false).

(** The end of [run]: a registered client's message. *)
Definition run_registered (processConQueue : M unit) (command : string)
    (msg : Msg) : M Ret :=
  match commands processConQueue command with
  | Some handler => handler msg
  | None => ret (RBool true)
  end.

(** [run] after its diagnostic log: the unconditional verbs, then the CAP
    gate, the pre-registration gate and the dispatch of a registered
    client's message.  [processConQueue] is what CAP END calls. *)
Definition run_gates (processConQueue : M unit) (command : string) (msg : Msg)
  : M Ret :=
  if String.eqb command "DEB" || String.eqb command "RELOAD"
     || String.eqb command "PING"
  then call_command processConQueue command msg
  else
    let* st := gets state in
    if truthy_opt (capping (tempData st))
       && negb (String.eqb command "CAP")
       && negb (is_queue (source msg))
    then run_capping msg st
    else if negb (netRegistered st)
    then run_unregistered processConQueue command msg st
    else run_registered processConQueue command msg.

(** The body of [run]. *)
Definition run_body (processConQueue : M unit) (msg : Msg) : M Ret :=
  let command := toUpperCase (command msg) in
  log_state command msg >>
  run_gates processConQueue command msg.

(** One turn of the loop of [processConQueue] on the current
    [messageQueue]: the first line is taken off and the queue saved; a line
    that is empty or that the parser rejects is skipped; otherwise the
    message is tagged [source=queue] and given to [run], and the queue is
    read again.  With no line left, [reg.queue] is removed. *)
Definition processConQueue_turn (run : Msg → M Ret) (again : list string → M unit)
    (messageQueue : list string) : M unit :=
  match messageQueue with
  | [] => state_tempSet (T_reg_queue None)
  | line :: rest =>
      state_tempSet (T_reg_queue (Some rest)) >>
      match ircLineParser line with
      | Some msg =>
          if negb (truthy_str line) then again rest
          else
            run (set_source "queue" msg) >>
            let* q := gets (λ c, default [] (reg_queue (tempData (state c)))) in
            again q
      | None => again rest
      end
  end.

(** [run] and the loop of [processConQueue].  Both count down [fuel]: the
    loop once per line, [run] once per call. *)
Fixpoint run (fuel : nat) (msg : Msg) : M Ret :=
  match fuel with
  | O => λ _, OutOfFuel
  | S fuel' =>
      run_body
        (let* q := gets (λ c, default [] (reg_queue (tempData (state c)))) in
         processConQueue_loop fuel' q)
        msg
  end
with processConQueue_loop (fuel : nat) (messageQueue : list string) : M unit :=
  match fuel with
  | O => λ _, OutOfFuel
  | S fuel' =>
      processConQueue_turn (run fuel') (processConQueue_loop fuel') messageQueue
  end.

Definition processConQueue (fuel : nat) : M unit :=
  let* q := gets (λ c, default [] (reg_queue (tempData (state c)))) in
  processConQueue_loop fuel q.
End Worker.

(** ** A concrete set of collaborators

    A small instance used to run the handlers on concrete inputs: lines are
    words separated by single spaces, one user (alice, id 4) owns one
    network (freenode, id 9). *)
Module Demo.
Definition parse (line : string) : option Msg :=
  match split " " line with
  | [] => None
  | cmd :: ps => if truthy_str cmd then Some (mkMsg cmd ps None) else None
  end.

Definition serialize (m : Msg) : string := join " " (command m :: params m).

Definition mParam_demo (m : Msg) (i : nat) (def : string) : string :=
  match nth_error (params m) i with
  | Some s => or_str s def
  | None => def
  end.

Definition mParamU_demo (m : Msg) (i : nat) (def : string) : string :=
  toUpperCase (or_str (mParam_demo m i def) "").

Definition encodeTags_demo (tags : list (string * string)) : string :=
  join ";" (map (λ kv, fst kv +:+ "=" +:+ snd kv) tags).

Definition freenode : Network.t :=
  {| Network.id := 9; Network.user_id := 4; Network.name := "freenode";
     Network.host := "irc.freenode.net"; Network.port := 6667;
     Network.tls := false; Network.tlsverify := true;
     Network.bind_host := "192.0.2.7";
     Network.sasl_account := ""; Network.sasl_pass := "";
     Network.nick := "alice"; Network.username := "alice";
     Network.realname := "Alice"; Network.password := "" |}.

Definition authUser_demo (u p : string) : option User.t :=
  if String.eqb u "alice" && String.eqb p "s3cret" then Some (User.mk 4 "") else None.

Definition authUserNetwork_demo (u p n : string) : option Network.t :=
  if String.eqb u "alice" && String.eqb p "s3cret" && String.eqb n "freenode"
  then Some freenode else None.

Definition getNetworkByName_demo (uid : Z) (n : string) : option Network.t :=
  if Z.eqb uid 4 && String.eqb n "freenode" then Some freenode else None.

Definition getUserNetworks_demo (uid : Z) : list Network.t :=
  if Z.eqb uid 4 then [freenode] else [].

Definition externals : Externals :=
  {| ircLineParser := parse;
     to1459 := serialize;
     mParam := mParam_demo;
     mParamU := mParamU_demo;
     encodeTags := encodeTags_demo;
     Helpers_now := 0;
     available_caps := λ _, ["multi-prefix"; "server-time"];
     authUser := authUser_demo;
     authUserNetwork := authUserNetwork_demo;
     getNetworkByName := getNetworkByName_demo;
     getUserNetworks := getUserNetworks_demo |}.

(** A client that has just connected. *)
Definition fresh : Con :=
  mkCon (ConnectionState_new "c1") None [] ∅ [].
End Demo.

(** * The vocabulary of the properties

    Predicates, observations and concrete connections the theorems
    below are stated with. *)

Section Vocabulary.
Context {E : Externals}.

(** Every key of [buffers] is the lowercase form of the name of the buffer
    stored under it. *)
Definition buffers_inv (s : ConnectionState) : Prop :=
  ∀ k b, buffers s !! k = Some b → k = toLowerCase (IrcBuffer.name b).

(** An upstream's state after [loadConnectionInfo] found its network (whose
    bind host is 192.0.2.7), holding one buffer that was last seen at some
    time. *)
Definition bound_upstream_state : ConnectionState :=
  set_buffers
    {[ "#kiwi" := {| IrcBuffer.name := "#kiwi"; IrcBuffer.key := "";
                     IrcBuffer.joined := true; IrcBuffer.topic := "hello";
                     IrcBuffer.isChannel := true;
                     IrcBuffer.lastSeen := 1700000000 |} ]}
    (loadConnectionInfo (Some Demo.freenode) None (ConnectionState_new "u1")).


(** The diagnostic line [run] logs on entry. *)
Definition entry_log (msg : Msg) (c : Con) : Event :=
  ELogState (toUpperCase (command msg)) (netRegistered (state c))
    (capping (tempData (state c))) (reg_state (tempData (state c)))
    (source msg).

(** The connection after the CAP gate queued [msg]. *)
Definition queued (msg : Msg) (c : Con) : Con :=
  let t := tempData (state c) in
  let s' := set_tempData
              (mkTemp (capping t) (reg_state t)
                 (Some (default [] (reg_queue t) ++ [to1459 msg])%list))
              (state c) in
  mkCon s' (upstream c) (conDict c) (save Helpers_now s' (db c))
    (trace c ++ [entry_log msg c]).

(** The CAP gate applies to [msg]: its verb is not CAP nor one of the
    unconditional verbs, and it was not taken from the queue. *)
Definition gated (msg : Msg) : Prop :=
  let cmd := toUpperCase (command msg) in
  cmd ≠ "CAP" ∧ source msg ≠ Some "queue"
  ∧ cmd ≠ "DEB" ∧ cmd ≠ "RELOAD" ∧ cmd ≠ "PING".

(** Modelled from the spec: the loop that feeds a connection's messages to
    [run] is not in these sources; each message completes before the next
    is dispatched. *)
Fixpoint run_each (fuel : nat) (msgs : list Msg) : M (list Ret) :=
  match msgs with
  | [] => ret []
  | msg :: rest =>
      let* r := run fuel msg in
      let* rs := run_each fuel rest in
      ret (r :: rs)
  end.

(** A client in the middle of CAP negotiation (after CAP LS 302). *)
Definition negotiating : Con :=
  with_state
    (set_tempData (mkTemp (Some "302") (Some (RegState.mk "" "" "")) None)
       (ConnectionState_new "c1"))
    Demo.fresh.

(** The credential lookup [maybeProcessRegistration] makes for the groups
    of a matched PASS value: [authUserNetwork] when a network name was
    parsed, [authUser] otherwise.  It yields the ids to record. *)
Definition credential_lookup (m1 : string) (m2 m3 : option string)
  : option (Z * option Z) :=
  let username := or_str m1 "" in
  let networkName := or_str (default "" m2) "" in
  let password := or_str (default "" m3) "" in
  if truthy_str networkName then
    match authUserNetwork username password networkName with
    | Some network => Some (Network.user_id network, Some (Network.id network))
    | None => None
    end
  else
    match authUser username password with
    | Some user => Some (User.id user, None)
    | None => None
    end.

(** The condition under which [maybeProcessRegistration] goes on. *)
Definition ready_to_register (regState : RegState.t) (t : TempData) : bool :=
  truthy_str (RegState.nick regState)
  && truthy_str (RegState.user regState)
  && truthy_str (RegState.pass regState)
  && negb (truthy_opt (capping t)).

(** A client that sent NICK, USER and PASS with the given values. *)
Definition with_reg_state (n u p : string) (cap : option string) : Con :=
  with_state
    (set_tempData (mkTemp cap (Some (RegState.mk n u p)) None)
       (ConnectionState_new "c1"))
    Demo.fresh.

(** The copies of a message written to the other clients of upstream
    [u]: one per linked client other than the sender, from the upstream's
    current nick. *)
Definition echo_to_siblings (u : ConnectionState) (sender : string)
    (verb : string) (msg : Msg) : list Event :=
  map (λ id, EClientWriteMsgFrom id (nick u) [VStr verb; param msg 0; param msg 1])
      (filter (λ id, id ≠ sender) (linkedIncomingConIds u)).

(** An authenticated client [c1] attached to the upstream [u1], which a
    second client [c2] shares. *)
Definition attached : Con :=
  mkCon (set_authUserId 4 (ConnectionState_new "c1")) (Some "u1")
    [set_linkedIncomingConIds ["c1"; "c2"] (ConnectionState_new "u1")] ∅ [].

(** [reg.state] is set to its initial value when it is absent. *)
Definition ensure_reg_state (c : Con) : Con :=
  match reg_state (tempData (state c)) with
  | Some _ => c
  | None =>
      let s' := set_tempData
                  (mkTemp (capping (tempData (state c)))
                     (Some (RegState.mk "" "" ""))
                     (reg_queue (tempData (state c))))
                  (state c) in
      with_db (save Helpers_now s' (db c)) (with_state s' c)
  end.

(** The CAP gate of [run] catches the message. *)
Definition cap_gate (msg : Msg) (c : Con) : bool :=
  truthy_opt (capping (tempData (state c)))
  && negb (String.eqb (toUpperCase (command msg)) "CAP")
  && negb (is_queue (source msg)).

(** The requested capabilities that are available. *)
Definition matched_caps (msg : Msg) (c : Con) : list string :=
  List.filter (λ cap, includes (available_caps c) cap)
              (split " " (mParam msg 1 "")).

(** A registered client of user 4; the registry holds the upstream of its
    network (id 9), which has the joined buffer [#kiwi]. *)
Definition registered : Con :=
  mkCon (set_netRegistered true (set_authUserId 4 (ConnectionState_new "c1")))
    (Some "u1")
    [set_authNetworkId 9 (set_authUserId 4 bound_upstream_state)] ∅ [].

(** The same client when no upstream is in the registry. *)
Definition registered_alone : Con :=
  mkCon (set_netRegistered true (set_authUserId 4 (ConnectionState_new "c1")))
    None [] ∅ [].

(** The lines waiting in [reg.queue]. *)
Definition queue_of (c : Con) : list string :=
  default [] (reg_queue (tempData (state c))).

(** The verbs [run] was entered with for messages tagged [source=queue],
    in the order of the entries: read off the diagnostic line [run] logs
    first. *)
Definition from_queue (e : Event) : option string :=
  match e with
  | ELogState cmd _ _ _ src => if is_queue src then Some cmd else None
  | _ => None
  end.

(** The verbs of the entries of [run] from the queue recorded in [t]. *)
Definition dispatched (t : list Event) : list string := omap from_queue t.

(** A computation is quiet when it returns or throws, leaves [reg.queue]
    alone and does not enter [run]. *)
Definition quiet {A} (m : M A) : Prop :=
  ∀ c, match m c with
       | Ok _ c' | Throw _ c' =>
           reg_queue (tempData (state c')) = reg_queue (tempData (state c))
           ∧ dispatched (trace c') = dispatched (trace c)
       | OutOfFuel => False
       end.

(** The verb a queued line is replayed with; [None] for a line the
    drain skips (an empty line, or one the parser rejects). *)
Definition replay_verb (line : string) : option string :=
  match ircLineParser line with
  | Some msg => if truthy_str line then Some (toUpperCase (command msg)) else None
  | None => None
  end.

(** The verbs the lines of [q] are replayed with, in order. *)
Definition replayed (q : list string) : list string := omap replay_verb q.

(** From [c] to [c'] a prefix of the queue was consumed, and [run] was
    entered from the queue for exactly its replayable lines, in order. *)
Definition drained_to (c c' : Con) : Prop :=
  ∃ consumed,
    queue_of c = (consumed ++ queue_of c')%list
    ∧ dispatched (trace c') = (dispatched (trace c) ++ replayed consumed)%list.

(** [steps n m]: [m] only drains, and does not run out of fuel when [n]
    is at least twice the length of the queue plus one. *)
Definition steps (n : nat) {A} (m : M A) : Prop :=
  ∀ c, match m c with
       | Ok _ c' | Throw _ c' => drained_to c c'
       | OutOfFuel => ¬ (2 * List.length (queue_of c) + 1 ≤ n)%nat
       end.

(** The connection after the loop took the first line off the queue. *)
Definition shifted (rest : list string) (c : Con) : Con :=
  let s' := set_tempData
              (mkTemp (capping (tempData (state c)))
                 (reg_state (tempData (state c))) (Some rest))
              (state c) in
  with_db (save Helpers_now s' (db c)) (with_state s' c).

(** A client in CAP negotiation with the given lines waiting. *)
Definition negotiating_with (q : list string) : Con :=
  with_state
    (set_tempData (mkTemp (Some "302") (Some (RegState.mk "" "" "")) (Some q))
       (ConnectionState_new "c1"))
    Demo.fresh.

(** [r'] is the result [r], unless [r] ran out of fuel. *)
Definition res_le {A} (r r' : Res A) : Prop := r = OutOfFuel ∨ r = r'.

(** [m'] agrees with [m] wherever [m] does not run out of fuel. *)
Definition M_le {A} (m m' : M A) : Prop := ∀ c, res_le (m c) (m' c).

End Vocabulary.

(** * Further vocabulary

    Notions used by the further properties at the end. *)

Section MoreVocabulary.
Context {E : Externals}.


(** [tempSet] on each entry in turn. *)
Definition tempSet_each (now : Z) (entries : list TempEntry)
    (s : ConnectionState) (db : Db) : ConnectionState * Db :=
  fold_left (λ acc e, tempSet now e (fst acc) (snd acc)) entries (s, db).


(** The verbs that have a handler in the table [commands]. *)
Definition handled_verbs : list string :=
  ["CAP"; "PASS"; "USER"; "NOTICE"; "PRIVMSG"; "NICK"; "PING"; "QUIT";
   "BOUNCER"; "KILL"; "RELOAD"; "DEB"].

(** The connection after [run] logged its diagnostic line for [msg]. *)
Definition entered (msg : Msg) (c : Con) : Con :=
  with_trace (trace c ++ [entry_log msg c]) c.

(** Every character of [s] satisfies [p]. *)
Fixpoint every_char (p : ascii → bool) (s : string) : bool :=
  match s with
  | EmptyString => true
  | String c s' => p c && every_char p s'
  end.

(** A slash or a colon, the characters that separate the fields of a
    PASS value. *)
Definition is_separator (c : ascii) : bool := negb (not_slash_colon c).

(** A character that the dot of a regular expression matches and that
    is a whole character by itself: a 7-bit one other than the line
    terminators. *)
Definition plain_char (c : ascii) : bool :=
  not_line_terminator c && (N_of_ascii c <? 128)%N.

(** [s] is empty or starts with a character that fails [p]. *)
Definition stops (p : ascii → bool) (s : string) : Prop :=
  match s with
  | EmptyString => True
  | String c _ => p c = false
  end.

(** The connection a handler leaves when it returns. *)
Definition outcome {A} (r : Res A) : option Con :=
  match r with
  | Ok _ c => Some c
  | _ => None
  end.

(** The calls [maybeProcessRegistration] makes for a client that logged
    in to [network]: the upstream is made, opened or attached to. *)
Definition attach_events (network : Network.t) (c : Con) : list Event :=
  match get_upstream c with
  | None => [EMakeUpstream network; EWriteStatus "Connecting to the network.."]
  | Some u =>
      if connected u then
        EWriteStatus "Attaching you to the network"
        :: (if netRegistered u then [ERegisterClient] else [])
      else [EWriteStatus "Connecting to the network.."; EUpstreamOpen (conId u)]
  end.

(** The connection after a login was accepted: the ids are recorded by
    [ids], [reg.state] is removed, the state is saved and the calls
    [events] were made. *)
Definition logged_in (ids : ConnectionState → ConnectionState)
    (events : list Event) (c : Con) : Con :=
  let s1 := ids (state c) in
  let s2 := set_tempData
              (mkTemp (capping (tempData s1)) None (reg_queue (tempData s1))) s1 in
  mkCon s2 (upstream c) (conDict c) (save Helpers_now s2 (db c))
    (trace c ++ events).

(** The sub-commands of BOUNCER that name a network. *)
Definition network_subcommands : list string :=
  ["CONNECT"; "DISCONNECT"; "LISTBUFFERS"; "DELBUFFER"].

(** The error reply of a BOUNCER sub-command. *)
Definition bouncer_error (sub code : string) : Event :=
  EWriteMsg [VStr "BOUNCER"; VStr (toLowerCase sub); VStr "*"; VStr code].


(** The reply that ends a BOUNCER sub-command about [network]. *)
Definition rpl_ok (sub : string) (network : Network.t) (args : list string) : Event :=
  EWriteMsg ([VStr "BOUNCER"; VStr sub; VStr (Network.name network)]
             ++ map VStr args ++ [VStr "RPL_OK"])%list.

(** The fields of the client's state that [run] and the handlers never
    assign.  (What they do assign: [caps], [nick], [authUserId],
    [authNetworkId] and [tempData]; [netRegistered] is left to
    [registerClient], which is not part of these sources.) *)
Definition unassigned_fields (s : ConnectionState) :=
  (conId s, loaded s, serverPrefix s, registrationLines s, isupports s,
   buffers s, account s, username s, realname s, password s, host s, port s,
   tls s, tlsverify s, bindHost s, type s, connected s, sasl s,
   receivedMotd s, authNetworkName s, authAdmin s, linkedIncomingConIds s,
   logging s).

(** From [c] to [c'] only the assignable fields of the client's state
    changed, only the client's own row of the table was written, and
    calls were only added to the record. *)
Definition own_row_only (c c' : Con) : Prop :=
  unassigned_fields (state c') = unassigned_fields (state c)
  ∧ (∀ k, k ≠ conId (state c) → db c' !! k = db c !! k)
  ∧ trace c `prefix_of` trace c'.

(** [m] relates the connection it starts from to the one it leaves by
    [R]. *)
Definition keeps {A} (R : Con → Con → Prop) (m : M A) : Prop :=
  ∀ c, match m c with
       | Ok _ c' | Throw _ c' => R c c'
       | OutOfFuel => True
       end.


(** The connection on which [run] calls the handler of a CAP message. *)
Definition cap_entry (msg : Msg) (c : Con) : Con :=
  if netRegistered (state c) then entered msg c
  else ensure_reg_state (entered msg c).

(** The verbs [run] executes for a client that is not registered. *)
Definition served_before_registration : list string :=
  ["USER"; "NICK"; "PASS"; "CAP"; "DEB"; "RELOAD"; "PING"].

(** A queued line that the drain skips, or whose verb [run] refuses
    before registration. *)
Definition refused_line (line : string) : Prop :=
  match ircLineParser line with
  | Some msg =>
      line ≠ "" → toUpperCase (command msg) ∉ served_before_registration
  | None => True
  end.

(** A diagnostic line of [run]. *)
Definition is_entry_log (e : Event) : Prop :=
  match e with
  | ELogState _ _ _ _ _ => True
  | _ => False
  end.

(** The connection after the queue was emptied with nothing executed:
    [reg.queue] is removed and saved, and [logs] were written. *)
Definition queue_dropped (logs : list Event) (c : Con) : Con :=
  let s' := set_tempData
              (mkTemp (capping (tempData (state c)))
                 (reg_state (tempData (state c))) None)
              (state c) in
  mkCon s' (upstream c) (conDict c) (save Helpers_now s' (db c))
    (trace c ++ logs).

End MoreVocabulary.

(** * Properties *)

(** ** The buffer map *)

Lemma buffers_set_buffers v s : buffers (set_buffers v s) = v.
Proof. reflexivity. Qed.

(** In that form, looking a stored buffer up by its own name finds it. *)
Lemma buffers_inv_lookup s k b :
  buffers_inv s → buffers s !! k = Some b →
  buffers s !! toLowerCase (IrcBuffer.name b) = Some b.
Proof. intros Hinv Hk. by rewrite <- (Hinv k b Hk). Qed.

Lemma buffers_inv_insert s b :
  buffers_inv s →
  buffers_inv (set_buffers (<[toLowerCase (IrcBuffer.name b) := b]> (buffers s)) s).
Proof.
  intros Hinv k b'. rewrite buffers_set_buffers, lookup_insert.
  case_decide as Hk.
  - intros [= <-]. by subst k.
  - apply Hinv.
Qed.

Lemma buffers_inv_delete s k0 :
  buffers_inv s → buffers_inv (set_buffers (delete k0 (buffers s)) s).
Proof.
  intros Hinv k b. rewrite buffers_set_buffers, lookup_delete.
  case_decide; [done | apply Hinv].
Qed.

Lemma addBuffer_inv chan up s :
  buffers_inv s → buffers_inv (snd (addBuffer chan up s)).
Proof. intros Hinv. unfold addBuffer. simpl. by apply buffers_inv_insert. Qed.

Lemma delBuffer_inv name s : buffers_inv s → buffers_inv (delBuffer name s).
Proof. apply buffers_inv_delete. Qed.

Lemma getOrAddBuffer_inv now name up s db :
  buffers_inv s → buffers_inv (snd (fst (getOrAddBuffer now name up s db))).
Proof.
  intros Hinv. unfold getOrAddBuffer.
  destruct (getBuffer name s); simpl; [done |].
  by apply buffers_inv_insert.
Qed.

Lemma renameBuffer_inv oldName newName s :
  buffers_inv s → buffers_inv (snd (renameBuffer oldName newName s)).
Proof.
  intros Hinv. unfold renameBuffer.
  destruct (getBuffer oldName s) as [b|]; [|done].
  destruct (getBuffer newName s); [done |]. simpl.
  intros k b'. rewrite buffers_set_buffers, lookup_insert.
  case_decide as Hk.
  - intros [= <-]. by subst k.
  - rewrite lookup_delete. case_decide; [done | apply Hinv].
Qed.

(** A new state has no buffers, so it is in that form. *)
Lemma buffers_inv_new id : buffers_inv (ConnectionState_new id).
Proof. intros k b. simpl. by rewrite lookup_empty. Qed.

(** C7 (as amended): the buffer operations keep every key of [buffers]
    equal to the lowercase name of the buffer stored under it, so that
    [buffers[lowercase(B.name)]] is [B] for every stored buffer [B].
    [renameBuffer(old, new)] returns nothing and changes nothing when no
    buffer exists under the old name; when one exists and a buffer also
    exists under the new name it returns that existing buffer and changes
    nothing; otherwise it removes the entry at [lowercase(old)], sets the
    buffer's name to [new] and stores it at [lowercase(new)], leaving all
    other entries as they were. *)
Theorem buffer_ops_keep_lowercase_keys (s : ConnectionState) :
  buffers_inv s →
  (∀ k b, buffers s !! k = Some b →
          buffers s !! toLowerCase (IrcBuffer.name b) = Some b) ∧
  (∀ chan up, buffers_inv (snd (addBuffer chan up s))) ∧
  (∀ now name up db, buffers_inv (snd (fst (getOrAddBuffer now name up s db)))) ∧
  (∀ name, buffers_inv (delBuffer name s)) ∧
  (∀ oldName newName,
     let r := renameBuffer oldName newName s in
     buffers_inv (snd r) ∧
     match getBuffer oldName s, getBuffer newName s with
     | None, _ => r = (None, s)
     | Some _, Some existing => r = (Some existing, s)
     | Some b, None =>
         let b' := IrcBuffer.set_name newName b in
         r = (Some b',
              set_buffers (<[toLowerCase newName := b']>
                             (delete (toLowerCase oldName) (buffers s))) s) ∧
         getBuffer newName (snd r) = Some b' ∧
         getBuffer oldName (snd r) = None ∧
         (∀ k, k ≠ toLowerCase oldName → k ≠ toLowerCase newName →
               buffers (snd r) !! k = buffers s !! k)
     end).
Proof.
  intros Hinv. split; [| split; [| split; [| split]]].
  - intros k b. by apply buffers_inv_lookup.
  - intros. by apply addBuffer_inv.
  - intros. by apply getOrAddBuffer_inv.
  - intros. by apply delBuffer_inv.
  - intros oldName newName r. split; [by apply renameBuffer_inv |].
    subst r. unfold renameBuffer.
    destruct (getBuffer oldName s) as [b|] eqn:Hold; [|done].
    destruct (getBuffer newName s) as [nb|] eqn:Hnew; [done |].
    cbv zeta. simpl snd. unfold getBuffer in *.
    rewrite buffers_set_buffers.
    assert (toLowerCase newName ≠ toLowerCase oldName) as Hne
      by (intros Heq; rewrite Heq in Hnew; congruence).
    split; [done |]. split; [by rewrite lookup_insert_eq |].
    split.
    + rewrite lookup_insert_ne by done. by rewrite lookup_delete_eq.
    + intros k Hk1 Hk2. rewrite lookup_insert_ne by done.
      by rewrite lookup_delete_ne.
Qed.

Lemma buffer_ops_keep_lowercase_keys_witness :
  let s := snd (addBuffer (ChanName "#Kiwi") None (ConnectionState_new "u1")) in
  buffers_inv s ∧
  buffers_inv (snd (renameBuffer "#KIWI" "#Irc" s)) ∧
  getBuffer "#irc" (snd (renameBuffer "#KIWI" "#Irc" s))
    = Some (IrcBuffer.set_name "#Irc" (IrcBuffer.new "#Kiwi" None)).
Proof.
  intros s.
  assert (buffers_inv s) as Hs
    by (apply addBuffer_inv, buffers_inv_new).
  split; [exact Hs |].
  destruct (buffer_ops_keep_lowercase_keys s Hs) as (_ & _ & _ & _ & Hren).
  destruct (Hren "#KIWI" "#Irc") as [Hinv _].
  split; [exact Hinv |].
  vm_compute. reflexivity.
Defined.

(** C7 as stated fails when no buffer exists under the old name: a buffer
    exists at the new name, and [renameBuffer] returns nothing instead of
    that buffer. *)
Lemma renameBuffer_without_old_buffer :
  let s := snd (addBuffer (ChanName "#b") None (ConnectionState_new "u1")) in
  getBuffer "#b" s = Some (IrcBuffer.new "#b" None) ∧
  getBuffer "#a" s = None ∧
  fst (renameBuffer "#a" "#b" s) = None.
Proof. vm_compute. done. Qed.

(** ** save and load *)

(** C6: [save()] followed by [load()] does not give the saved record back:
    [save] writes the empty string to the [bind_host] column whatever
    [bindHost] holds, and [load] rebuilds each buffer with
    [IrcBuffer.fromObj], which leaves [lastSeen] at 0.  Evaluated on a state
    with a bind host and a buffer that was seen; loading into a new state
    object of the same [conId] gives the same record. *)
Theorem save_load_loses_bindHost_and_lastSeen :
  let s := bound_upstream_state in
  let s' := load s (save 0 s ∅) in
  buffers_inv s ∧
  bindHost s = "192.0.2.7" ∧
  bindHost s' = "" ∧
  IrcBuffer.lastSeen <$> getBuffer "#kiwi" s = Some 1700000000 ∧
  IrcBuffer.lastSeen <$> getBuffer "#kiwi" s' = Some 0 ∧
  s' ≠ s ∧
  load (ConnectionState_new (conId s)) (save 0 s ∅) = s'.
Proof.
  intros s s'. split.
  - intros k b. unfold s, bound_upstream_state.
    rewrite buffers_set_buffers, lookup_singleton.
    case_decide; [| done]. intros [= <-]. by subst k.
  - assert (bindHost s' = "") as Hb by (vm_compute; reflexivity).
    repeat split; try (vm_compute; reflexivity).
    intros Heq. rewrite Heq in Hb. vm_compute in Hb. discriminate.
Qed.

Lemma or_str_empty (a : string) : or_str a "" = a.
Proof. by destruct a. Qed.


Lemma includes_false (l : list string) (x : string) : x ∉ l → includes l x = false.
Proof.
  intros Hx. unfold includes. induction l as [| y l IH]; [done |]. simpl.
  apply not_elem_of_cons in Hx as [Hne Hx].
  rewrite (proj2 (String.eqb_neq x y)) by (intros ->; done). by apply IH.
Qed.




(** ** The dispatcher *)

Lemma eqb_false (a b : string) : a ≠ b → String.eqb a b = false.
Proof. apply String.eqb_neq. Qed.

Lemma is_queue_false (src : option string) :
  src ≠ Some "queue" → is_queue src = false.
Proof.
  destruct src as [s|]; [| done]. simpl. intros Hs.
  apply eqb_false. congruence.
Qed.

Lemma is_queue_true (src : option string) :
  is_queue src = true → src = Some "queue".
Proof.
  destruct src as [s|]; [| done]. simpl. intros Hs.
  by apply String.eqb_eq in Hs as ->.
Qed.

Section Dispatcher.
Context {E : Externals}.

Lemma run_S (fuel : nat) (msg : Msg) :
  run (S fuel) msg = run_body (processConQueue fuel) msg.
Proof. reflexivity. Qed.

Lemma run_queues_when_capping (fuel : nat) (msg : Msg) (c : Con) :
  truthy_opt (capping (tempData (state c))) = true →
  gated msg →
  run (S fuel) msg c = Ok (RBool false) (queued msg c).
Proof.
  intros Hcap (Hnc & Hsrc & Hdeb & Hrel & Hping).
  rewrite run_S. unfold run_body, run_gates, run_capping.
  rewrite (eqb_false _ _ Hdeb), (eqb_false _ _ Hrel), (eqb_false _ _ Hping).
  unfold bind, log_state, emit, gets. simpl.
  rewrite Hcap, (eqb_false _ _ Hnc), (is_queue_false _ Hsrc).
  reflexivity.
Qed.

Lemma run_each_queues_when_capping (fuel : nat) (msgs : list Msg) (c : Con) :
  truthy_opt (capping (tempData (state c))) = true →
  Forall gated msgs →
  ∃ c',
    run_each (S fuel) msgs c = Ok (map (λ _, RBool false) msgs) c'
    ∧ default [] (reg_queue (tempData (state c')))
      = (default [] (reg_queue (tempData (state c))) ++ map to1459 msgs)%list
    ∧ truthy_opt (capping (tempData (state c'))) = true.
Proof.
  intros Hcap Hall. revert c Hcap.
  induction Hall as [| msg rest Hmsg _ IH]; intros c Hcap.
  - exists c. simpl. by rewrite app_nil_r.
  - destruct (IH (queued msg c) Hcap) as (c' & Hrun & Hq & Hcap').
    exists c'. cbn [run_each]. unfold bind at 1.
    rewrite (run_queues_when_capping fuel msg c Hcap Hmsg).
    unfold bind at 1. rewrite Hrun. split; [reflexivity |].
    split; [| exact Hcap'].
    rewrite Hq. simpl. by rewrite <- app_assoc.
Qed.

(** C1: while [capping] is set, a message whose verb is not CAP (nor one
    of DEB, RELOAD, PING) and that does not come from the queue is not
    executed: [run] appends its wire line to the end of [reg.queue],
    saves, and returns false.  Nothing else changes (the only call made
    is the diagnostic log of [run]); [capping] stays set, so this holds
    for every such message that follows: a sequence of them ends up in
    the queue in arrival order, behind what was there. *)
Theorem cap_gate_queues_message (fuel : nat) (msg : Msg) (c : Con) :
  let cmd := toUpperCase (command msg) in
  truthy_opt (capping (tempData (state c))) = true →
  cmd ≠ "CAP" →
  source msg ≠ Some "queue" →
  cmd ≠ "DEB" → cmd ≠ "RELOAD" → cmd ≠ "PING" →
  run (S fuel) msg c = Ok (RBool false) (queued msg c)
  ∧ reg_queue (tempData (state (queued msg c)))
    = Some (default [] (reg_queue (tempData (state c))) ++ [to1459 msg])%list
  ∧ trace (queued msg c) = (trace c ++ [entry_log msg c])%list
  ∧ truthy_opt (capping (tempData (state (queued msg c)))) = true
  ∧ db (queued msg c) !! conId (state c)
    = Some (row_of Helpers_now (state (queued msg c)))
  ∧ (∀ more,
       Forall gated more →
       ∃ c',
         run_each (S fuel) (msg :: more) c
           = Ok (map (λ _, RBool false) (msg :: more)) c'
         ∧ default [] (reg_queue (tempData (state c')))
           = (default [] (reg_queue (tempData (state c)))
              ++ map to1459 (msg :: more))%list).
Proof.
  intros cmd Hcap Hnc Hsrc Hdeb Hrel Hping.
  assert (gated msg) as Hmsg by done.
  split; [by apply run_queues_when_capping |].
  split; [reflexivity |]. split; [reflexivity |]. split; [exact Hcap |].
  split; [simpl; unfold save; by rewrite lookup_insert_eq |].
  intros more Hmore.
  destruct (run_each_queues_when_capping fuel (msg :: more) c Hcap)
    as (c' & Hrun & Hq & _); [by constructor |].
  by exists c'.
Qed.
End Dispatcher.

Lemma cap_gate_queues_message_witness :
  let join := mkMsg "join" ["#kiwi"] None in
  let privmsg := mkMsg "PRIVMSG" ["#kiwi"; "hi"] None in
  run (E := Demo.externals) 1 join negotiating
    = Ok (RBool false) (queued (E := Demo.externals) join negotiating)
  ∧ reg_queue (tempData (state (queued (E := Demo.externals) join negotiating)))
    = Some ["join #kiwi"]
  ∧ ∃ c',
      run_each (E := Demo.externals) 1 [join; privmsg] negotiating
        = Ok [RBool false; RBool false] c'
      ∧ default [] (reg_queue (tempData (state c')))
        = ["join #kiwi"; "PRIVMSG #kiwi hi"].
Proof.
  intros join privmsg.
  destruct (cap_gate_queues_message (E := Demo.externals) 0 join negotiating)
    as (Hrun & Hq & _ & _ & _ & Hseq); try (vm_compute; congruence).
  split; [exact Hrun |]. split; [exact Hq |].
  destruct (Hseq [privmsg]) as (c' & Heach & Hqueue).
  - constructor; [| constructor].
    repeat split; vm_compute; congruence.
  - exists c'. split; [exact Heach | exact Hqueue].
Defined.

(** ** Registration *)

Section Registration.
Context {E : Externals}.

(** C3: [maybeProcessRegistration] returns at once, leaving the connection
    as it is, unless the nick, user and pass of [reg.state] are all
    non-empty and [capping] is unset.  When it goes on and the credential
    lookup returns null, it writes [ERROR :Invalid password], closes the
    connection and returns false; the state, and so [authUserId] and
    [authNetworkId], is not changed. *)
Theorem maybeProcessRegistration_gate_and_failure (c : Con) (regState : RegState.t) :
  reg_state (tempData (state c)) = Some regState →
  (ready_to_register regState (tempData (state c)) = false →
     maybeProcessRegistration c = Ok RUndef c) ∧
  (∀ m1 m2 m3,
     ready_to_register regState (tempData (state c)) = true →
     pass_match (RegState.pass regState) = Some (m1, m2, m3) →
     credential_lookup m1 m2 m3 = None →
     maybeProcessRegistration c
       = Ok (RBool false)
            (with_trace
               (trace c ++ [EWriteMsg [VStr "ERROR"; VStr "Invalid password"]; EClose])
               c)).
Proof.
  intros Hreg. unfold ready_to_register. split.
  - intros Hnot. unfold maybeProcessRegistration, bind, gets.
    rewrite Hreg.
    destruct (truthy_str (RegState.nick regState)),
             (truthy_str (RegState.user regState)),
             (truthy_str (RegState.pass regState)),
             (truthy_opt (capping (tempData (state c))));
      simpl in *; done.
  - intros m1 m2 m3 Hready Hmatch Hlookup.
    unfold maybeProcessRegistration, bind, gets.
    rewrite Hreg, Hmatch.
    destruct (truthy_str (RegState.nick regState)),
             (truthy_str (RegState.user regState)),
             (truthy_str (RegState.pass regState)),
             (truthy_opt (capping (tempData (state c))));
      simpl in Hready; try done.
    simpl. unfold credential_lookup in Hlookup.
    assert (invalid_password c
            = Ok (RBool false)
                (with_trace
                   (trace c ++ [EWriteMsg [VStr "ERROR"; VStr "Invalid password"]; EClose])
                   c)) as Hinv.
    { unfold invalid_password, bind, writeMsg, close, emit, ret, with_trace.
      simpl. by rewrite <- app_assoc. }
    destruct (truthy_str (or_str (default "" m2) "")).
    + destruct (authUserNetwork _ _ _); [done | exact Hinv].
    + destruct (authUser _ _); [done | exact Hinv].
Qed.
End Registration.

Lemma maybeProcessRegistration_gate_and_failure_witness :
  maybeProcessRegistration (E := Demo.externals)
      (with_reg_state "bob" "bob" "alice/freenode:s3cret" (Some "302"))
    = Ok RUndef (with_reg_state "bob" "bob" "alice/freenode:s3cret" (Some "302")) ∧
  maybeProcessRegistration (E := Demo.externals) (with_reg_state "n" "u" "xxx" None)
    = Ok (RBool false)
         (with_trace [EWriteMsg [VStr "ERROR"; VStr "Invalid password"]; EClose]
            (with_reg_state "n" "u" "xxx" None)).
Proof.
  split.
  - apply (proj1 (maybeProcessRegistration_gate_and_failure (E := Demo.externals)
                    (with_reg_state "bob" "bob" "alice/freenode:s3cret" (Some "302"))
                    (RegState.mk "bob" "bob" "alice/freenode:s3cret") eq_refl)).
    reflexivity.
  - apply (proj2 (maybeProcessRegistration_gate_and_failure (E := Demo.externals)
                    (with_reg_state "n" "u" "xxx" None)
                    (RegState.mk "n" "u" "xxx") eq_refl)
             "xxx" None None); reflexivity.
Defined.

(** Without [reg.state] the function reads a field of [undefined]: it
    throws, and the connection is as it was. *)
Lemma maybeProcessRegistration_without_reg_state {E : Externals} (c : Con) :
  reg_state (tempData (state c)) = None →
  ∃ e, maybeProcessRegistration c = Throw e c.
Proof.
  intros Hreg. unfold maybeProcessRegistration, bind, gets. rewrite Hreg.
  by eexists.
Qed.

(** ** PRIVMSG to *bnc *)

Section Privmsg.
Context {E : Externals}.

(** C10: on an authenticated connection with an upstream, a PRIVMSG to
    [*bnc] is first echoed to every other client of that upstream, from
    the upstream's nick; it is then handed to ClientControl and the
    handler returns false.  The message store is not called and the state
    is not changed. *)
Theorem privmsg_to_bnc_is_echoed_then_intercepted (msg : Msg) (c : Con)
    (u : ConnectionState) :
  get_upstream c = Some u →
  param msg 0 = VStr "*bnc" →
  authUserId (state c) ≠ 0 →
  commands_PRIVMSG msg c
    = Ok (RBool false)
         (with_trace
            (trace c ++ echo_to_siblings u (conId (state c)) "PRIVMSG" msg
                     ++ [EClientControl msg])%list
            c) ∧
  (∀ uid nid m,
     EStoreMessage uid nid m ∉
       (echo_to_siblings u (conId (state c)) "PRIVMSG" msg ++ [EClientControl msg])%list) ∧
  (∀ id from args,
     EClientWriteMsgFrom id from args ∈ echo_to_siblings u (conId (state c)) "PRIVMSG" msg →
     id ≠ conId (state c) ∧ id ∈ linkedIncomingConIds u ∧ from = nick u).
Proof.
  intros Hup Htarget Hauth. split; [| split].
  - unfold commands_PRIVMSG, bind, gets. rewrite Hup.
    unfold forEachClient_writeMsgFrom. simpl. rewrite Htarget.
    unfold truthy_num. rewrite (proj2 (Z.eqb_neq _ _) Hauth). simpl.
    unfold emit, ret, with_trace. simpl.
    unfold echo_to_siblings. rewrite Htarget. by rewrite <- app_assoc.
  - intros uid nid m Hin. apply elem_of_app in Hin as [Hin | Hin].
    + unfold echo_to_siblings in Hin.
      apply list_elem_of_fmap in Hin as (id & Heq & _). discriminate.
    + apply list_elem_of_singleton in Hin. discriminate.
  - intros id from args Hin. unfold echo_to_siblings in Hin.
    apply list_elem_of_fmap in Hin as (id' & Heq & Hin).
    injection Heq as -> -> _.
    apply list_elem_of_filter in Hin as [Hne Hin]. done.
Qed.
End Privmsg.

Lemma privmsg_to_bnc_is_echoed_then_intercepted_witness :
  let msg := mkMsg "PRIVMSG" ["*bnc"; "listnetworks"] None in
  commands_PRIVMSG msg attached
    = Ok (RBool false)
         (with_trace
            [EClientWriteMsgFrom "c2" (VStr "unknown-user")
               [VStr "PRIVMSG"; VStr "*bnc"; VStr "listnetworks"];
             EClientControl msg]
            attached).
Proof.
  intros msg.
  apply (proj1 (privmsg_to_bnc_is_echoed_then_intercepted msg attached
                  (set_linkedIncomingConIds ["c1"; "c2"] (ConnectionState_new "u1"))
                  eq_refl eq_refl ltac:(vm_compute; congruence))).
Defined.

(** ** The pre-registration gate *)

Section PreRegistration.
Context {E : Externals}.

(** C2 (as amended): for a message on a connection with
    [netRegistered = false] that the CAP gate does not catch and whose
    verb is not one of DEB, RELOAD and PING (those are executed whatever
    the state): if the verb is not one of USER, NICK, PASS, CAP, [run]
    returns false and nothing is executed or written (only its diagnostic
    log is made); otherwise [run] sets [reg.state] to empty nick, user
    and pass when it is absent, executes the verb's handler, and when
    the handler returns calls [maybeProcessRegistration] and returns
    false. *)
Theorem pre_registration_gate (fuel : nat) (msg : Msg) (c : Con) :
  let cmd := toUpperCase (command msg) in
  let c0 := with_trace (trace c ++ [entry_log msg c]) c in
  netRegistered (state c) = false →
  cap_gate msg c = false →
  cmd ≠ "DEB" → cmd ≠ "RELOAD" → cmd ≠ "PING" →
  (includes preRegisterCommands cmd = false →
     run (S fuel) msg c = Ok (RBool false) c0) ∧
  (includes preRegisterCommands cmd = true →
     ∃ handler,
       commands (processConQueue fuel) cmd = Some handler ∧
       is_Some (reg_state (tempData (state (ensure_reg_state c0)))) ∧
       run (S fuel) msg c
         = match handler msg (ensure_reg_state c0) with
           | Ok _ c2 =>
               match maybeProcessRegistration c2 with
               | Ok _ c3 => Ok (RBool false) c3
               | Throw e c3 => Throw e c3
               | OutOfFuel => OutOfFuel
               end
           | Throw e c2 => Throw e c2
           | OutOfFuel => OutOfFuel
           end).
Proof.
  intros cmd c0 Hreg Hgate Hdeb Hrel Hping.
  assert (run (S fuel) msg c
            = run_unregistered (processConQueue fuel) cmd msg (state c) c0) as Hrun.
  { rewrite run_S. unfold run_body, run_gates. fold cmd.
    rewrite (eqb_false _ _ Hdeb), (eqb_false _ _ Hrel), (eqb_false _ _ Hping).
    cbn [orb].
    unfold bind at 1. unfold log_state, emit.
    unfold bind at 1. unfold gets. cbn [state with_trace].
    unfold cap_gate in Hgate. fold cmd in Hgate. rewrite Hgate.
    subst c0. unfold entry_log. fold cmd. rewrite Hreg.
    cbn [negb]. reflexivity. }
  split.
  - intros Hno. rewrite Hrun. unfold run_unregistered. rewrite Hno. reflexivity.
  - intros Hyes. rewrite Hrun. unfold run_unregistered. rewrite Hyes.
    simpl negb. cbv iota.
    assert (∃ handler, commands (processConQueue fuel) cmd = Some handler)
      as [handler Hh].
    { unfold includes, preRegisterCommands in Hyes. simpl in Hyes.
      unfold commands.
      destruct (String.eqb_spec cmd "CAP"); [by eexists |].
      destruct (String.eqb_spec cmd "PASS"); [by eexists |].
      destruct (String.eqb_spec cmd "USER"); [by eexists |].
      destruct (String.eqb_spec cmd "NICK") as [-> | ?]; [by eexists |].
      done. }
    exists handler. split; [exact Hh |]. split.
    + unfold ensure_reg_state. change (state c0) with (state c).
      destruct (reg_state (tempData (state c))) eqn:Hrs; simpl.
      * rewrite Hrs. by eexists.
      * by eexists.
    + unfold call_command. rewrite Hh.
      unfold bind, ensure_reg_state, state_tempSet, tempSet, ret.
      change (state c0) with (state c).
      destruct (reg_state (tempData (state c))); simpl;
        destruct (handler msg _) as [r c2 | |]; try reflexivity;
        destruct (maybeProcessRegistration c2); reflexivity.
Qed.
End PreRegistration.

(** C2 as stated fails for PING: the verb is not one of USER, NICK, PASS,
    CAP, yet before registration its handler runs and a PONG is written. *)
Lemma ping_is_answered_before_registration :
  let msg := mkMsg "PING" ["tok"] None in
  netRegistered (state Demo.fresh) = false ∧
  cap_gate msg Demo.fresh = false ∧
  includes preRegisterCommands (toUpperCase (command msg)) = false ∧
  run (E := Demo.externals) 1 msg Demo.fresh
    = Ok (RBool false)
         (with_trace
            [entry_log msg Demo.fresh; EWriteMsg [VStr "PONG"; VStr "tok"]]
            Demo.fresh).
Proof. vm_compute. done. Qed.

Lemma pre_registration_gate_witness :
  let join := mkMsg "JOIN" ["#kiwi"] None in
  let user := mkMsg "USER" ["bob"; "0"; "*"; "Bob"] None in
  run (E := Demo.externals) 1 join Demo.fresh
    = Ok (RBool false) (with_trace [entry_log join Demo.fresh] Demo.fresh) ∧
  ∃ handler,
    commands (E := Demo.externals) (processConQueue (E := Demo.externals) 0) "USER" = Some handler ∧
    run (E := Demo.externals) 1 user Demo.fresh
      = match handler user
                (ensure_reg_state (E := Demo.externals)
                   (with_trace [entry_log user Demo.fresh] Demo.fresh)) with
        | Ok _ c2 =>
            match maybeProcessRegistration (E := Demo.externals) c2 with
            | Ok _ c3 => Ok (RBool false) c3
            | Throw e c3 => Throw e c3
            | OutOfFuel => OutOfFuel
            end
        | Throw e c2 => Throw e c2
        | OutOfFuel => OutOfFuel
        end.
Proof.
  intros join user. split.
  - apply (proj1 (pre_registration_gate (E := Demo.externals) 0 join Demo.fresh
                    eq_refl eq_refl
                    ltac:(vm_compute; congruence) ltac:(vm_compute; congruence)
                    ltac:(vm_compute; congruence))).
    reflexivity.
  - destruct (proj2 (pre_registration_gate (E := Demo.externals) 0 user Demo.fresh
                       eq_refl eq_refl
                       ltac:(vm_compute; congruence) ltac:(vm_compute; congruence)
                       ltac:(vm_compute; congruence)) eq_refl)
      as (handler & Hh & _ & Hrun).
    exists handler. split; [exact Hh | exact Hrun].
Defined.

(** ** CAP REQ *)

Section CapReq.
Context {E : Externals}.

(** When [caps] is an array, CAP REQ appends the matched capabilities to
    it, saves, and acknowledges them. *)
Lemma cap_req_on_array (pcq : M unit) (msg : Msg) (c : Con) (items : list string) :
  mParamU msg 0 "" = "REQ" →
  caps (state c) = CapsArray items →
  let s' := set_caps (CapsArray (items ++ matched_caps msg c)) (state c) in
  commands_CAP pcq msg c
    = Ok (RBool false)
         (mkCon s' (upstream c) (conDict c) (save Helpers_now s' (db c))
            (trace c ++ [EWriteMsg [VStr "CAP"; VStr "*"; VStr "ACK";
                                    VStr (join " " (matched_caps msg c))]])).
Proof.
  intros Hreq Hcaps s'. unfold commands_CAP. rewrite Hreq. simpl.
  unfold bind, gets, when, caps_concat, bind, gets, ret. simpl.
  rewrite Hcaps. reflexivity.
Qed.

(** When [caps] is a [Set], as the constructor and [load] make it, the
    call of [concat] throws: nothing is appended, saved or acknowledged. *)
Lemma cap_req_on_set (pcq : M unit) (msg : Msg) (c : Con) (members : list string) :
  mParamU msg 0 "" = "REQ" →
  caps (state c) = CapsSet members →
  commands_CAP pcq msg c
    = Throw "TypeError: con.state.caps.concat is not a function" c.
Proof.
  intros Hreq Hcaps. unfold commands_CAP. rewrite Hreq. simpl.
  unfold bind, gets, when, caps_concat, bind, gets, throw. simpl.
  rewrite Hcaps. reflexivity.
Qed.
End CapReq.

(** C5: on a connection whose state was made by the constructor, CAP REQ
    for two available capabilities and one that is not available throws
    at [caps.concat]: [caps] is still the empty [Set], no acknowledgement
    is written, and the handler does not return. *)
Theorem cap_req_throws_for_new_connection :
  let msg := mkMsg "CAP" ["REQ"; "multi-prefix server-time bogus"] None in
  matched_caps (E := Demo.externals) msg Demo.fresh = ["multi-prefix"; "server-time"] ∧
  ∃ c',
    run (E := Demo.externals) 1 msg Demo.fresh
      = Throw "TypeError: con.state.caps.concat is not a function" c' ∧
    caps (state c') = CapsSet [] ∧
    trace c' = [entry_log msg Demo.fresh].
Proof. vm_compute. split; [done |]. eexists. done. Qed.

Lemma cap_req_on_set_example :
  let msg := mkMsg "CAP" ["REQ"; "multi-prefix"] None in
  commands_CAP (E := Demo.externals) (ret tt) msg Demo.fresh
    = Throw "TypeError: con.state.caps.concat is not a function" Demo.fresh.
Proof.
  intros msg.
  apply (cap_req_on_set (E := Demo.externals) (ret tt) msg Demo.fresh [] eq_refl eq_refl).
Defined.

Lemma cap_req_on_array_example :
  let msg := mkMsg "CAP" ["REQ"; "multi-prefix bogus"] None in
  let c := with_state (set_caps (CapsArray ["server-time"]) (state Demo.fresh)) Demo.fresh in
  ∃ c',
    commands_CAP (E := Demo.externals) (ret tt) msg c = Ok (RBool false) c' ∧
    caps (state c') = CapsArray ["server-time"; "multi-prefix"] ∧
    trace c' = [EWriteMsg [VStr "CAP"; VStr "*"; VStr "ACK"; VStr "multi-prefix"]].
Proof.
  intros msg c. eexists. split.
  - apply (cap_req_on_array (E := Demo.externals) (ret tt) msg c ["server-time"]
             eq_refl eq_refl).
  - split; reflexivity.
Defined.

(** ** BOUNCER *)

(** Whatever the network's [tls] flag, the fourth part of a LISTNETWORKS
    line is the bare string 1, and the host is given twice. *)
Lemma listnetworks_parts_eq (net : Network.t) (netCon : option ConnectionState) :
  listnetworks_parts net netCon
  = [ "network=" +:+ Network.name net;
      "host=" +:+ Network.host net;
      "port=" +:+ pretty (Network.port net);
      "1";
      "host=" +:+ Network.host net;
      match netCon with
      | Some nc => "state=" +:+ (if connected nc then "connected" else "disconnected")
      | None => "state=disconnect"
      end ].
Proof. unfold listnetworks_parts. by destruct (Network.tls net). Qed.

(** LISTNETWORKS writes one line per network of the user, in the order
    the store returns them, and then the terminator line. *)
Lemma listnetworks_lines {E : Externals} (msg : Msg) (c : Con) :
  let uid := authUserId (state c) in
  let line net :=
    EWriteMsg [VStr "BOUNCER"; VStr "listnetworks";
               VStr (join ";" (listnetworks_parts net
                                 (findUsersOutgoingConnection uid (Network.id net) c)))] in
  bouncer_LISTNETWORKS msg c
  = Ok tt
      (with_trace
         (trace c ++ map line (getUserNetworks uid)
                  ++ [EWriteMsg [VStr "BOUNCER"; VStr "listnetwork"; VStr "RPL_OK"]])%list
         c).
Proof.
  intros uid line.
  assert (∀ nets t,
            listnetworks_each uid nets (with_trace t c)
            = Ok tt (with_trace (t ++ map line nets) c)) as Heach.
  { induction nets as [| net rest IH]; intros t; simpl.
    - unfold ret. by rewrite app_nil_r.
    - unfold bind, gets, writeMsg, emit. simpl.
      change (with_trace ?t (with_trace _ c)) with (with_trace t c).
      rewrite IH. by rewrite <- app_assoc. }
  unfold bouncer_LISTNETWORKS, bind, gets. fold uid.
  assert (c = with_trace (trace c) c) as Hc by (by destruct c).
  rewrite Hc at 1. rewrite Heach.
  unfold writeMsg, emit. simpl. by rewrite <- app_assoc.
Qed.

(** C8: for a user owning one network with [tls = false] and no upstream in
    the registry, BOUNCER LISTNETWORKS writes a line that has no [tls=] tag
    (the bare 1 stands in its place) and gives [host=] twice; the
    terminator line follows. *)
Theorem listnetworks_line_without_tls_tag :
  let msg := mkMsg "BOUNCER" ["LISTNETWORKS"] None in
  Network.tls Demo.freenode = false ∧
  run (E := Demo.externals) 1 msg registered_alone
    = Ok (RBool false)
         (with_trace
            [entry_log msg registered_alone;
             EWriteMsg [VStr "BOUNCER"; VStr "listnetworks";
                        VStr "network=freenode;host=irc.freenode.net;port=6667;1;host=irc.freenode.net;state=disconnect"];
             EWriteMsg [VStr "BOUNCER"; VStr "listnetwork"; VStr "RPL_OK"]]
            registered_alone).
Proof. vm_compute. done. Qed.


(** C9: BOUNCER DELBUFFER for a buffer the upstream does not have writes
    RPL_OK and then throws when it reads the name of the missing buffer; it
    does not return.  The upstream's state is unchanged and no PART is
    written. *)
Theorem delbuffer_of_missing_buffer_throws :
  let msg := mkMsg "BOUNCER" ["DELBUFFER"; "freenode"; "#nope"] None in
  run (E := Demo.externals) 1 msg registered
    = Throw "TypeError: Cannot read properties of undefined (reading 'name')"
        (with_trace
           [entry_log msg registered;
            EWriteMsg [VStr "BOUNCER"; VStr "delbuffer"; VStr "freenode";
                       VStr "#nope"; VStr "RPL_OK"]]
           registered).
Proof. vm_compute. reflexivity. Qed.

(** For a buffer the upstream has, the buffer is removed, PART is sent
    upstream when the buffer was joined, and RPL_OK is written. *)
Lemma delbuffer_of_joined_buffer :
  let msg := mkMsg "BOUNCER" ["DELBUFFER"; "freenode"; "#KIWI"] None in
  ∃ c',
    run (E := Demo.externals) 1 msg registered = Ok (RBool false) c' ∧
    (buffers <$> conDict c') = [∅] ∧
    trace c' = [entry_log msg registered;
                EUpstreamWriteLine "u1" [VStr "PART"; VStr "#kiwi"];
                EWriteMsg [VStr "BOUNCER"; VStr "delbuffer"; VStr "freenode";
                           VStr "#KIWI"; VStr "RPL_OK"]].
Proof. vm_compute. eexists. done. Qed.

(** ** Draining the queue on CAP END *)

Lemma dispatched_app (t1 t2 : list Event) :
  dispatched (t1 ++ t2) = (dispatched t1 ++ dispatched t2)%list.
Proof. apply omap_app. Qed.

Lemma dispatched_quiet (t1 t2 : list Event) :
  Forall (λ e, from_queue e = None) t2 → dispatched (t1 ++ t2) = dispatched t1.
Proof.
  intros Hall. rewrite dispatched_app.
  assert (dispatched t2 = []) as ->; [| by rewrite app_nil_r].
  induction Hall as [| e t He _ IH]; [done |].
  unfold dispatched in *. simpl. by rewrite He.
Qed.

Lemma quiet_ret {A} (a : A) : quiet (ret a).
Proof. by intros c. Qed.

Lemma quiet_throw {A} (e : string) : quiet (throw (A := A) e).
Proof. by intros c. Qed.

Lemma quiet_gets {A} (f : Con → A) : quiet (gets f).
Proof. by intros c. Qed.

Lemma quiet_bind {A B} (m : M A) (k : A → M B) :
  quiet m → (∀ a, quiet (k a)) → quiet (bind m k).
Proof.
  intros Hm Hk c. unfold bind. specialize (Hm c).
  destruct (m c) as [a c1 | e c1 |]; [| done | done].
  specialize (Hk a c1). destruct (k a c1) as [b c2 | e c2 |]; [| | done];
    destruct Hm as [<- <-]; exact Hk.
Qed.

Lemma quiet_emit (e : Event) : from_queue e = None → quiet (emit e).
Proof.
  intros He c. unfold emit. simpl. split; [done |].
  apply dispatched_quiet. by constructor.
Qed.

Lemma quiet_modify_state (f : ConnectionState → ConnectionState) :
  (∀ s, tempData (f s) = tempData s) → quiet (modify_state f).
Proof. intros Hf c. unfold modify_state. simpl. by rewrite Hf. Qed.

Lemma quiet_when (b : bool) (m : M unit) : quiet m → quiet (when b m).
Proof. destruct b; [done | intros _; apply quiet_ret]. Qed.

Section Quiet.
Context {E : Externals}.

Lemma quiet_state_save : quiet state_save.
Proof. by intros c. Qed.

Lemma quiet_tempSet_capping v : quiet (state_tempSet (T_capping v)).
Proof. by intros c. Qed.

Lemma quiet_tempSet_reg_state v : quiet (state_tempSet (T_reg_state v)).
Proof. by intros c. Qed.

Lemma quiet_forEachClient up exclude from args :
  quiet (forEachClient_writeMsgFrom up exclude from args).
Proof.
  intros c. unfold forEachClient_writeMsgFrom. simpl. split; [done |].
  apply dispatched_quiet, Forall_forall. intros e He.
  apply list_elem_of_fmap in He as (id & -> & _). done.
Qed.

(** Unfolds the writers and solves a quietness goal by following the
    structure of the computation. *)
Ltac quiet_step :=
  first
    [ apply quiet_ret
    | apply quiet_throw
    | apply quiet_gets
    | apply quiet_state_save
    | apply quiet_tempSet_capping
    | apply quiet_tempSet_reg_state
    | apply quiet_forEachClient
    | apply quiet_emit; reflexivity
    | apply quiet_modify_state; reflexivity
    | apply quiet_when
    | apply quiet_bind; [| intros ?]
    | match goal with
      | |- quiet (if ?b then _ else _) => destruct b
      | |- quiet (match ?x with _ => _ end) => destruct x
      end ].

Ltac quiet_solve :=
  unfold writeMsg, writeMsgFrom, writeFromBnc, writeStatus, close, storeMessage;
  repeat quiet_step.

Lemma quiet_invalid_password : quiet invalid_password.
Proof. unfold invalid_password. quiet_solve. Qed.

Lemma quiet_maybeProcessRegistration : quiet maybeProcessRegistration.
Proof.
  unfold maybeProcessRegistration, finish_registration, bind_upstream,
    welcome_local, invalid_password.
  quiet_solve.
Qed.

Lemma quiet_caps_join sep : quiet (caps_join sep).
Proof. unfold caps_join. quiet_solve. Qed.

Lemma quiet_caps_concat more : quiet (caps_concat more).
Proof. unfold caps_concat. quiet_solve. Qed.

Lemma quiet_PASS msg : quiet (commands_PASS msg).
Proof. unfold commands_PASS. quiet_solve. Qed.

Lemma quiet_USER msg : quiet (commands_USER msg).
Proof. unfold commands_USER. quiet_solve. Qed.

Lemma quiet_NOTICE msg : quiet (commands_NOTICE msg).
Proof. unfold commands_NOTICE. quiet_solve. Qed.

Lemma quiet_PRIVMSG msg : quiet (commands_PRIVMSG msg).
Proof. unfold commands_PRIVMSG. quiet_solve. Qed.

Lemma quiet_NICK msg : quiet (commands_NICK msg).
Proof. unfold commands_NICK. quiet_solve. Qed.

Lemma quiet_PING msg : quiet (commands_PING msg).
Proof. unfold commands_PING. quiet_solve. Qed.

Lemma quiet_QUIT msg : quiet (commands_QUIT msg).
Proof. unfold commands_QUIT. quiet_solve. Qed.

Lemma quiet_KILL msg : quiet (commands_KILL msg).
Proof. unfold commands_KILL. quiet_solve. Qed.

Lemma quiet_RELOAD msg : quiet (commands_RELOAD msg).
Proof. unfold commands_RELOAD. quiet_solve. Qed.

Lemma quiet_DEB msg : quiet (commands_DEB msg).
Proof. unfold commands_DEB. quiet_solve. Qed.

Lemma quiet_listnetworks_each uid nets : quiet (listnetworks_each uid nets).
Proof.
  induction nets as [| net rest IH]; simpl; [apply quiet_ret |].
  quiet_solve. exact IH.
Qed.

Lemma quiet_listbuffers_each netName bufs : quiet (listbuffers_each netName bufs).
Proof.
  induction bufs as [| [k b] rest IH]; simpl; [apply quiet_ret |].
  quiet_solve. exact IH.
Qed.

Lemma quiet_BOUNCER msg : quiet (commands_BOUNCER msg).
Proof.
  unfold commands_BOUNCER, bouncer_CONNECT, bouncer_DISCONNECT,
    bouncer_LISTNETWORKS, bouncer_LISTBUFFERS, bouncer_DELBUFFER.
  quiet_solve;
    try apply quiet_listnetworks_each;
    try apply quiet_listbuffers_each;
    try (by intros c).
Qed.
End Quiet.

Section Drain.
Context {E : Externals}.

Lemma replayed_app (q1 q2 : list string) :
  replayed (q1 ++ q2) = (replayed q1 ++ replayed q2)%list.
Proof. apply omap_app. Qed.

Lemma drained_refl (c c' : Con) :
  reg_queue (tempData (state c')) = reg_queue (tempData (state c)) →
  dispatched (trace c') = dispatched (trace c) →
  drained_to c c'.
Proof.
  intros Hq Ht. exists []. unfold queue_of. rewrite Hq, Ht. simpl.
  by rewrite app_nil_r.
Qed.

Lemma drained_trans (c1 c2 c3 : Con) :
  drained_to c1 c2 → drained_to c2 c3 → drained_to c1 c3.
Proof.
  intros (q1 & Hq1 & Ht1) (q2 & Hq2 & Ht2). exists (q1 ++ q2)%list. split.
  - by rewrite Hq1, Hq2, app_assoc.
  - by rewrite Ht2, Ht1, replayed_app, app_assoc.
Qed.

Lemma drained_length (c c' : Con) :
  drained_to c c' → (List.length (queue_of c') ≤ List.length (queue_of c))%nat.
Proof. intros (q & -> & _). rewrite length_app. lia. Qed.

Lemma steps_of_quiet n {A} (m : M A) : quiet m → steps n m.
Proof.
  intros Hm c. specialize (Hm c).
  destruct (m c) as [a c' | e c' |]; [| | done];
    destruct Hm; by apply drained_refl.
Qed.

Lemma steps_bind n {A B} (m : M A) (k : A → M B) :
  steps n m → (∀ a, steps n (k a)) → steps n (bind m k).
Proof.
  intros Hm Hk c. unfold bind. specialize (Hm c).
  destruct (m c) as [a c1 | e c1 |]; [| done | done].
  specialize (Hk a c1). destruct (k a c1) as [b c2 | e c2 |].
  - by eapply drained_trans.
  - by eapply drained_trans.
  - apply drained_length in Hm. lia.
Qed.

Lemma steps_CAP n (pcq : M unit) (msg : Msg) :
  steps n pcq → steps n (commands_CAP pcq msg).
Proof.
  intros Hpcq. unfold commands_CAP.
  apply steps_bind; [apply steps_of_quiet, quiet_gets | intros availableCaps].
  apply steps_bind.
  { apply steps_of_quiet, quiet_when, quiet_bind; [apply quiet_caps_join |].
    intros ?. apply quiet_emit. reflexivity. }
  intros _. apply steps_bind.
  { apply steps_of_quiet, quiet_when, quiet_bind; [apply quiet_tempSet_capping |].
    intros ?. apply quiet_emit. reflexivity. }
  intros _. apply steps_bind.
  { apply steps_of_quiet, quiet_when, quiet_bind; [apply quiet_caps_concat |].
    intros ?. apply quiet_bind; [by apply quiet_modify_state |].
    intros ?. apply quiet_bind; [apply quiet_state_save |].
    intros ?. apply quiet_emit. reflexivity. }
  intros _. apply steps_bind.
  { destruct (String.eqb _ "END"); simpl; [| apply steps_of_quiet, quiet_ret].
    apply steps_bind; [exact Hpcq |].
    intros _. apply steps_of_quiet, quiet_tempSet_capping. }
  intros _. apply steps_of_quiet, quiet_ret.
Qed.

Lemma steps_commands n (pcq : M unit) (cmd : string) (msg : Msg) handler :
  steps n pcq → commands pcq cmd = Some handler → steps n (handler msg).
Proof.
  intros Hpcq. unfold commands.
  repeat (match goal with
          | |- context [if String.eqb cmd ?v then _ else _] =>
              destruct (String.eqb cmd v)
          end;
          [ intros [= <-];
            first [ by apply steps_CAP
                  | apply steps_of_quiet;
                    first [ apply quiet_PASS | apply quiet_USER | apply quiet_NOTICE
                          | apply quiet_PRIVMSG | apply quiet_NICK | apply quiet_PING
                          | apply quiet_QUIT | apply quiet_BOUNCER | apply quiet_KILL
                          | apply quiet_RELOAD | apply quiet_DEB ] ]
          | ]).
  done.
Qed.

Lemma steps_call_command n (pcq : M unit) (cmd : string) (msg : Msg) :
  steps n pcq → steps n (call_command pcq cmd msg).
Proof.
  intros Hpcq. unfold call_command.
  destruct (commands pcq cmd) as [handler |] eqn:Hh.
  - by eapply steps_commands.
  - apply steps_of_quiet, quiet_throw.
Qed.

Lemma steps_run_unregistered n (pcq : M unit) (cmd : string) (msg : Msg) st :
  steps n pcq → steps n (run_unregistered pcq cmd msg st).
Proof.
  intros Hpcq. unfold run_unregistered.
  destruct (negb (includes preRegisterCommands cmd));
    [apply steps_of_quiet, quiet_ret |].
  apply steps_bind.
  { apply steps_of_quiet.
    destruct (reg_state (tempData st));
      [apply quiet_ret | apply quiet_tempSet_reg_state]. }
  intros _. apply steps_bind; [by apply steps_call_command |].
  intros _. apply steps_bind;
    [apply steps_of_quiet, quiet_maybeProcessRegistration |].
  intros _. apply steps_of_quiet, quiet_ret.
Qed.

Lemma steps_run_registered n (pcq : M unit) (cmd : string) (msg : Msg) :
  steps n pcq → steps n (run_registered pcq cmd msg).
Proof.
  intros Hpcq. unfold run_registered.
  destruct (commands pcq cmd) as [handler |] eqn:Hh.
  - by eapply steps_commands.
  - apply steps_of_quiet, quiet_ret.
Qed.

(** For a message from the queue the gates of [run] only drain: the CAP
    gate lets it through, so nothing is appended to the queue. *)
Lemma steps_run_gates n (pcq : M unit) (cmd : string) (msg : Msg) :
  steps n pcq → is_queue (source msg) = true →
  steps n (run_gates pcq cmd msg).
Proof.
  intros Hpcq Hsrc. unfold run_gates. rewrite Hsrc.
  destruct (_ || _); [by apply steps_call_command |].
  apply steps_bind; [apply steps_of_quiet, quiet_gets | intros st].
  rewrite andb_false_r.
  destruct (negb (netRegistered st)).
  - by apply steps_run_unregistered.
  - by apply steps_run_registered.
Qed.

(** Whatever the message, the gates of [run] do not run out of fuel when
    the fuel covers the queue: the CAP gate itself needs none. *)
Lemma run_gates_fuel n (pcq : M unit) (cmd : string) (msg : Msg) (c : Con) :
  steps n pcq →
  (2 * List.length (queue_of c) + 1 ≤ n)%nat →
  run_gates pcq cmd msg c ≠ OutOfFuel.
Proof.
  intros Hpcq Hn.
  assert (∀ m : M Ret, steps n m → m c ≠ OutOfFuel) as Hsteps.
  { intros m Hm Hout. specialize (Hm c). rewrite Hout in Hm. done. }
  unfold run_gates.
  destruct (_ || _); [by apply Hsteps, steps_call_command |].
  unfold bind at 1. unfold gets.
  destruct (_ && _); [done |].
  destruct (negb (netRegistered (state c))).
  - by apply Hsteps, steps_run_unregistered.
  - by apply Hsteps, steps_run_registered.
Qed.
End Drain.

Section DrainLoop.
Context {E : Externals}.

Lemma queue_of_with_trace t c : queue_of (with_trace t c) = queue_of c.
Proof. reflexivity. Qed.

(** One turn of the loop of [processConQueue]: the line is taken off the
    queue and saved; an empty or unparsable line is skipped; any other
    line is parsed, tagged [source=queue] and given to [run], after
    which the queue is read again. *)
Lemma processConQueue_loop_cons fuel line rest c :
  processConQueue_loop (S fuel) (line :: rest) c
  = match ircLineParser line with
    | Some msg =>
        if negb (truthy_str line)
        then processConQueue_loop fuel rest (shifted rest c)
        else
          match run fuel (set_source "queue" msg) (shifted rest c) with
          | Ok _ c' => processConQueue_loop fuel (queue_of c') c'
          | Throw e c' => Throw e c'
          | OutOfFuel => OutOfFuel
          end
    | None => processConQueue_loop fuel rest (shifted rest c)
    end.
Proof.
  simpl. unfold bind at 1. unfold state_tempSet, tempSet. simpl.
  fold (shifted rest c).
  destruct (ircLineParser line) as [msg |]; [| reflexivity].
  destruct (negb (truthy_str line)); reflexivity.
Qed.

Lemma drained_shift line rest c :
  queue_of c = line :: rest →
  queue_of (shifted rest c) = rest
  ∧ dispatched (trace (shifted rest c)) = dispatched (trace c).
Proof. done. Qed.

(** [run] on a message from the queue, and the loop started on the
    current queue, only drain; with enough fuel they do not run out. *)
Lemma drain_spec (fuel : nat) :
  (∀ msg c,
     is_queue (source msg) = true →
     match run fuel msg c with
     | Ok _ c' | Throw _ c' =>
         drained_to (with_trace (trace c ++ [entry_log msg c]) c) c'
     | OutOfFuel => ¬ (2 * List.length (queue_of c) + 2 ≤ fuel)%nat
     end)
  ∧ (∀ c,
       match processConQueue_loop fuel (queue_of c) c with
       | Ok _ c' => drained_to c c' ∧ reg_queue (tempData (state c')) = None
       | Throw _ c' => drained_to c c'
       | OutOfFuel => ¬ (2 * List.length (queue_of c) + 1 ≤ fuel)%nat
       end).
Proof.
  induction fuel as [| fuel [IHrun IHloop]].
  { split; intros; simpl; lia. }
  assert (steps fuel (processConQueue fuel)) as Hpcq.
  { intros c. unfold processConQueue, bind, gets.
    fold (queue_of c). specialize (IHloop c).
    destruct (processConQueue_loop fuel (queue_of c) c); tauto. }
  split.
  - intros msg c Hsrc. rewrite run_S. unfold run_body.
    unfold bind at 1. unfold log_state, emit.
    fold (entry_log msg c).
    pose proof (steps_run_gates fuel _ (toUpperCase (command msg)) msg Hpcq Hsrc
                  (with_trace (trace c ++ [entry_log msg c]) c)) as Hg.
    destruct (run_gates _ _ _ _); try exact Hg.
    rewrite queue_of_with_trace in Hg. lia.
  - intros c. destruct (queue_of c) as [| line rest] eqn:Hq.
    + simpl. unfold state_tempSet, tempSet. simpl. split; [| done].
      exists []. unfold queue_of in *. simpl. rewrite Hq. by rewrite app_nil_r.
    + rewrite processConQueue_loop_cons.
      destruct (drained_shift line rest c Hq) as [Hrest Htrace].
      assert (∀ c',
                drained_to (shifted rest c) c' → replay_verb line = None →
                drained_to c c') as Hskip.
      { intros c' (q & Hq' & Ht') Hnone. exists (line :: q). split.
        - rewrite Hq. simpl. by rewrite <- Hq', Hrest.
        - rewrite Ht'. f_equal. unfold replayed. simpl. by rewrite Hnone. }
      assert (∀ r,
                r = processConQueue_loop fuel rest (shifted rest c) →
                replay_verb line = None →
                match r with
                | Ok _ c' => drained_to c c' ∧ reg_queue (tempData (state c')) = None
                | Throw _ c' => drained_to c c'
                | OutOfFuel => ¬ (2 * List.length (line :: rest) + 1 ≤ S fuel)%nat
                end) as Hcontinue.
      { intros r -> Hnone. specialize (IHloop (shifted rest c)).
        rewrite Hrest in IHloop.
        destruct (processConQueue_loop fuel rest (shifted rest c)).
        - destruct IHloop. split; [by apply Hskip | done].
        - by apply Hskip.
        - simpl. lia. }
      destruct (ircLineParser line) as [msg |] eqn:Hparse;
        [| apply Hcontinue; [done | unfold replay_verb; by rewrite Hparse]].
      destruct (truthy_str line) eqn:Hline; simpl negb; cbv iota;
        [| apply Hcontinue; [done | unfold replay_verb; by rewrite Hparse, Hline]].
      assert (replay_verb line = Some (toUpperCase (command msg))) as Hverb
        by (unfold replay_verb; by rewrite Hparse, Hline).
      specialize (IHrun (set_source "queue" msg) (shifted rest c) eq_refl).
      assert (∀ c',
                drained_to
                  (with_trace
                     (trace (shifted rest c)
                      ++ [entry_log (set_source "queue" msg) (shifted rest c)])
                     (shifted rest c)) c' →
                drained_to c c') as Hrun.
      { intros c' (q & Hq' & Ht'). exists (line :: q). split.
        - rewrite Hq. simpl. rewrite <- Hq'. by rewrite queue_of_with_trace, Hrest.
        - rewrite Ht'. simpl trace. rewrite dispatched_app.
          unfold replayed at 2. simpl. rewrite Hverb.
          by rewrite <- app_assoc. }
      destruct (run fuel _ _) as [r c1 | e c1 |].
      * pose proof (drained_length _ _ IHrun) as Hlen.
        rewrite queue_of_with_trace, Hrest in Hlen.
        apply Hrun in IHrun. specialize (IHloop c1).
        destruct (processConQueue_loop fuel (queue_of c1) c1).
        -- destruct IHloop. split; [by eapply drained_trans | done].
        -- by eapply drained_trans.
        -- simpl. lia.
      * by apply Hrun.
      * rewrite Hrest in IHrun. simpl. lia.
Qed.

Lemma steps_processConQueue (fuel : nat) : steps fuel (processConQueue fuel).
Proof.
  intros c. unfold processConQueue, bind, gets. fold (queue_of c).
  pose proof (proj2 (drain_spec fuel) c) as Hloop.
  destruct (processConQueue_loop fuel (queue_of c) c); tauto.
Qed.

(** [run] returns or throws: two units of fuel per queued line, and two
    more, are enough for any message. *)
Lemma run_returns_or_throws (fuel : nat) (msg : Msg) (c : Con) :
  (2 * List.length (queue_of c) + 2 ≤ fuel)%nat →
  run fuel msg c ≠ OutOfFuel.
Proof.
  intros Hfuel. destruct fuel as [| fuel]; [lia |].
  rewrite run_S. unfold run_body. unfold bind at 1. unfold log_state, emit.
  apply run_gates_fuel with (n := fuel).
  - apply steps_processConQueue.
  - rewrite queue_of_with_trace. lia.
Qed.

End DrainLoop.



(** ** Fuel

    More fuel does not change a result that was reached. *)

Lemma M_le_refl {A} (m : M A) : M_le m m.
Proof. intros c. by right. Qed.

Lemma M_le_bind {A B} (m m' : M A) (k k' : A → M B) :
  M_le m m' → (∀ a, M_le (k a) (k' a)) → M_le (bind m k) (bind m' k').
Proof.
  intros Hm Hk c. unfold bind.
  destruct (Hm c) as [-> | <-]; [by left |].
  destruct (m c) as [a c1 | e c1 |]; [apply Hk | by right | by left].
Qed.

Lemma M_le_when (b : bool) (m m' : M unit) : M_le m m' → M_le (when b m) (when b m').
Proof. destruct b; [done | intros _; apply M_le_refl]. Qed.

Section Fuel.
Context {E : Externals}.

Lemma commands_CAP_le (pcq pcq' : M unit) (msg : Msg) :
  M_le pcq pcq' → M_le (commands_CAP pcq msg) (commands_CAP pcq' msg).
Proof.
  intros Hpcq. unfold commands_CAP.
  apply M_le_bind; [apply M_le_refl | intros ?].
  apply M_le_bind; [apply M_le_refl | intros ?].
  apply M_le_bind; [apply M_le_refl | intros ?].
  apply M_le_bind; [apply M_le_refl | intros ?].
  apply M_le_bind; [| intros ?; apply M_le_refl].
  apply M_le_when, M_le_bind; [exact Hpcq | intros ?; apply M_le_refl].
Qed.

Lemma call_command_le (pcq pcq' : M unit) (cmd : string) (msg : Msg) :
  M_le pcq pcq' → M_le (call_command pcq cmd msg) (call_command pcq' cmd msg).
Proof.
  intros Hpcq. unfold call_command, commands.
  destruct (String.eqb cmd "CAP"); [by apply commands_CAP_le |].
  apply M_le_refl.
Qed.

Lemma run_registered_le (pcq pcq' : M unit) (cmd : string) (msg : Msg) :
  M_le pcq pcq' → M_le (run_registered pcq cmd msg) (run_registered pcq' cmd msg).
Proof.
  intros Hpcq. unfold run_registered, commands.
  destruct (String.eqb cmd "CAP"); [by apply commands_CAP_le |].
  apply M_le_refl.
Qed.

Lemma run_body_le (pcq pcq' : M unit) (msg : Msg) :
  M_le pcq pcq' → M_le (run_body pcq msg) (run_body pcq' msg).
Proof.
  intros Hpcq. unfold run_body, run_gates.
  apply M_le_bind; [apply M_le_refl | intros ?].
  destruct (_ || _); [by apply call_command_le |].
  apply M_le_bind; [apply M_le_refl | intros st].
  destruct (_ && _); [apply M_le_refl |].
  destruct (negb (netRegistered st)); [| by apply run_registered_le].
  unfold run_unregistered.
  destruct (negb (includes preRegisterCommands _)); [apply M_le_refl |].
  apply M_le_bind; [apply M_le_refl | intros ?].
  apply M_le_bind; [by apply call_command_le | intros ?; apply M_le_refl].
Qed.

Lemma processConQueue_turn_le (run1 run2 : Msg → M Ret)
    (again1 again2 : list string → M unit) (q : list string) :
  (∀ msg, M_le (run1 msg) (run2 msg)) →
  (∀ q', M_le (again1 q') (again2 q')) →
  M_le (processConQueue_turn run1 again1 q) (processConQueue_turn run2 again2 q).
Proof.
  intros Hrun Hagain. unfold processConQueue_turn.
  destruct q as [| line rest]; [apply M_le_refl |].
  apply M_le_bind; [apply M_le_refl | intros ?].
  destruct (ircLineParser line) as [msg |]; [| apply Hagain].
  destruct (negb (truthy_str line)); [apply Hagain |].
  apply M_le_bind; [apply Hrun | intros ?].
  apply M_le_bind; [apply M_le_refl | intros q']. apply Hagain.
Qed.

Lemma fuel_step (fuel : nat) :
  (∀ msg, M_le (run fuel msg) (run (S fuel) msg))
  ∧ (∀ q, M_le (processConQueue_loop fuel q) (processConQueue_loop (S fuel) q)).
Proof.
  induction fuel as [| fuel [IHrun IHloop]].
  { split; intros; intros c; by left. }
  split.
  - intros msg. rewrite !run_S. apply run_body_le.
    unfold processConQueue. apply M_le_bind; [apply M_le_refl | apply IHloop].
  - intros q.
    change (M_le (processConQueue_turn (run fuel) (processConQueue_loop fuel) q)
              (processConQueue_turn (run (S fuel)) (processConQueue_loop (S fuel)) q)).
    by apply processConQueue_turn_le.
Qed.

(** A result [run] reaches with some fuel is the one it reaches with any
    larger amount. *)
Lemma run_fuel_independent (fuel fuel' : nat) (msg : Msg) (c : Con) :
  (fuel ≤ fuel')%nat → run fuel msg c ≠ OutOfFuel →
  run fuel' msg c = run fuel msg c.
Proof.
  intros Hle Hres. induction Hle as [| fuel' _ IH]; [done |].
  destruct (proj1 (fuel_step fuel') msg c) as [Hout | Heq]; congruence.
Qed.

Lemma processConQueue_fuel_independent (fuel fuel' : nat) (c : Con) :
  (fuel ≤ fuel')%nat → processConQueue fuel c ≠ OutOfFuel →
  processConQueue fuel' c = processConQueue fuel c.
Proof.
  intros Hle Hres. induction Hle as [| fuel' _ IH]; [done |].
  unfold processConQueue, bind, gets in *.
  destruct (proj2 (fuel_step fuel') (default [] (reg_queue (tempData (state c)))) c)
    as [Hout | Heq]; congruence.
Qed.
End Fuel.

(** * Further properties

    The rest of the connection state and of the command handlers. *)

(** ** The connection state *)

Lemma set_buffers_same (s : ConnectionState) : set_buffers (buffers s) s = s.
Proof. by destruct s. Qed.





Lemma addBuffer_buffers (chan : ChanArg) (upstreamCon : option (string → bool))
    (s : ConnectionState) :
  buffers (snd (addBuffer chan upstreamCon s))
  = <[toLowerCase (IrcBuffer.name (fst (addBuffer chan upstreamCon s)))
      := fst (addBuffer chan upstreamCon s)]> (buffers s).
Proof. by destruct s. Qed.

Lemma load_buffers_independent (rowChans : gmap string IrcBuffer.t)
    (s s' : ConnectionState) :
  buffers (load_buffers rowChans s) = buffers (load_buffers rowChans s').
Proof.
  unfold load_buffers.
  induction rowChans as [| k obj m Hk Hfirst IH] using map_first_key_ind.
  - by rewrite !map_fold_empty.
  - rewrite !map_fold_insert_first_key by done.
    rewrite !addBuffer_buffers. cbn [addBuffer fst]. by rewrite IH.
Qed.

Lemma load_conId (s : ConnectionState) (db : Db) : conId (load s db) = conId s.
Proof. unfold load. by destruct (db !! conId s). Qed.

Lemma load_again (s : ConnectionState) (db : Db) : load (load s db) db = load s db.
Proof.
  unfold load at 1. rewrite load_conId.
  destruct (db !! conId s) as [row |] eqn:Hrow.
  - unfold load. rewrite Hrow. f_equal. apply load_buffers_independent.
  - unfold load. rewrite Hrow. reflexivity.
Qed.

(** X2: loading is idempotent: a second [load] from the same table gives
    the state the first one gave, with or without a stored row.  After
    [maybeLoad] the state counts as loaded, so a second [maybeLoad] does
    not read the table at all, whatever it holds by then. *)
Theorem load_is_idempotent (s : ConnectionState) (db db' : Db) :
  load (load s db) db = load s db
  ∧ loaded (load s db) = true
  ∧ loaded (maybeLoad s db) = true
  ∧ maybeLoad (maybeLoad s db) db' = maybeLoad s db.
Proof.
  split; [apply load_again |].
  assert (loaded (load s db) = true) as Hl
    by (unfold load; by destruct (db !! conId s)).
  split; [exact Hl |].
  assert (loaded (maybeLoad s db) = true) as Hm.
  { unfold maybeLoad. destruct (loaded s) eqn:Hs; simpl; [exact Hs | exact Hl]. }
  split; [exact Hm |].
  unfold maybeLoad at 1. by rewrite Hm.
Qed.

(** X3: [save] and [destroy] touch the row of their own connection only:
    every other row of the table is as it was.  [save] replaces the row
    (a second save of the same connection leaves one row, the last);
    after [destroy] the row is gone, and [load] gives the defaults of a
    connection that was never saved. *)
Theorem save_and_destroy_touch_only_their_row (now now' : Z)
    (s s' : ConnectionState) (db : Db) (k : string) :
  k ≠ conId s →
  conId s' = conId s →
  save now s db !! k = db !! k
  ∧ destroy s db !! k = db !! k
  ∧ save now s db !! conId s = Some (row_of now s)
  ∧ save now s (save now' s' db) = save now s db
  ∧ destroy s (save now s db) !! conId s = None
  ∧ load s (destroy s (save now s db)) = load s ∅.
Proof.
  intros Hk Hid. unfold save, destroy.
  split; [by rewrite lookup_insert_ne |].
  split; [by rewrite lookup_delete_ne |].
  split; [by rewrite lookup_insert_eq |].
  split; [rewrite Hid; by rewrite insert_insert_eq |].
  split; [by rewrite lookup_delete_eq |].
  unfold load. by rewrite lookup_delete_eq, lookup_empty.
Qed.

Lemma save_and_destroy_touch_only_their_row_witness :
  let s := bound_upstream_state in
  let other := ConnectionState_new "c1" in
  let db := save 1 other ∅ in
  save 2 s db !! "c1" = Some (row_of 1 other)
  ∧ destroy s (save 2 s db) !! "c1" = Some (row_of 1 other)
  ∧ save 3 s (save 2 (set_nick (VStr "kiwi") s) db) = save 3 s db
  ∧ load s (destroy s (save 2 s db)) = load s ∅.
Proof.
  intros s other db.
  destruct (save_and_destroy_touch_only_their_row 2 2 s s db "c1")
    as (H1 & _ & _ & _ & _ & H6); [done | done |].
  destruct (save_and_destroy_touch_only_their_row 2 2 s s (save 2 s db) "c1")
    as (_ & H2 & _); [done | done |].
  destruct (save_and_destroy_touch_only_their_row 3 2 s (set_nick (VStr "kiwi") s)
              db "c1") as (_ & _ & _ & H4 & _); [done | done |].
  split; [rewrite H1; reflexivity |].
  split; [rewrite H2, H1; reflexivity |].
  split; [exact H4 | exact H6].
Defined.

Lemma set_tempData_twice (t t' : TempData) (s : ConnectionState) :
  set_tempData t (set_tempData t' s) = set_tempData t s.
Proof. reflexivity. Qed.

Lemma tempSet_each_cons (now : Z) (e : TempEntry) (entries : list TempEntry)
    (s : ConnectionState) (db : Db) :
  tempSet_each now (e :: entries) s db
  = tempSet_each now entries (fst (tempSet now e s db)) (snd (tempSet now e s db)).
Proof. reflexivity. Qed.

Lemma save_twice (now now' : Z) (s s' : ConnectionState) (db : Db) :
  conId s' = conId s → save now s (save now' s' db) = save now s db.
Proof. intros Hid. unfold save. rewrite Hid. by rewrite insert_insert_eq. Qed.

Lemma tempSet_each_eq (now : Z) (entries : list TempEntry)
    (s : ConnectionState) (db : Db) :
  entries ≠ [] →
  tempSet_each now entries s db = tempSet_object now entries s db.
Proof.
  revert s db.
  induction entries as [| e es IH]; intros s db Hne; [done |].
  rewrite tempSet_each_cons.
  destruct es as [| e' es']; [reflexivity |].
  rewrite IH by done.
  unfold tempSet_object, tempSet. cbn [fst snd]. cbv zeta.
  rewrite save_twice by reflexivity.
  reflexivity.
Qed.

(** X4: [tempSet(key, val)] changes that key of [tempData] and nothing
    else of the state ([null] removes the key), and saves: the stored row
    is the row of the new state, so a [load] brings the same [tempData]
    back.  The form that takes an object of several keys gives the same
    state and the same table as setting its keys one after the other. *)
Theorem tempSet_sets_one_key_and_saves (now : Z) (e : TempEntry)
    (s : ConnectionState) (db : Db) :
  let s' := fst (tempSet now e s db) in
  let db' := snd (tempSet now e s db) in
  s' = set_tempData (tempData s') s
  ∧ match e with
    | T_capping v =>
        capping (tempData s') = v
        ∧ reg_state (tempData s') = reg_state (tempData s)
        ∧ reg_queue (tempData s') = reg_queue (tempData s)
    | T_reg_state v =>
        reg_state (tempData s') = v
        ∧ capping (tempData s') = capping (tempData s)
        ∧ reg_queue (tempData s') = reg_queue (tempData s)
    | T_reg_queue v =>
        reg_queue (tempData s') = v
        ∧ capping (tempData s') = capping (tempData s)
        ∧ reg_state (tempData s') = reg_state (tempData s)
    end
  ∧ db' !! conId s = Some (row_of now s')
  ∧ tempData (load s' db') = tempData s'
  ∧ (∀ more,
       tempSet_object now (e :: more) s db = tempSet_each now (e :: more) s db).
Proof.
  intros s' db'. subst s' db'. unfold tempSet. cbn [fst snd].
  split; [reflexivity |].
  split; [by destruct e |].
  split; [unfold save; simpl; by rewrite lookup_insert_eq |].
  split.
  - unfold load, save. simpl conId. by rewrite lookup_insert_eq.
  - intros more. by rewrite tempSet_each_eq.
Qed.

Lemma includes_true (l : list string) (x : string) : x ∈ l → includes l x = true.
Proof.
  intros Hx. unfold includes. apply existsb_exists. exists x.
  split; [by apply list_elem_of_In | apply String.eqb_refl].
Qed.

Lemma set_add_elem (x : string) (l : list string) (j : string) :
  j ∈ set_add x l ↔ j = x ∨ j ∈ l.
Proof.
  unfold set_add. destruct (includes l x) eqn:Hin.
  - split; [by right |]. intros [-> | H]; [| done].
    unfold includes in Hin. apply existsb_exists in Hin as (y & Hy & Heq).
    apply String.eqb_eq in Heq as ->. by apply list_elem_of_In.
  - rewrite elem_of_app, list_elem_of_singleton. tauto.
Qed.

Lemma set_add_NoDup (x : string) (l : list string) : NoDup l → NoDup (set_add x l).
Proof.
  intros Hnd. unfold set_add. destruct (includes l x) eqn:Hin; [done |].
  apply NoDup_app. split; [done |]. split; [| apply NoDup_singleton].
  intros y Hy ->%list_elem_of_singleton.
  by rewrite (includes_true _ _ Hy) in Hin.
Qed.

Lemma set_delete_fresh (x : string) (l : list string) :
  x ∉ l → set_delete x l = l.
Proof.
  unfold set_delete. induction l as [| y l IH]; intros Hx; [done |].
  apply not_elem_of_cons in Hx as [Hne Hx].
  rewrite filter_cons_True by (intros ->; done). by rewrite IH.
Qed.

(** X5: the linked client ids behave as a set.  After
    [linkIncomingConnection(id)] the ids are the old ones and [id], still
    without repetition, and linking [id] again changes nothing; after
    [unlinkIncomingConnection(id)] they are the old ones except [id].
    Unlinking an id that was linked afresh gives back the ids there were,
    in their order.  Both operations save the state they leave. *)
Theorem linked_ids_behave_as_a_set (now : Z) (id : string)
    (s : ConnectionState) (db : Db) :
  NoDup (linkedIncomingConIds s) →
  let s1 := fst (linkIncomingConnection now id s db) in
  let db1 := snd (linkIncomingConnection now id s db) in
  let s2 := fst (unlinkIncomingConnection now id s db) in
  let db2 := snd (unlinkIncomingConnection now id s db) in
  (∀ j, j ∈ linkedIncomingConIds s1 ↔ j = id ∨ j ∈ linkedIncomingConIds s)
  ∧ NoDup (linkedIncomingConIds s1)
  ∧ fst (linkIncomingConnection now id s1 db1) = s1
  ∧ (∀ j, j ∈ linkedIncomingConIds s2 ↔ j ≠ id ∧ j ∈ linkedIncomingConIds s)
  ∧ NoDup (linkedIncomingConIds s2)
  ∧ (id ∉ linkedIncomingConIds s →
     linkedIncomingConIds (fst (unlinkIncomingConnection now id s1 db1))
     = linkedIncomingConIds s)
  ∧ db1 !! conId s = Some (row_of now s1)
  ∧ db2 !! conId s = Some (row_of now s2).
Proof.
  intros Hnd s1 db1 s2 db2. subst s1 db1 s2 db2.
  unfold linkIncomingConnection, unlinkIncomingConnection. cbn [fst snd].
  split; [intros j; destruct s; apply set_add_elem |].
  split; [destruct s; by apply set_add_NoDup |].
  split.
  { destruct s as [? ? ? ? ? ? ? ? ? ? ? ? ? ? ? ? ? ? ? ? ? ? ? ? ? ? ids ? ?].
    unfold set_linkedIncomingConIds. simpl. f_equal.
    unfold set_add at 1. rewrite includes_true; [done |].
    apply set_add_elem. by left. }
  split.
  { intros j. destruct s. simpl. unfold set_delete.
    rewrite list_elem_of_filter. tauto. }
  split; [destruct s; simpl; by apply NoDup_filter |].
  split.
  { intros Hfresh. destruct s. simpl in *. unfold set_add.
    rewrite includes_false by done. unfold set_delete.
    rewrite filter_app, filter_cons_False, filter_nil, app_nil_r by (intros H; done).
    by apply set_delete_fresh. }
  unfold save. split; simpl; destruct s; simpl; by rewrite lookup_insert_eq.
Qed.

Lemma linked_ids_behave_as_a_set_witness :
  let s := set_linkedIncomingConIds ["c1"; "c2"] (ConnectionState_new "u1") in
  linkedIncomingConIds (fst (linkIncomingConnection 5 "c3" s ∅)) = ["c1"; "c2"; "c3"]
  ∧ NoDup (linkedIncomingConIds (fst (linkIncomingConnection 5 "c2" s ∅)))
  ∧ NoDup (linkedIncomingConIds (fst (unlinkIncomingConnection 5 "c1" s ∅))).
Proof.
  intros s.
  assert (NoDup (linkedIncomingConIds s)) as Hnd.
  { simpl. apply NoDup_cons. split; [by intros ?%list_elem_of_singleton |].
    apply NoDup_singleton. }
  split; [reflexivity |].
  split.
  - exact (proj1 (proj2 (linked_ids_behave_as_a_set 5 "c2" s ∅ Hnd))).
  - exact (proj1 (proj2 (proj2 (proj2 (proj2
             (linked_ids_behave_as_a_set 5 "c1" s ∅ Hnd)))))).
Defined.

(** X6: [getOrAddBuffer] is idempotent and blind to the case of the name:
    the buffer it returns is the one [getBuffer] finds afterwards under
    any spelling of the name, a second call under any spelling returns
    the same buffer and changes neither the state nor the table, and the
    buffers of other names are as before.  A buffer that was there is
    returned as it is with nothing saved; a new one is saved at once. *)
Theorem getOrAddBuffer_is_idempotent (now now' : Z) (name name' : string)
    (up up' : option (string → bool)) (s : ConnectionState) (db db' : Db) :
  toLowerCase name' = toLowerCase name →
  let b := fst (fst (getOrAddBuffer now name up s db)) in
  let s1 := snd (fst (getOrAddBuffer now name up s db)) in
  let db1 := snd (getOrAddBuffer now name up s db) in
  getBuffer name' s1 = Some b
  ∧ getOrAddBuffer now' name' up' s1 db' = (b, s1, db')
  ∧ (∀ other, toLowerCase other ≠ toLowerCase name →
       getBuffer other s1 = getBuffer other s)
  ∧ (∀ b0, getBuffer name s = Some b0 → b = b0 ∧ s1 = s ∧ db1 = db)
  ∧ (getBuffer name s = None →
       b = IrcBuffer.new name up ∧ db1 = save now s1 db).
Proof.
  intros Hcase b s1 db1.
  assert (getBuffer name' s1 = Some b) as Hget.
  { subst b s1. unfold getOrAddBuffer.
    destruct (getBuffer name s) as [b0 |] eqn:Hb; unfold getBuffer in *;
      rewrite Hcase.
    - exact Hb.
    - unfold addBuffer. destruct s. simpl. by rewrite lookup_insert_eq. }
  split; [exact Hget |].
  split; [unfold getOrAddBuffer; by rewrite Hget |].
  subst b s1 db1. unfold getOrAddBuffer.
  destruct (getBuffer name s) as [b0 |] eqn:Hb.
  - split; [done |]. split; [by intros b1 [= <-] | done].
  - split; [| split; [done | by intros _]].
    intros other Hother. unfold getBuffer, addBuffer. destruct s. simpl.
    by rewrite lookup_insert_ne.
Qed.

Lemma getOrAddBuffer_is_idempotent_witness :
  let s1 := snd (fst (getOrAddBuffer 3 "#Kiwi" None (ConnectionState_new "u1") ∅)) in
  getOrAddBuffer 4 "#KIWI" None s1 ∅ = (IrcBuffer.new "#Kiwi" None, s1, ∅).
Proof.
  intros s1.
  exact (proj1 (proj2 (getOrAddBuffer_is_idempotent 3 4 "#Kiwi" "#KIWI" None None
                         (ConnectionState_new "u1") ∅ ∅ eq_refl))).
Defined.

(** X7: [delBuffer] undoes [addBuffer].  A buffer added under a name that
    was free is found under any spelling of the name and removing it,
    under any spelling, gives back the state there was; adding under a
    name that is taken, in whatever case, replaces the buffer that was
    there by a fresh one.  After [delBuffer] no spelling of the name finds
    a buffer, the other buffers are untouched, and removing a buffer that
    is not there changes nothing. *)
Theorem delBuffer_undoes_addBuffer (name name' : string)
    (up : option (string → bool)) (s : ConnectionState) :
  toLowerCase name' = toLowerCase name →
  let s1 := snd (addBuffer (ChanName name) up s) in
  getBuffer name' s1 = Some (IrcBuffer.new name up)
  ∧ (getBuffer name s = None → delBuffer name' s1 = s)
  ∧ delBuffer name' s1 = delBuffer name s
  ∧ getBuffer name' (delBuffer name s) = None
  ∧ (∀ other, toLowerCase other ≠ toLowerCase name →
       getBuffer other (delBuffer name s) = getBuffer other s
       ∧ getBuffer other s1 = getBuffer other s)
  ∧ (getBuffer name s = None → delBuffer name' s = s).
Proof.
  intros Hcase s1. subst s1. unfold getBuffer, delBuffer, addBuffer.
  rewrite Hcase. destruct s. simpl.
  split; [by rewrite lookup_insert_eq |].
  split; [intros Hnone; by rewrite delete_insert_id |].
  split; [by rewrite delete_insert_eq |].
  split; [by rewrite lookup_delete_eq |].
  split; [intros other Hother; by rewrite lookup_delete_ne, lookup_insert_ne |].
  intros Hnone. by rewrite delete_id.
Qed.

Lemma delBuffer_undoes_addBuffer_witness :
  let s := bound_upstream_state in
  delBuffer "#RUST" (snd (addBuffer (ChanName "#rust") None s)) = s.
Proof.
  intros s.
  exact (proj1 (proj2 (delBuffer_undoes_addBuffer "#rust" "#RUST" None s eq_refl))
           eq_refl).
Defined.

(** X8: [renameBuffer] to a name that differs from the old one in case
    only does nothing: the buffer under the old name is found under the
    new one as well, so it is returned with its name as it was.  A rename
    to a free name followed by the rename back gives the buffer its first
    name again, under its first key, and leaves the other buffers alone;
    if the first rename spelled the name as the buffer had it, the state
    is the one there was. *)
Theorem renameBuffer_there_and_back (oldName newName : string)
    (b : IrcBuffer.t) (s : ConnectionState) :
  getBuffer oldName s = Some b →
  (toLowerCase newName = toLowerCase oldName →
     renameBuffer oldName newName s = (Some b, s))
  ∧ (getBuffer newName s = None →
     let s1 := snd (renameBuffer oldName newName s) in
     let s2 := snd (renameBuffer newName oldName s1) in
     getBuffer newName s1 = Some (IrcBuffer.set_name newName b)
     ∧ getBuffer oldName s1 = None
     ∧ fst (renameBuffer newName oldName s1) = Some (IrcBuffer.set_name oldName b)
     ∧ s2 = set_buffers
              (<[toLowerCase oldName := IrcBuffer.set_name oldName b]> (buffers s)) s
     ∧ (IrcBuffer.name b = oldName → s2 = s)).
Proof.
  intros Hold. split.
  - intros Hcase. unfold renameBuffer. rewrite Hold.
    assert (getBuffer newName s = Some b) as ->
      by (unfold getBuffer in *; by rewrite Hcase).
    reflexivity.
  - intros Hnew s1 s2.
    assert (toLowerCase newName ≠ toLowerCase oldName) as Hne.
    { intros Heq. unfold getBuffer in *. rewrite Heq in Hnew. congruence. }
    assert (s1 = set_buffers (<[toLowerCase newName := IrcBuffer.set_name newName b]>
                                (delete (toLowerCase oldName) (buffers s))) s) as Hs1.
    { subst s1. unfold renameBuffer. by rewrite Hold, Hnew. }
    assert (getBuffer newName s1 = Some (IrcBuffer.set_name newName b)) as Hn1.
    { rewrite Hs1. unfold getBuffer. destruct s. simpl. by rewrite lookup_insert_eq. }
    assert (getBuffer oldName s1 = None) as Ho1.
    { rewrite Hs1. unfold getBuffer. destruct s. simpl.
      rewrite lookup_insert_ne by done. by rewrite lookup_delete_eq. }
    assert (renameBuffer newName oldName s1
            = (Some (IrcBuffer.set_name oldName b),
               set_buffers (<[toLowerCase oldName := IrcBuffer.set_name oldName b]>
                              (buffers s)) s)) as Hback.
    { unfold renameBuffer. rewrite Hn1, Ho1. rewrite Hs1.
      change (buffers (set_buffers ?m s)) with m.
      change (set_buffers ?m (set_buffers ?m' s)) with (set_buffers m s).
      f_equal. f_equal.
      unfold getBuffer in Hnew.
      rewrite delete_insert_id by (by rewrite lookup_delete_ne).
      by rewrite insert_delete_eq. }
    split; [exact Hn1 |]. split; [exact Ho1 |].
    split; [by rewrite Hback |].
    split; [subst s2; by rewrite Hback |].
    intros Hname. subst s2. rewrite Hback.
    assert (IrcBuffer.set_name oldName b = b) as ->
      by (destruct b; simpl in *; by subst).
    unfold getBuffer in Hold. rewrite insert_id by done. apply set_buffers_same.
Qed.

Lemma renameBuffer_there_and_back_witness :
  let s := bound_upstream_state in
  renameBuffer "#kiwi" "#KIWI" s = (getBuffer "#kiwi" s, s)
  ∧ snd (renameBuffer "#rust" "#kiwi" (snd (renameBuffer "#kiwi" "#rust" s))) = s.
Proof.
  intros s.
  destruct (getBuffer "#kiwi" s) as [b |] eqn:Hb; [| discriminate Hb].
  destruct (renameBuffer_there_and_back "#kiwi" "#KIWI" b s Hb) as [Hcase _].
  destruct (renameBuffer_there_and_back "#kiwi" "#rust" b s Hb) as [_ Hback].
  split; [exact (Hcase eq_refl) |].
  apply (Hback eq_refl). by injection Hb as <-.
Defined.

Lemma loadConnectionInfo_again (net : option Network.t) (user : option User.t)
    (s : ConnectionState) :
  loadConnectionInfo net user (loadConnectionInfo net user s)
  = loadConnectionInfo net user s.
Proof.
  unfold loadConnectionInfo. destruct net as [n |]; simpl;
    by destruct (connected s).
Qed.

(** X9: [loadConnectionInfo] is idempotent and keeps the nick of a
    connection that is connected, whether the network is found or not.
    It does not touch the identity of the connection, its buffers, caps,
    linked clients, temporary data or registration flags.  The bind host
    it sets does not depend on the state, so it is the same again after a
    [save] and [load], which by themselves forget it; the network's bind
    host wins over the user's. *)
Theorem loadConnectionInfo_is_idempotent (net : option Network.t)
    (user : option User.t) (s : ConnectionState) (now : Z) (db : Db) :
  let s' := loadConnectionInfo net user s in
  loadConnectionInfo net user s' = s'
  ∧ (connected s = true → nick s' = nick s)
  ∧ (conId s' = conId s ∧ buffers s' = buffers s ∧ caps s' = caps s
     ∧ linkedIncomingConIds s' = linkedIncomingConIds s
     ∧ tempData s' = tempData s ∧ netRegistered s' = netRegistered s
     ∧ authUserId s' = authUserId s ∧ authNetworkId s' = authNetworkId s
     ∧ connected s' = connected s ∧ loaded s' = loaded s)
  ∧ bindHost (loadConnectionInfo net user (load s' (save now s' db))) = bindHost s'
  ∧ (∀ n, net = Some n → Network.bind_host n ≠ "" →
       bindHost s' = Network.bind_host n)
  ∧ (∀ n u, net = Some n → user = Some u → Network.bind_host n = "" →
       bindHost s' = User.bind_host u).
Proof.
  intros s'. subst s'.
  split; [apply loadConnectionInfo_again |].
  split; [intros Hc; unfold loadConnectionInfo; destruct net; simpl; by rewrite Hc |].
  split; [unfold loadConnectionInfo; by destruct net |].
  split; [unfold loadConnectionInfo; by destruct net |].
  split.
  - intros n -> Hn. unfold loadConnectionInfo. simpl.
    destruct (Network.bind_host n) eqn:Hb; [done |]. reflexivity.
  - intros n u -> -> Hn. unfold loadConnectionInfo. simpl. rewrite Hn. simpl.
    by destruct (User.bind_host u).
Qed.

Lemma loadConnectionInfo_is_idempotent_witness :
  let alice := User.mk 4 "198.51.100.1" in
  let s := loadConnectionInfo (Some Demo.freenode) (Some alice)
             (ConnectionState_new "u1") in
  bindHost s = "192.0.2.7"
  ∧ loadConnectionInfo (Some Demo.freenode) (Some alice) s = s.
Proof.
  intros alice s.
  destruct (loadConnectionInfo_is_idempotent (Some Demo.freenode) (Some alice)
              (ConnectionState_new "u1") 0 ∅)
    as (Hidem & _ & _ & _ & Hnet & _).
  split; [| exact Hidem].
  apply (Hnet Demo.freenode eq_refl). discriminate.
Defined.

(** ** The dispatcher, further *)

Section DispatcherMore.
Context {E : Externals}.

Lemma commands_None (pcq : M unit) (cmd : string) :
  cmd ∉ handled_verbs → commands pcq cmd = None.
Proof.
  unfold handled_verbs. rewrite !not_elem_of_cons.
  intros (? & ? & ? & ? & ? & ? & ? & ? & ? & ? & ? & ? & _).
  unfold commands. by rewrite !eqb_false.
Qed.

Lemma commands_Some (pcq : M unit) (cmd : string) :
  cmd ∈ handled_verbs → is_Some (commands pcq cmd).
Proof.
  unfold handled_verbs. rewrite !elem_of_cons.
  intros H. unfold commands.
  repeat (destruct H as [-> | H]; [by eexists |]).
  by apply elem_of_nil in H.
Qed.

(** X10: [run] terminates.  The recursion between [run] and
    [processConQueue], which CAP END enters and which gives every queued
    line back to [run], is bounded by the queue: with two units of fuel
    per queued line and two more, [run] returns or throws for every
    message and connection, and more fuel gives the same result. *)
Theorem run_terminates (fuel fuel' : nat) (msg : Msg) (c : Con) :
  (2 * List.length (queue_of c) + 2 ≤ fuel)%nat →
  (fuel ≤ fuel')%nat →
  run fuel msg c ≠ OutOfFuel
  ∧ run fuel' msg c = run fuel msg c.
Proof.
  intros Hfuel Hle.
  assert (run fuel msg c ≠ OutOfFuel) as Hres by by apply run_returns_or_throws.
  split; [exact Hres | by apply run_fuel_independent].
Qed.

(** X11: PING, RELOAD and DEB are served in every state of the
    connection: during CAP negotiation, before registration and after it
    alike they are executed at once, never queued and never refused.
    PING is answered with PONG and its first parameter; the connection's
    state and the table are not touched. *)
Theorem ping_reload_deb_are_served_in_every_state (fuel : nat) (msg : Msg)
    (c : Con) :
  let cmd := toUpperCase (command msg) in
  (cmd = "PING" →
     run (S fuel) msg c
     = Ok (RBool false)
          (with_trace (trace c ++ [entry_log msg c;
                                   EWriteMsg [VStr "PONG"; param msg 0]]) c))
  ∧ (cmd = "RELOAD" →
     run (S fuel) msg c
     = Ok (RBool false)
          (with_trace (trace c ++ [entry_log msg c; EReloadClientCommands]) c))
  ∧ (cmd = "DEB" →
     ∃ logs,
       run (S fuel) msg c
       = Ok (RBool false) (with_trace (trace c ++ entry_log msg c :: logs) c)).
Proof.
  intros cmd. subst cmd.
  split; [| split]; intros Hcmd; rewrite run_S; unfold run_body, entry_log;
    rewrite Hcmd; unfold bind, log_state, emit; simpl;
    unfold run_gates, call_command; simpl.
  - unfold commands_PING, writeMsg, bind, emit, ret. simpl.
    by rewrite <- app_assoc.
  - unfold commands_RELOAD, bind, emit, ret. simpl.
    by rewrite <- app_assoc.
  - eexists. unfold commands_DEB, bind, gets, emit, ret. simpl.
    rewrite <- !app_assoc. simpl. reflexivity.
Qed.

(** X12: a registered client's message whose verb has no handler is left
    to the caller to send upstream: [run] returns true and does nothing
    but log.  A verb that has a handler gets the result of its handler.
    (Neither applies while the CAP gate holds the message back.) *)
Theorem unhandled_verb_of_registered_client_is_forwarded (fuel : nat)
    (msg : Msg) (c : Con) :
  let cmd := toUpperCase (command msg) in
  netRegistered (state c) = true →
  cap_gate msg c = false →
  (cmd ∉ handled_verbs → run (S fuel) msg c = Ok (RBool true) (entered msg c))
  ∧ (cmd ∈ handled_verbs →
     ∃ handler,
       commands (processConQueue fuel) cmd = Some handler
       ∧ run (S fuel) msg c = handler msg (entered msg c)).
Proof.
  intros cmd Hreg Hgate.
  assert (cmd ≠ "DEB" → cmd ≠ "RELOAD" → cmd ≠ "PING" →
          run (S fuel) msg c
          = run_registered (processConQueue fuel) cmd msg (entered msg c)) as Hrun.
  { intros Hdeb Hrel Hping.
    rewrite run_S. unfold run_body, run_gates. fold cmd.
    rewrite (eqb_false _ _ Hdeb), (eqb_false _ _ Hrel), (eqb_false _ _ Hping).
    cbn [orb]. unfold bind at 1. unfold log_state, emit.
    unfold bind at 1. unfold gets. cbn [state with_trace].
    unfold cap_gate in Hgate. fold cmd in Hgate. rewrite Hgate.
    unfold entered, entry_log. fold cmd. rewrite Hreg.
    reflexivity. }
  split.
  - intros Hno. rewrite Hrun.
    + unfold run_registered. by rewrite commands_None.
    + intros ->. apply Hno. unfold handled_verbs. set_solver.
    + intros ->. apply Hno. unfold handled_verbs. set_solver.
    + intros ->. apply Hno. unfold handled_verbs. set_solver.
  - intros Hyes. destruct (commands_Some (processConQueue fuel) cmd Hyes)
      as [handler Hh].
    exists handler. split; [exact Hh |].
    destruct (String.eqb_spec cmd "DEB") as [Hd | Hd];
      [| destruct (String.eqb_spec cmd "RELOAD") as [Hr | Hr];
         [| destruct (String.eqb_spec cmd "PING") as [Hp | Hp]]].
    4: { rewrite Hrun by done. unfold run_registered. by rewrite Hh. }
    all: rewrite run_S; unfold run_body, run_gates; fold cmd;
      unfold bind at 1; unfold log_state, emit; unfold call_command;
      rewrite Hh; unfold entered, entry_log; fold cmd.
    + rewrite Hd. reflexivity.
    + rewrite Hr. reflexivity.
    + rewrite Hp. reflexivity.
Qed.
End DispatcherMore.

Lemma ping_reload_deb_are_served_in_every_state_witness :
  let ping := mkMsg "ping" ["tok"] None in
  run (E := Demo.externals) 1 ping negotiating
  = Ok (RBool false)
       (with_trace [entry_log ping negotiating;
                    EWriteMsg [VStr "PONG"; VStr "tok"]] negotiating).
Proof.
  intros ping.
  exact (proj1 (ping_reload_deb_are_served_in_every_state (E := Demo.externals)
                  0 ping negotiating) eq_refl).
Defined.

Lemma run_terminates_witness :
  let msg := mkMsg "CAP" ["END"] None in
  let c := negotiating_with ["NICK bob"; "CAP END"; "USER bob 0 * Bob"] in
  run (E := Demo.externals) 8 msg c ≠ OutOfFuel
  ∧ run (E := Demo.externals) 50 msg c = run (E := Demo.externals) 8 msg c.
Proof.
  intros msg c.
  apply (run_terminates (E := Demo.externals) 8 50 msg c); vm_compute; lia.
Defined.

Lemma unhandled_verb_of_registered_client_is_forwarded_witness :
  let msg := mkMsg "join" ["#kiwi"] None in
  run (E := Demo.externals) 1 msg registered
  = Ok (RBool true) (entered msg registered).
Proof.
  intros msg.
  apply (proj1 (unhandled_verb_of_registered_client_is_forwarded
                  (E := Demo.externals) 0 msg registered eq_refl eq_refl)).
  change (toUpperCase (command msg)) with "JOIN".
  unfold handled_verbs. rewrite !not_elem_of_cons.
  repeat split; try discriminate. apply not_elem_of_nil.
Defined.

(** ** The PASS value *)

Lemma append_cons (c : ascii) (a b : string) :
  (String c a +:+ b) = String c (a +:+ b).
Proof. reflexivity. Qed.

Lemma append_nil (b : string) : ("" +:+ b) = b.
Proof. reflexivity. Qed.

Lemma span_spec (p : ascii → bool) (s : string) :
  s = (fst (span p s) +:+ snd (span p s))
  ∧ every_char p (fst (span p s)) = true
  ∧ stops p (snd (span p s)).
Proof.
  induction s as [| c s (IH1 & IH2 & IH3)]; [done |].
  simpl. destruct (p c) eqn:Hc; [| done].
  destruct (span p s) as [a b]. simpl in *. rewrite append_cons, Hc.
  split; [by f_equal |]. done.
Qed.

Lemma span_all (p : ascii → bool) (a b : string) :
  every_char p a = true → stops p b → span p (a +:+ b) = (a, b).
Proof.
  intros Ha Hb. induction a as [| c a IH].
  - rewrite append_nil. destruct b as [| c b]; [done |]. simpl in *. by rewrite Hb.
  - rewrite append_cons. simpl in *.
    apply andb_prop in Ha as [Hc Ha]. rewrite Hc. by rewrite IH.
Qed.

Lemma span_every (p : ascii → bool) (a : string) :
  every_char p a = true → span p a = (a, "").
Proof.
  intros Ha. induction a as [| c a IH]; [done |]. simpl in *.
  apply andb_prop in Ha as [Hc Ha]. rewrite Hc. by rewrite IH.
Qed.

Lemma every_char_app (p : ascii → bool) (a b : string) :
  every_char p (a +:+ b) = every_char p a && every_char p b.
Proof.
  induction a as [| c a IH]; [done |]. rewrite append_cons. simpl.
  rewrite IH. by rewrite andb_assoc.
Qed.

(** X13: the regular expression of [maybeProcessRegistration] rejects a
    PASS value only when it is made of slashes and colons alone (the
    empty value included); [Invalid password] for its syntax arises in
    no other case.  When it matches, the user name it yields is not
    empty and holds no slash or colon, a network name that is yielded is
    not empty and holds no colon, and the password stops at the end of
    the line. *)
Theorem pass_match_fails_only_on_separators (pass : string) :
  (pass_match pass = None ↔ every_char is_separator pass = true)
  ∧ (∀ m1 m2 m3,
       pass_match pass = Some (m1, m2, m3) →
       m1 ≠ "" ∧ every_char not_slash_colon m1 = true
       ∧ (∀ n, m2 = Some n → n ≠ "" ∧ every_char not_colon n = true)
       ∧ (∀ w, m3 = Some w → every_char not_line_terminator w = true)).
Proof.
  unfold pass_match. fold is_separator.
  change (λ c, negb (not_slash_colon c)) with is_separator.
  destruct (span_spec is_separator pass) as (Hpass & Hsep & Hstop).
  destruct (span is_separator pass) as [skipped s]. simpl in *.
  destruct s as [| c s].
  { split; [| done]. split; [intros _ | done].
    rewrite Hpass, every_char_app, Hsep. done. }
  simpl in Hstop.
  assert (not_slash_colon c = true) as Hc
    by (unfold is_separator in Hstop; by destruct (not_slash_colon c)).
  split.
  { split.
    - repeat case_match; done.
    - intros Hall. rewrite Hpass, every_char_app in Hall.
      apply andb_prop in Hall as [_ Hall]. simpl in Hall.
      by rewrite Hstop in Hall. }
  intros m1 m2 m3.
  destruct (span_spec not_slash_colon (String c s)) as (_ & H1 & _).
  assert (fst (span not_slash_colon (String c s)) ≠ "") as Hne1
    by (simpl; rewrite Hc; by destruct (span not_slash_colon s)).
  destruct (span not_slash_colon (String c s)) as [g1 r1]. simpl in H1, Hne1.
  assert (∀ r, every_char not_line_terminator (fst (span not_line_terminator r))
               = true) as H3
    by (intros r; apply (span_spec not_line_terminator r)).
  assert (∀ x y z w,
            z = match w with
                | String ":" r => Some (fst (span not_line_terminator r))
                | _ => None
                end →
            z = Some y → every_char not_line_terminator y = x → x = true) as Hm3.
  { intros x y z w -> Hy <-. repeat case_match; try done.
    injection Hy as <-. apply H3. }
  destruct r1 as [| d r].
  { intros [= <- <- <-]. done. }
  destruct (Ascii.eqb_spec d "/") as [-> | Hd].
  - destruct (span_spec not_colon r) as (_ & H2 & _).
    destruct (span not_colon r) as [g2 r2]. simpl in H2.
    destruct g2 as [| e g2].
    + intros [= <- <- <-]. done.
    + intros [= <- <- <-]. split; [done |]. split; [done |].
      split; [by intros n [= <-] |].
      intros w Hw. exact (Hm3 _ w _ r2 eq_refl Hw eq_refl).
  - assert (∀ (X : Type) (a b : X),
              match d with
              | "/"%char => a
              | _ => b
              end = b) as Hmatch.
    { intros X a b. destruct d as [[] [] [] [] [] [] [] []]; try reflexivity.
      by destruct Hd. }
    rewrite Hmatch. intros [= <- <- <-].
    split; [done |]. split; [done |]. split; [done |].
    intros w Hw. exact (Hm3 _ w _ (String d r) eq_refl Hw eq_refl).
Qed.

Lemma pass_match_fails_only_on_separators_witness :
  pass_match "/:/" = None
  ∧ every_char not_slash_colon "alice" = true.
Proof.
  split.
  - exact (proj2 (proj1 (pass_match_fails_only_on_separators "/:/")) eq_refl).
  - exact (proj1 (proj2 (proj2 (pass_match_fails_only_on_separators ":alice:s3cret")
                           "alice" None (Some "s3cret") eq_refl))).
Defined.

Lemma every_char_impl (p q : ascii → bool) (s : string) :
  (∀ c, p c = true → q c = true) → every_char p s = true → every_char q s = true.
Proof.
  intros Hpq. induction s as [| c s IH]; [done |]. simpl.
  intros [Hc Hs]%andb_prop. by rewrite (Hpq c Hc), IH.
Qed.

(** X14: the three forms of a PASS value.  For a user name [u] without
    slash or colon, a network name [n] without colon and a password [w]
    of 7-bit characters on one line, [u/n:w] is read as user [u],
    network [n], password [w]; [u:w] as user [u] and password [w] with
    no network; [u] alone as the user with neither.  The password may
    itself hold slashes and colons. *)
Theorem pass_match_reads_user_network_password (u n w : string) :
  u ≠ "" → every_char not_slash_colon u = true →
  n ≠ "" → every_char not_colon n = true →
  every_char plain_char w = true →
  pass_match (u +:+ "/" +:+ n +:+ ":" +:+ w) = Some (u, Some n, Some w)
  ∧ pass_match (u +:+ ":" +:+ w) = Some (u, None, Some w)
  ∧ pass_match u = Some (u, None, None).
Proof.
  intros Hu Hue Hn Hne Hplain.
  assert (every_char not_line_terminator w = true) as Hw.
  { revert Hplain. apply every_char_impl. intros c.
    unfold plain_char. by intros [? _]%andb_prop. }
  destruct u as [| c u]; [done |]. clear Hu.
  assert (is_separator c = false) as Hc.
  { simpl in Hue. apply andb_prop in Hue as [Hc _]. unfold is_separator.
    by rewrite Hc. }
  assert (∀ rest, span (λ c, negb (not_slash_colon c)) (String c u +:+ rest)
                  = ("", String c u +:+ rest)) as Hskip.
  { intros rest. simpl. fold (is_separator c). by rewrite Hc. }
  split; [| split].
  - unfold pass_match. rewrite Hskip.
    change (String c u +:+ "/" +:+ n +:+ ":" +:+ w)
      with (String c (u +:+ "/" +:+ n +:+ ":" +:+ w)).
    cbv iota beta.
    change (String c (u +:+ "/" +:+ n +:+ ":" +:+ w))
      with (String c u +:+ String "/" (n +:+ String ":" w)).
    rewrite (span_all not_slash_colon) by done.
    rewrite (span_all not_colon) by done.
    destruct n as [| d n]; [done |].
    by rewrite (span_every not_line_terminator).
  - unfold pass_match. rewrite Hskip.
    change (String c u +:+ ":" +:+ w) with (String c (u +:+ ":" +:+ w)).
    cbv iota beta.
    change (String c (u +:+ ":" +:+ w)) with (String c u +:+ String ":" w).
    rewrite (span_all not_slash_colon) by done.
    by rewrite (span_every not_line_terminator).
  - unfold pass_match.
    assert (span (λ c, negb (not_slash_colon c)) (String c u) = ("", String c u))
      as -> by (simpl; fold (is_separator c); by rewrite Hc).
    cbv iota beta.
    by rewrite (span_every not_slash_colon).
Qed.

Lemma pass_match_reads_user_network_password_witness :
  pass_match "alice/freenode:s3:cr/et" = Some ("alice", Some "freenode", Some "s3:cr/et")
  ∧ pass_match "alice:s3:cr/et" = Some ("alice", None, Some "s3:cr/et")
  ∧ pass_match "alice" = Some ("alice", None, None).
Proof.
  exact (pass_match_reads_user_network_password "alice" "freenode" "s3:cr/et"
           ltac:(discriminate) eq_refl ltac:(discriminate) eq_refl eq_refl).
Defined.

(** ** The registration verbs *)

Section RegistrationFields.
Context {E : Externals}.

Ltac run_handlers Hrs :=
  unfold commands_USER, commands_PASS, commands_NICK, bind, gets,
    state_tempSet, tempSet, state_save, modify_state, writeMsgFrom,
    writeFromBnc, emit, ret, get_upstream;
  simpl; repeat (rewrite ?Hrs; simpl).

Ltac same_connection :=
  unfold with_db, with_state, with_trace; simpl;
  rewrite ?save_twice by reflexivity; reflexivity.

(** X15: NICK, USER and PASS may arrive in any order.  With [reg.state]
    present (as [run] makes it before it calls them), any two of the
    three handlers leave the same connection whichever runs first: the
    same state, the same stored row and the same replies.  USER and PASS
    together fill their two fields of [reg.state], leave its nick alone
    and write nothing to the client. *)
Theorem registration_verbs_commute (nick user pass : Msg) (c : Con)
    (rs : RegState.t) :
  reg_state (tempData (state c)) = Some rs →
  outcome ((commands_USER user >> commands_PASS pass) c)
  = outcome ((commands_PASS pass >> commands_USER user) c)
  ∧ outcome ((commands_NICK nick >> commands_PASS pass) c)
    = outcome ((commands_PASS pass >> commands_NICK nick) c)
  ∧ outcome ((commands_NICK nick >> commands_USER user) c)
    = outcome ((commands_USER user >> commands_NICK nick) c)
  ∧ (authUserId (state c) = 0 →
     ∃ c',
       outcome ((commands_USER user >> commands_PASS pass) c) = Some c'
       ∧ reg_state (tempData (state c'))
         = Some (RegState.set_pass (mParam pass 0 "")
                   (RegState.set_user (mParam user 0 "") rs))
       ∧ trace c' = trace c
       ∧ db c' !! conId (state c) = Some (row_of Helpers_now (state c'))).
Proof.
  intros Hrs.
  assert (∀ A B C D : Prop, A ∧ B ∧ C → D → A ∧ B ∧ C ∧ D) as Hand by tauto.
  apply Hand.
  - destruct (truthy_num (authUserId (state c))) eqn:Hauth;
      destruct (netRegistered (state c)) eqn:Hreg;
      (destruct (match upstream c with
                 | Some id => find (λ s, String.eqb (conId s) id) (conDict c)
                 | None => None
                 end) as [u |] eqn:Hup; [destruct (netRegistered u) eqn:Hu |]);
      (split; [| split]);
      run_handlers Hrs;
      repeat (rewrite ?Hup, ?Hauth, ?Hreg, ?Hu; run_handlers Hrs);
      same_connection.
  - intros Hauth. run_handlers Hrs. rewrite Hauth. simpl.
    run_handlers Hrs. eexists. split; [reflexivity |]. simpl.
    split; [reflexivity |]. split; [reflexivity |].
    unfold save. simpl. by rewrite lookup_insert_eq.
Qed.
End RegistrationFields.

Lemma registration_verbs_commute_witness :
  let nick := mkMsg "NICK" ["bob"] None in
  let pass := mkMsg "PASS" ["alice/freenode:s3cret"] None in
  let c := with_reg_state "" "bob" "" None in
  outcome ((commands_NICK (E := Demo.externals) nick
            >> commands_PASS (E := Demo.externals) pass) c)
  = outcome ((commands_PASS (E := Demo.externals) pass
              >> commands_NICK (E := Demo.externals) nick) c).
Proof.
  intros nick pass c.
  exact (proj1 (proj2 (registration_verbs_commute (E := Demo.externals)
                         nick nick pass c (RegState.mk "" "bob" "") eq_refl))).
Defined.

(** ** Logging in *)

Section Login.
Context {E : Externals}.

(** X16: a login that the credential store accepts.  With nick, user
    and pass all given, [capping] unset and a PASS value that the
    regular expression matches: when it names a network and
    [authUserNetwork] returns one, the user's and the network's ids are
    recorded, the upstream is made (none yet), opened (not connected)
    or attached to (connected; the client is registered at once when
    the upstream is), and [reg.state] is removed; when it names no
    network and [authUser] returns a user, the user's id is recorded,
    the client is welcomed and registered locally, and [reg.state] is
    removed.  In both cases the state is saved and nothing is returned.
    (The calls on the connection and its upstream are recorded in the
    order they are made; what they do is not part of these sources.) *)
Theorem maybeProcessRegistration_logs_in (c : Con) (rs : RegState.t)
    (m1 : string) (m2 m3 : option string) :
  reg_state (tempData (state c)) = Some rs →
  ready_to_register rs (tempData (state c)) = true →
  pass_match (RegState.pass rs) = Some (m1, m2, m3) →
  (∀ n network,
     m2 = Some n → n ≠ "" →
     authUserNetwork m1 (default "" m3) n = Some network →
     maybeProcessRegistration c
     = Ok RUndef
          (logged_in (λ s, set_authNetworkId (Network.id network)
                             (set_authUserId (Network.user_id network) s))
             (attach_events network c) c))
  ∧ (∀ user,
       m2 = None →
       authUser m1 (default "" m3) = Some user →
       maybeProcessRegistration c
       = Ok RUndef
            (logged_in (set_authUserId (User.id user))
               [EWriteStatus "Welcome to your BNC!"; ERegisterLocalClient] c)).
Proof.
  intros Hreg Hready Hmatch. unfold ready_to_register in Hready.
  apply andb_prop in Hready as [Hready Hcap].
  apply andb_prop in Hready as [Hready Hpass].
  apply andb_prop in Hready as [Hnick Huser].
  apply negb_true_iff in Hcap.
  split.
  - intros n network -> Hn Hauth.
    unfold maybeProcessRegistration, bind, gets.
    rewrite Hreg, Hmatch, Hnick, Huser, Hpass, Hcap. simpl.
    rewrite !or_str_empty.
    assert (truthy_str n = true) as -> by by destruct n.
    rewrite Hauth.
    unfold finish_registration, bind_upstream, attach_events, logged_in,
      modify_state, state_save, state_tempSet, tempSet, writeStatus, emit,
      when, bind, gets, ret.
    simpl. rewrite Hcap. unfold get_upstream. simpl.
    destruct (match upstream c with
              | Some id => find (λ s, String.eqb (conId s) id) (conDict c)
              | None => None
              end) as [u |]; [destruct (connected u), (netRegistered u) |];
      simpl; unfold with_db, with_state, with_trace; simpl;
      rewrite save_twice by reflexivity; rewrite <- ?app_assoc; reflexivity.
  - intros user -> Hauth.
    unfold maybeProcessRegistration, bind, gets.
    rewrite Hreg, Hmatch, Hnick, Huser, Hpass, Hcap. simpl.
    rewrite !or_str_empty. rewrite Hauth.
    unfold finish_registration, welcome_local, logged_in,
      modify_state, state_save, state_tempSet, tempSet, writeStatus, emit,
      when, bind, gets, ret.
    simpl. rewrite Hcap.
    unfold with_db, with_state, with_trace; simpl.
    rewrite save_twice by reflexivity. rewrite <- ?app_assoc. reflexivity.
Qed.
End Login.

Lemma maybeProcessRegistration_logs_in_witness :
  let c := with_reg_state "bob" "bob" "alice/freenode:s3cret" None in
  maybeProcessRegistration (E := Demo.externals) c
  = Ok RUndef
       (logged_in (E := Demo.externals)
          (λ s, set_authNetworkId 9 (set_authUserId 4 s))
          [EMakeUpstream Demo.freenode; EWriteStatus "Connecting to the network.."]
          c).
Proof.
  intros c.
  exact (proj1 (maybeProcessRegistration_logs_in (E := Demo.externals) c
                  (RegState.mk "bob" "bob" "alice/freenode:s3cret")
                  "alice" (Some "freenode") (Some "s3cret")
                  eq_refl eq_refl eq_refl)
           "freenode" Demo.freenode eq_refl ltac:(discriminate) eq_refl).
Defined.

(** ** BOUNCER, further *)

Section BouncerMore.
Context {E : Externals}.

Lemma truthy_str_false (x : string) : x = "" → truthy_str x = false.
Proof. by intros ->. Qed.

Lemma truthy_str_true (x : string) : x ≠ "" → truthy_str x = true.
Proof. by destruct x. Qed.

(** X17: the sub-commands of BOUNCER that name a network (CONNECT,
    DISCONNECT, LISTBUFFERS, DELBUFFER) answer a missing network name
    (for DELBUFFER also a missing buffer name) with ERR_INVALIDARGS and
    a name that the user has no network of with ERR_NETNOTFOUND; the
    reply carries the sub-command in lower case, nothing else is done
    and the handler returns false.  A sub-command that is none of the
    five known ones gets no reply at all. *)
Theorem bouncer_argument_errors (msg : Msg) (c : Con) :
  let sub := mParamU msg 0 "" in
  let replied code := Ok (RBool false)
                        (with_trace (trace c ++ [bouncer_error sub code]) c) in
  (sub ∈ network_subcommands →
     (mParam msg 1 "" = "" → commands_BOUNCER msg c = replied "ERR_INVALIDARGS")
     ∧ (sub = "DELBUFFER" → mParam msg 2 "" = "" →
        commands_BOUNCER msg c = replied "ERR_INVALIDARGS")
     ∧ (mParam msg 1 "" ≠ "" →
        (sub = "DELBUFFER" → mParam msg 2 "" ≠ "") →
        getNetworkByName (authUserId (state c)) (mParam msg 1 "") = None →
        commands_BOUNCER msg c = replied "ERR_NETNOTFOUND"))
  ∧ (sub ∉ "LISTNETWORKS" :: network_subcommands →
     commands_BOUNCER msg c = Ok (RBool false) c).
Proof.
  intros sub replied. split.
  - unfold network_subcommands. rewrite !elem_of_cons.
    intros [Hsub | [Hsub | [Hsub | [Hsub | Hsub]]]];
      [| | | | by apply elem_of_nil in Hsub];
      subst replied; unfold bouncer_error; rewrite Hsub; subst sub;
      (split; [| split]).
    all: unfold commands_BOUNCER; rewrite Hsub; simpl.
    all: unfold bouncer_CONNECT, bouncer_DISCONNECT, bouncer_LISTBUFFERS,
           bouncer_DELBUFFER, writeMsg, emit, bind, gets, ret.
    all: try (intros Hnet; rewrite (truthy_str_false _ Hnet); reflexivity).
    all: try (intros [=]; fail).
    all: try (intros Hnet _ Hnone; rewrite (truthy_str_true _ Hnet); simpl;
              rewrite Hnone; reflexivity).
    + intros _ Hbuf. rewrite (truthy_str_false _ Hbuf), orb_true_r. reflexivity.
    + intros Hnet Hbuf Hnone.
      rewrite (truthy_str_true _ Hnet), (truthy_str_true _ (Hbuf eq_refl)).
      simpl. rewrite Hnone. reflexivity.
  - unfold network_subcommands. rewrite !not_elem_of_cons.
    intros (? & ? & ? & ? & ? & _).
    unfold commands_BOUNCER. fold sub. by rewrite !eqb_false.
Qed.




End BouncerMore.

Lemma bouncer_argument_errors_witness :
  let connect := mkMsg "BOUNCER" ["connect"] None in
  let listbuffers := mkMsg "BOUNCER" ["listbuffers"; "efnet"] None in
  commands_BOUNCER (E := Demo.externals) connect registered
  = Ok (RBool false)
       (with_trace [EWriteMsg [VStr "BOUNCER"; VStr "connect"; VStr "*";
                               VStr "ERR_INVALIDARGS"]] registered)
  ∧ commands_BOUNCER (E := Demo.externals) listbuffers registered
    = Ok (RBool false)
         (with_trace [EWriteMsg [VStr "BOUNCER"; VStr "listbuffers"; VStr "*";
                                 VStr "ERR_NETNOTFOUND"]] registered).
Proof.
  intros connect listbuffers. split.
  - pose proof (bouncer_argument_errors (E := Demo.externals) connect registered)
      as H.
    cbv zeta in H. destruct H as [H _].
    refine (proj1 (H _) eq_refl).
    unfold network_subcommands. apply elem_of_cons. by left.
  - pose proof (bouncer_argument_errors (E := Demo.externals) listbuffers registered)
      as H.
    cbv zeta in H. destruct H as [H _].
    refine (proj2 (proj2 (H _)) _ _ eq_refl).
    + unfold network_subcommands. rewrite !elem_of_cons. right. right. by left.
    + discriminate.
    + discriminate.
Defined.



(** ** What run leaves alone *)

Lemma own_row_only_refl (c : Con) : own_row_only c c.
Proof. by split; [| split]. Qed.

Lemma own_row_only_trans (c1 c2 c3 : Con) :
  own_row_only c1 c2 → own_row_only c2 c3 → own_row_only c1 c3.
Proof.
  intros (Hf1 & Hd1 & Ht1) (Hf2 & Hd2 & Ht2).
  assert (conId (state c2) = conId (state c1)) as Hid
    by (unfold unassigned_fields in Hf1; congruence).
  split; [congruence |]. split.
  - intros k Hk. rewrite Hd2 by congruence. by apply Hd1.
  - by etrans.
Qed.

Lemma keeps_ret {A} (a : A) : keeps own_row_only (ret a).
Proof. intros c. apply own_row_only_refl. Qed.

Lemma keeps_throw {A} (e : string) : keeps own_row_only (throw (A := A) e).
Proof. intros c. apply own_row_only_refl. Qed.

Lemma keeps_gets {A} (f : Con → A) : keeps own_row_only (gets f).
Proof. intros c. apply own_row_only_refl. Qed.

Lemma keeps_bind {A B} (m : M A) (k : A → M B) :
  keeps own_row_only m → (∀ a, keeps own_row_only (k a)) →
  keeps own_row_only (bind m k).
Proof.
  intros Hm Hk c. unfold bind. specialize (Hm c).
  destruct (m c) as [a c1 | e c1 |]; [| done | done].
  specialize (Hk a c1). destruct (k a c1) as [b c2 | e c2 |]; [| | done];
    by eapply own_row_only_trans.
Qed.

Lemma keeps_trace (t : list Event) (c : Con) :
  own_row_only c (with_trace (trace c ++ t) c).
Proof. split; [done |]. split; [done |]. simpl. by apply prefix_app_r. Qed.

Lemma keeps_emit (e : Event) : keeps own_row_only (emit e).
Proof. intros c. apply keeps_trace. Qed.

Lemma keeps_modify_state (f : ConnectionState → ConnectionState) :
  (∀ s, unassigned_fields (f s) = unassigned_fields s) →
  keeps own_row_only (modify_state f).
Proof. intros Hf c. unfold modify_state. by split; [apply Hf |]. Qed.

Lemma keeps_when (b : bool) (m : M unit) :
  keeps own_row_only m → keeps own_row_only (when b m).
Proof. destruct b; [done | intros _; apply keeps_ret]. Qed.

Section Frame.
Context {E : Externals}.

Lemma keeps_state_save : keeps own_row_only state_save.
Proof.
  intros c. unfold state_save. split; [done |]. split; [| done].
  intros k Hk. simpl. unfold save. by rewrite lookup_insert_ne.
Qed.

Lemma keeps_tempSet (e : TempEntry) : keeps own_row_only (state_tempSet e).
Proof.
  intros c. unfold state_tempSet, tempSet. split; [done |]. split; [| done].
  intros k Hk. simpl. unfold save. by rewrite lookup_insert_ne.
Qed.

Lemma keeps_forEachClient up exclude from args :
  keeps own_row_only (forEachClient_writeMsgFrom up exclude from args).
Proof. intros c. apply keeps_trace. Qed.

Lemma keeps_conDict (f : list ConnectionState → list ConnectionState) :
  keeps own_row_only (λ c, Ok tt (with_conDict (f (conDict c)) c)).
Proof. intros c. by split; [| split]. Qed.

Ltac keeps_step :=
  first
    [ apply keeps_ret
    | apply keeps_throw
    | apply keeps_gets
    | apply keeps_state_save
    | apply keeps_tempSet
    | apply keeps_forEachClient
    | apply keeps_emit
    | apply keeps_modify_state; reflexivity
    | apply keeps_conDict
    | apply keeps_when
    | apply keeps_bind; [| intros ?]
    | match goal with
      | |- keeps _ (if ?b then _ else _) => destruct b
      | |- keeps _ (match ?x with _ => _ end) => destruct x
      end ].

Ltac keeps_solve :=
  unfold writeMsg, writeMsgFrom, writeFromBnc, writeStatus, close, storeMessage;
  repeat keeps_step.

Lemma keeps_maybeProcessRegistration : keeps own_row_only maybeProcessRegistration.
Proof.
  unfold maybeProcessRegistration, finish_registration, bind_upstream,
    welcome_local, invalid_password.
  keeps_solve.
Qed.

Lemma keeps_listnetworks_each uid nets : keeps own_row_only (listnetworks_each uid nets).
Proof. induction nets; simpl; keeps_solve. exact IHnets. Qed.

Lemma keeps_listbuffers_each netName bufs :
  keeps own_row_only (listbuffers_each netName bufs).
Proof. induction bufs as [| [k b] rest IH]; simpl; keeps_solve. exact IH. Qed.

Lemma keeps_BOUNCER msg : keeps own_row_only (commands_BOUNCER msg).
Proof.
  unfold commands_BOUNCER, bouncer_CONNECT, bouncer_DISCONNECT,
    bouncer_LISTNETWORKS, bouncer_LISTBUFFERS, bouncer_DELBUFFER.
  keeps_solve; first [apply keeps_listnetworks_each | apply keeps_listbuffers_each].
Qed.

Lemma keeps_CAP (pcq : M unit) (msg : Msg) :
  keeps own_row_only pcq → keeps own_row_only (commands_CAP pcq msg).
Proof.
  intros Hpcq. unfold commands_CAP, caps_join, caps_concat. keeps_solve.
  exact Hpcq.
Qed.

Lemma keeps_commands (pcq : M unit) (cmd : string) (msg : Msg) handler :
  keeps own_row_only pcq → commands pcq cmd = Some handler →
  keeps own_row_only (handler msg).
Proof.
  intros Hpcq. unfold commands.
  repeat (match goal with
          | |- context [if String.eqb cmd ?v then _ else _] =>
              destruct (String.eqb cmd v)
          end;
          [ intros [= <-];
            first [ by apply keeps_CAP
                  | apply keeps_BOUNCER
                  | unfold commands_PASS, commands_USER, commands_NOTICE,
                      commands_PRIVMSG, commands_NICK, commands_PING,
                      commands_QUIT, commands_KILL, commands_RELOAD,
                      commands_DEB; keeps_solve ]
          | ]).
  done.
Qed.

Lemma keeps_run_body (pcq : M unit) (msg : Msg) :
  keeps own_row_only pcq → keeps own_row_only (run_body pcq msg).
Proof.
  intros Hpcq.
  assert (∀ cmd, keeps own_row_only (call_command pcq cmd msg)) as Hcall.
  { intros cmd. unfold call_command.
    destruct (commands pcq cmd) eqn:Hh; [by eapply keeps_commands | apply keeps_throw]. }
  unfold run_body. apply keeps_bind.
  { intros c. unfold log_state. apply keeps_emit. }
  intros _. unfold run_gates, run_capping, run_unregistered, run_registered.
  destruct (_ || _); [apply Hcall |].
  apply keeps_bind; [apply keeps_gets | intros st].
  destruct (_ && _); [keeps_solve |].
  destruct (negb (netRegistered st)).
  - destruct (negb _); [apply keeps_ret |].
    apply keeps_bind; [keeps_solve | intros _].
    apply keeps_bind; [apply Hcall | intros _].
    apply keeps_bind; [apply keeps_maybeProcessRegistration | intros _].
    apply keeps_ret.
  - destruct (commands pcq _) eqn:Hh; [by eapply keeps_commands | apply keeps_ret].
Qed.

Lemma keeps_run (fuel : nat) :
  (∀ msg, keeps own_row_only (run fuel msg))
  ∧ (∀ q, keeps own_row_only (processConQueue_loop fuel q)).
Proof.
  induction fuel as [| fuel [IHrun IHloop]]; [by split; intros; intros c |].
  split.
  - intros msg. rewrite run_S. apply keeps_run_body.
    unfold processConQueue. apply keeps_bind; [apply keeps_gets | apply IHloop].
  - intros q.
    change (keeps own_row_only
              (processConQueue_turn (run fuel) (processConQueue_loop fuel) q)).
    unfold processConQueue_turn. destruct q as [| line rest]; [apply keeps_tempSet |].
    apply keeps_bind; [apply keeps_tempSet | intros _].
    destruct (ircLineParser line); [| apply IHloop].
    destruct (negb _); [apply IHloop |].
    apply keeps_bind; [apply IHrun | intros _].
    apply keeps_bind; [apply keeps_gets | intros q']. apply IHloop.
Qed.

(** X20: what [run] leaves alone.  Whatever the message and whatever
    the queue replays, [run] and the handlers it reaches assign only
    [caps], [nick], [authUserId], [authNetworkId] and [tempData] of the
    client's state: the connection id and every other field (apart
    from [netRegistered], which [registerClient] owns) are as before.
    Every save they make is of the client's own row: the rows of other
    connections are not written.  The calls already made stay made:
    the record of calls only grows.  (Effects of the collaborators
    that are called are not part of these sources; the calls are
    recorded.) *)
Theorem run_writes_only_its_own_row (fuel : nat) (msg : Msg) (c : Con) :
  (2 * List.length (queue_of c) + 2 ≤ fuel)%nat →
  ∃ c',
    ((∃ r, run fuel msg c = Ok r c') ∨ (∃ e, run fuel msg c = Throw e c'))
    ∧ unassigned_fields (state c') = unassigned_fields (state c)
    ∧ (∀ k, k ≠ conId (state c) → db c' !! k = db c !! k)
    ∧ trace c `prefix_of` trace c'.
Proof.
  intros Hfuel.
  pose proof (run_returns_or_throws fuel msg c Hfuel) as Hres.
  pose proof (proj1 (keeps_run fuel) msg c) as Hkeeps.
  destruct (run fuel msg c) as [r c' | e c' |]; [| | done];
    exists c'; (split; [eauto | exact Hkeeps]).
Qed.
End Frame.

Lemma run_writes_only_its_own_row_witness :
  let msg := mkMsg "CAP" ["END"] None in
  let other := ConnectionState_new "c2" in
  let c := with_db (save 1 other ∅)
             (negotiating_with ["NICK bob"; "USER bob 0 * Bob"]) in
  ∃ c',
    ((∃ r, run (E := Demo.externals) 6 msg c = Ok r c')
     ∨ (∃ e, run (E := Demo.externals) 6 msg c = Throw e c'))
    ∧ conId (state c') = "c1"
    ∧ db c' !! "c2" = Some (row_of 1 other).
Proof.
  intros msg other c.
  destruct (run_writes_only_its_own_row (E := Demo.externals) 6 msg c)
    as (c' & Hrun & Hfields & Hdb & _); [vm_compute; lia |].
  exists c'. split; [exact Hrun |]. split.
  - unfold unassigned_fields in Hfields. by injection Hfields.
  - rewrite (Hdb "c2") by discriminate. reflexivity.
Defined.

(** ** From CAP LS to CAP END *)

Section Negotiation.
Context {E : Externals}.

Lemma run_cap_verb (fuel : nat) (msg : Msg) (c : Con) :
  toUpperCase (command msg) = "CAP" →
  run (S fuel) msg c
  = if netRegistered (state c)
    then commands_CAP (processConQueue fuel) msg (cap_entry msg c)
    else (commands_CAP (processConQueue fuel) msg >>
          maybeProcessRegistration >>
          ret (RBool false)) (cap_entry msg c).
Proof.
  intros Hcmd. rewrite run_S. unfold run_body, run_gates, cap_entry, entered,
    entry_log. rewrite Hcmd. simpl.
  unfold bind at 1. unfold log_state, emit.
  unfold bind at 1. unfold gets. cbn [state with_trace].
  rewrite andb_false_r. simpl.
  destruct (netRegistered (state c)) eqn:Hreg; simpl.
  - reflexivity.
  - unfold run_unregistered, ensure_reg_state. simpl.
    unfold bind, state_tempSet, tempSet, ret. simpl.
    destruct (reg_state (tempData (state c))); reflexivity.
Qed.

Lemma cap_entry_queue (msg : Msg) (c : Con) :
  source msg = None →
  queue_of (cap_entry msg c) = queue_of c
  ∧ dispatched (trace (cap_entry msg c)) = dispatched (trace c)
  ∧ capping (tempData (state (cap_entry msg c))) = capping (tempData (state c))
  ∧ authUserId (state (cap_entry msg c)) = authUserId (state c).
Proof.
  intros Hsrc. unfold cap_entry, ensure_reg_state, entered.
  assert (dispatched (trace c ++ [entry_log msg c]) = dispatched (trace c)) as Hd.
  { apply dispatched_quiet. constructor; [| done].
    unfold entry_log. simpl. by rewrite Hsrc. }
  destruct (netRegistered (state c)); [done |]. simpl.
  destruct (reg_state (tempData (state c))); done.
Qed.





(** X22: CAP LS opens the negotiation window, for a registered client
    as for one that is not.  [run] records the CAP version in [capping]
    (301 when the client gave none), answers with the list of available
    capabilities and returns false; no login is made, although
    [maybeProcessRegistration] is called for an unregistered client,
    and the queue is as it was.  From then on every gated message is
    held in the queue. *)
Theorem cap_ls_opens_the_window (fuel : nat) (msg : Msg) (c : Con) :
  toUpperCase (command msg) = "CAP" →
  mParamU msg 0 "" = "LS" →
  mParamU msg 1 "301" ≠ "" →
  source msg = None →
  ∃ c',
    run (S fuel) msg c = Ok (RBool false) c'
    ∧ capping (tempData (state c')) = Some (mParamU msg 1 "301")
    ∧ trace c'
      = (trace c ++ [entry_log msg c;
                     EWriteMsg [VStr "CAP"; VStr "*"; VStr "LS";
                                VStr (join " " (available_caps (cap_entry msg c)))]])%list
    ∧ authUserId (state c') = authUserId (state c)
    ∧ queue_of c' = queue_of c
    ∧ (∀ next, gated next →
         run (S fuel) next c' = Ok (RBool false) (queued next c')).
Proof.
  intros Hcmd Hls Hver Hsrc.
  destruct (cap_entry_queue msg c Hsrc) as (Hq0 & _ & _ & Hauth0).
  assert (commands_CAP (processConQueue fuel) msg (cap_entry msg c)
          = Ok (RBool false)
               (let c0 := cap_entry msg c in
                let s' := set_tempData
                            (mkTemp (Some (mParamU msg 1 "301"))
                               (reg_state (tempData (state c0)))
                               (reg_queue (tempData (state c0))))
                            (state c0) in
                mkCon s' (upstream c0) (conDict c0) (save Helpers_now s' (db c0))
                  (trace c0 ++ [EWriteMsg [VStr "CAP"; VStr "*"; VStr "LS";
                                           VStr (join " " (available_caps c0))]])))
    as Hcap.
  { unfold commands_CAP. rewrite Hls. simpl.
    unfold bind, gets, when, ret, state_tempSet, tempSet, writeMsg, emit. simpl.
    reflexivity. }
  assert (trace (cap_entry msg c) = (trace c ++ [entry_log msg c])%list) as Ht0.
  { unfold cap_entry, ensure_reg_state, entered.
    destruct (netRegistered (state c)); [done |]. simpl.
    by destruct (reg_state (tempData (state c))). }
  assert (truthy_opt (Some (mParamU msg 1 "301")) = true) as Htruthy
    by (simpl; by apply truthy_str_true).
  eexists. split; [| split; [| split; [| split; [| split]]]].
  - rewrite (run_cap_verb fuel msg c Hcmd).
    destruct (netRegistered (state c)) eqn:Hreg.
    + exact Hcap.
    + unfold bind at 1. rewrite Hcap. cbv zeta.
      unfold bind at 1.
      assert (∀ c2,
                is_Some (reg_state (tempData (state c2))) →
                truthy_opt (capping (tempData (state c2))) = true →
                maybeProcessRegistration c2 = Ok RUndef c2) as Hdefer.
      { intros c2 [rs Hrs] Hc2. unfold maybeProcessRegistration, bind, gets.
        rewrite Hrs, Hc2. by rewrite !orb_true_r. }
      rewrite Hdefer; [reflexivity | | exact Htruthy].
      simpl. unfold cap_entry. rewrite Hreg. unfold ensure_reg_state.
      destruct (reg_state (tempData (state (entered msg c)))) eqn:Hrs;
        simpl in Hrs |- *.
      * rewrite Hrs. by eexists.
      * by eexists.
  - reflexivity.
  - simpl. rewrite Ht0. by rewrite <- app_assoc.
  - simpl. exact Hauth0.
  - unfold queue_of in *. simpl. exact Hq0.
  - intros next Hnext. by apply run_queues_when_capping.
Qed.
End Negotiation.


Lemma cap_ls_opens_the_window_witness :
  let ls := mkMsg "CAP" ["LS"; "302"] None in
  let join := mkMsg "JOIN" ["#kiwi"] None in
  ∃ c',
    run (E := Demo.externals) 1 ls Demo.fresh = Ok (RBool false) c'
    ∧ capping (tempData (state c')) = Some "302"
    ∧ run (E := Demo.externals) 1 join c'
      = Ok (RBool false) (queued (E := Demo.externals) join c').
Proof.
  intros ls join.
  destruct (cap_ls_opens_the_window (E := Demo.externals) 0 ls Demo.fresh
              eq_refl eq_refl ltac:(discriminate) eq_refl)
    as (c' & Hrun & Hcap & _ & _ & _ & Hheld).
  exists c'. split; [exact Hrun |]. split; [exact Hcap |].
  apply Hheld. repeat split; vm_compute; congruence.
Defined.

(** ** Lines lost at the drain *)

Section DrainAndVerbs.
Context {E : Externals}.

Lemma run_refuses_from_queue (fuel : nat) (msg : Msg) (c : Con) :
  netRegistered (state c) = false →
  toUpperCase (command msg) ∉ served_before_registration →
  run (S fuel) (set_source "queue" msg) c
  = Ok (RBool false) (entered (set_source "queue" msg) c).
Proof.
  intros Hreg. unfold served_before_registration. rewrite !not_elem_of_cons.
  intros (Hu & Hn & Hp & Hc & Hd & Hr & Hg & _).
  rewrite run_S. unfold run_body, run_gates, entered, entry_log. simpl.
  rewrite (eqb_false _ _ Hd), (eqb_false _ _ Hr), (eqb_false _ _ Hg).
  unfold bind, log_state, emit, gets. simpl.
  rewrite andb_false_r, Hreg. simpl.
  unfold run_unregistered, includes, preRegisterCommands. simpl.
  rewrite (eqb_false _ _ Hu), (eqb_false _ _ Hn), (eqb_false _ _ Hp),
    (eqb_false _ _ Hc). reflexivity.
Qed.

Lemma queue_dropped_shifted (logs : list Event) (rest : list string) (c : Con) :
  queue_dropped logs (shifted rest c) = queue_dropped logs c.
Proof.
  unfold queue_dropped, shifted. simpl. by rewrite save_twice.
Qed.

Lemma loop_drops (q : list string) :
  ∀ fuel c,
    netRegistered (state c) = false →
    Forall refused_line q →
    (2 * List.length q + 1 ≤ fuel)%nat →
    ∃ logs,
      Forall is_entry_log logs
      ∧ processConQueue_loop fuel q c = Ok tt (queue_dropped logs c).
Proof.
  induction q as [| line rest IH]; intros fuel c Hreg Hall Hfuel.
  - destruct fuel as [| fuel]; [lia |]. exists [].
    split; [constructor |]. simpl. unfold state_tempSet, tempSet, queue_dropped.
    simpl. by rewrite app_nil_r.
  - destruct fuel as [| fuel]; [simpl in Hfuel; lia |].
    apply Forall_cons in Hall as [Hline Hrest].
    rewrite processConQueue_loop_cons.
    assert (∃ logs, Forall is_entry_log logs
                    ∧ processConQueue_loop fuel rest (shifted rest c)
                      = Ok tt (queue_dropped logs c)) as Hskip.
    { destruct (IH fuel (shifted rest c)) as (logs & Hlogs & Hloop);
        [done | done | simpl in Hfuel; lia |].
      exists logs. split; [done |]. by rewrite Hloop, queue_dropped_shifted. }
    unfold refused_line in Hline.
    destruct (ircLineParser line) as [msg |]; [| exact Hskip].
    destruct line as [| ch line]; [exact Hskip |]. simpl negb. cbv iota.
    specialize (Hline ltac:(done)).
    destruct fuel as [| fuel]; [simpl in Hfuel; lia |].
    rewrite run_refuses_from_queue by done.
    assert (queue_of (entered (set_source "queue" msg) (shifted rest c)) = rest)
      as -> by reflexivity.
    destruct (IH (S fuel) (entered (set_source "queue" msg) (shifted rest c)))
      as (logs & Hlogs & Hloop); [done | done | simpl in Hfuel; lia |].
    exists (entry_log (set_source "queue" msg) (shifted rest c) :: logs).
    split; [by constructor |].
    rewrite Hloop. unfold queue_dropped, entered, shifted. simpl.
    rewrite save_twice by reflexivity. by rewrite <- app_assoc.
Qed.

(** X23: lines lost at the drain.  For a client that is not registered,
    a held line whose verb is none of USER, NICK, PASS, CAP (nor DEB,
    RELOAD, PING) is taken off the queue and refused by [run] when the
    queue is drained: [processConQueue] returns with [reg.queue]
    removed and saved, having made no call but the diagnostic lines of
    [run]; nothing is written to the client and nothing is executed.
    Empty lines and lines the parser rejects go the same way. *)
Theorem held_lines_of_unregistered_client_are_dropped (fuel : nat) (c : Con) :
  netRegistered (state c) = false →
  Forall refused_line (queue_of c) →
  (2 * List.length (queue_of c) + 1 ≤ fuel)%nat →
  ∃ logs,
    processConQueue fuel c = Ok tt (queue_dropped logs c)
    ∧ Forall is_entry_log logs
    ∧ reg_queue (tempData (state (queue_dropped logs c))) = None
    ∧ unassigned_fields (state (queue_dropped logs c)) = unassigned_fields (state c)
    ∧ conDict (queue_dropped logs c) = conDict c.
Proof.
  intros Hreg Hall Hfuel.
  destruct (loop_drops (queue_of c) fuel c Hreg Hall Hfuel) as (logs & Hlogs & Hloop).
  exists logs. split; [| done].
  unfold processConQueue, bind, gets. exact Hloop.
Qed.

(** ** CAP LIST and NICK *)

(** X24: CAP LIST calls [join] on [caps].  When [caps] is a [Set] the
    call throws before anything is written, and a [Set] is what the
    constructor and [load] make of [caps]; when [caps] is an array the
    capabilities are listed, separated by spaces, and the handler
    returns false. *)
Theorem cap_list_needs_an_array (pcq : M unit) (msg : Msg) (c : Con) :
  mParamU msg 0 "" = "LIST" →
  (∀ members,
     caps (state c) = CapsSet members →
     commands_CAP pcq msg c
     = Throw "TypeError: con.state.caps.join is not a function" c)
  ∧ (∀ items,
       caps (state c) = CapsArray items →
       commands_CAP pcq msg c
       = Ok (RBool false)
            (with_trace
               (trace c ++ [EWriteMsg [VStr "CAP"; VStr "*"; VStr "LIST";
                                       VStr (join " " items)]]) c))
  ∧ (∀ id, ∃ members, caps (ConnectionState_new id) = CapsSet members)
  ∧ (∀ s db, ∃ members, caps (load s db) = CapsSet members).
Proof.
  intros Hlist. split; [| split; [| split]].
  - intros members Hcaps. unfold commands_CAP. rewrite Hlist. simpl.
    unfold bind, gets, when, caps_join, bind, gets, throw. simpl.
    rewrite Hcaps. reflexivity.
  - intros items Hcaps. unfold commands_CAP. rewrite Hlist. simpl.
    unfold bind, gets, when, caps_join, bind, gets, ret, writeMsg, emit. simpl.
    rewrite Hcaps. reflexivity.
  - intros id. by eexists.
  - intros s db. unfold load. destruct (db !! conId s); by eexists.
Qed.

(** X25: NICK.  From a registered client it is left to the caller to
    send upstream ([run] returns true) when there is no upstream or the
    upstream is registered on its network; while the upstream is not
    registered it is swallowed: [run] returns nothing and does nothing
    but log.  From a client that is not registered (and whose upstream,
    if any, is registered) the handler records the nick in the state
    and in [reg.state], saves, echoes the NICK and reminds the client
    of the password with 464 and a NOTICE, and returns false. *)
Theorem nick_of_registered_client (fuel : nat) (msg : Msg) (c : Con) :
  toUpperCase (command msg) = "NICK" →
  cap_gate msg c = false →
  (netRegistered (state c) = true →
     run (S fuel) msg c
     = Ok match get_upstream c with
          | Some u => if netRegistered u then RBool true else RUndef
          | None => RBool true
          end
          (entered msg c))
  ∧ (netRegistered (state c) = false →
     (∀ u, get_upstream c = Some u → netRegistered u = true) →
     ∃ c',
       commands_NICK msg c = Ok (RBool false) c'
       ∧ nick (state c') = param msg 0
       ∧ reg_state (tempData (state c'))
         = RegState.set_nick (mParam msg 0 "") <$> reg_state (tempData (state c))
       ∧ trace c'
         = (trace c
            ++ [EWriteMsgFrom (param msg 0) [VStr "NICK"; param msg 0];
                EWriteMsgFrom (VStr "bnc")
                  [VNum 464; param msg 0; VStr "Password required"];
                EWriteFromBnc
                  [VStr "NOTICE"; param msg 0;
                   VStr "You must send your password first. /quote PASS <username>/<network>:<password>"]])%list
       ∧ db c' !! conId (state c) = Some (row_of Helpers_now (state c'))).
Proof.
  intros Hcmd Hgate. split.
  - intros Hreg. rewrite run_S. unfold run_body, run_gates. rewrite Hcmd. simpl.
    unfold bind at 1. unfold log_state, emit.
    unfold bind at 1. unfold gets. cbn [state with_trace].
    unfold cap_gate in Hgate. rewrite Hcmd in Hgate. simpl in Hgate.
    rewrite Hgate, Hreg. simpl.
    unfold run_registered. simpl. unfold commands_NICK, bind, gets, ret.
    unfold entered, entry_log. rewrite Hcmd, Hreg.
    change (get_upstream (with_trace ?t c)) with (get_upstream c).
    destruct (get_upstream c) as [u |]; [destruct (netRegistered u) |];
      simpl; rewrite ?Hreg; reflexivity.
  - intros Hreg Hup.
    assert (match get_upstream c with
            | Some u => negb (netRegistered u)
            | None => false
            end = false) as Hgo.
    { destruct (get_upstream c) as [u |] eqn:Hu; [| done].
      by rewrite (Hup u eq_refl). }
    unfold commands_NICK, bind, gets. rewrite Hgo, Hreg. simpl.
    unfold modify_state, state_save, writeMsgFrom, writeFromBnc, emit,
      state_tempSet, tempSet, ret. simpl.
    destruct (reg_state (tempData (state c))) as [rs |] eqn:Hrs; simpl;
      (eexists; split; [reflexivity |]; simpl;
       split; [reflexivity |]; split; [by rewrite ?Hrs |];
       split; [by rewrite <- !app_assoc |];
       unfold save; simpl; by rewrite lookup_insert_eq).
Qed.
End DrainAndVerbs.

Lemma held_lines_of_unregistered_client_are_dropped_witness :
  let c := negotiating_with ["JOIN #kiwi"; ""; "PRIVMSG #kiwi hi"] in
  ∃ logs,
    processConQueue (E := Demo.externals) 7 c
    = Ok tt (queue_dropped (E := Demo.externals) logs c)
    ∧ Forall is_entry_log logs.
Proof.
  intros c.
  assert (∀ verb, verb ≠ "USER" → verb ≠ "NICK" → verb ≠ "PASS" → verb ≠ "CAP" →
                  verb ≠ "DEB" → verb ≠ "RELOAD" → verb ≠ "PING" →
                  verb ∉ served_before_registration) as Hverb.
  { intros verb. unfold served_before_registration. rewrite !not_elem_of_cons.
    intros. repeat split; try done. apply not_elem_of_nil. }
  destruct (held_lines_of_unregistered_client_are_dropped (E := Demo.externals) 7 c)
    as (logs & Hrun & Hlogs & _).
  - reflexivity.
  - change (queue_of c) with ["JOIN #kiwi"; ""; "PRIVMSG #kiwi hi"].
    repeat constructor.
    + intros _. apply Hverb; discriminate.
    + intros _. apply Hverb; discriminate.
  - vm_compute. lia.
  - exists logs. split; [exact Hrun | exact Hlogs].
Defined.

Lemma cap_list_needs_an_array_witness :
  let msg := mkMsg "CAP" ["LIST"] None in
  commands_CAP (E := Demo.externals) (ret tt) msg Demo.fresh
  = Throw "TypeError: con.state.caps.join is not a function" Demo.fresh.
Proof.
  intros msg.
  exact (proj1 (cap_list_needs_an_array (E := Demo.externals) (ret tt) msg
                  Demo.fresh eq_refl) [] eq_refl).
Defined.

Lemma nick_of_registered_client_witness :
  let msg := mkMsg "NICK" ["bob"] None in
  run (E := Demo.externals) 1 msg registered = Ok RUndef (entered msg registered)
  ∧ run (E := Demo.externals) 1 msg registered_alone
    = Ok (RBool true) (entered msg registered_alone).
Proof.
  intros msg. split.
  - exact (proj1 (nick_of_registered_client (E := Demo.externals) 0 msg registered
                    eq_refl eq_refl) eq_refl).
  - exact (proj1 (nick_of_registered_client (E := Demo.externals) 0 msg
                    registered_alone eq_refl eq_refl) eq_refl).
Defined.
